(** * The document store of the idea-sharing service (database.py)

    A shallow embedding of the data-access layer: the in-memory collection
    [_MemoryCollection], the database object [_MemoryDB], the outbound
    serializer [_serialize] and the four CRUD helpers [create_document],
    [get_documents], [update_document] and [delete_document].

    Conventions of the embedding.
    - Python values are immutable trees ([Value]); floats are left out.  A
      tree does not say which list objects are one and the same.  The one
      place where the store changes a list object, the [$push] of
      [update_one], is therefore modelled a second time over values that
      hold a list as the address of a list object ([Shared]), and what
      [$push] does is stated there; on trees, [$push] is right for a list
      that is held in one place only.  A [dict] is an association list in
      insertion order; a later binding of a key shadows an earlier one, as
      in Python's [dict(pairs)], and a real dict has distinct keys
      ([dict_wf]).
    - An exception is a result [Raise e]; code that mutates and may raise
      returns the state reached together with the result ([Exec]).
    - [os.urandom(12).hex()] and [datetime.utcnow()] are read by the caller of
      the model and passed in ([oid], [now]).
    - What the interpreter and the libraries decide is a parameter ([Host]):
      [int] on a [str], the [bson.ObjectId] constructor on a [str], and the
      double-underscore attributes every object has.
    - [getattr(db, name)] reaches [_MemoryDB.__getattr__] only for a name that
      is not an attribute of the object already ([own_attribute]); for
      [_cols] and the object's double-underscore attributes it returns
      something that is no collection, and the helper raises. *)

From Stdlib Require Import List String Ascii ZArith Bool Lia.
Import ListNotations.
Local Open Scope string_scope.
Local Open Scope list_scope.
Local Open Scope Z_scope.

(** ** Python values *)

Inductive ObjectId := Oid (hex : string).

Definition oid_str (o : ObjectId) : string := let (h) := o in h.

#[warnings="-register-all"]
Inductive Value :=
| VNone
| VBool (b : bool)
| VInt (n : Z)
| VStr (s : string)
| VDateTime (t : Z)
| VOid (o : ObjectId)
| VList (l : list Value)
| VDict (d : list (string * Value)).

Definition alist (A : Type) : Type := list (string * A).

Definition Dict : Type := alist Value.

(** Induction on values that reaches the elements of lists and the fields of
    dicts. *)
Section ValueInduction.
Variable P : Value -> Prop.
Hypothesis HNone : P VNone.
Hypothesis HBool : forall b, P (VBool b).
Hypothesis HInt : forall n, P (VInt n).
Hypothesis HStr : forall s, P (VStr s).
Hypothesis HDateTime : forall t, P (VDateTime t).
Hypothesis HOid : forall o, P (VOid o).
Hypothesis HList : forall l, Forall P l -> P (VList l).
Hypothesis HDict :
  forall d, Forall (fun kv : string * Value => P (snd kv)) d -> P (VDict d).

Fixpoint Value_nested_ind (v : Value) : P v :=
  match v with
  | VNone => HNone
  | VBool b => HBool b
  | VInt n => HInt n
  | VStr s => HStr s
  | VDateTime t => HDateTime t
  | VOid o => HOid o
  | VList l =>
      HList l ((fix elems (l : list Value) : Forall P l :=
                  match l with
                  | [] => Forall_nil _
                  | x :: r => Forall_cons x (Value_nested_ind x) (elems r)
                  end) l)
  | VDict d =>
      HDict d ((fix fields (d : list (string * Value))
                  : Forall (fun kv : string * Value => P (snd kv)) d :=
                  match d with
                  | [] => Forall_nil _
                  | kv :: r =>
                      Forall_cons kv
                        (match kv return P (snd kv) with
                         | (_, x) => Value_nested_ind x
                         end)
                        (fields r)
                  end) d)
  end.
End ValueInduction.

(** ** Dictionaries *)

Section Alist.
Context {A : Type}.

(** [d.get(k)]: the last binding of [k]. *)
Fixpoint alist_get (k : string) (d : alist A) : option A :=
  match d with
  | [] => None
  | (k', v) :: rest =>
      match alist_get k rest with
      | Some x => Some x
      | None => if String.eqb k k' then Some v else None
      end
  end.

(** [k in d] *)
Definition alist_mem (k : string) (d : alist A) : bool :=
  match alist_get k d with Some _ => true | None => false end.

Fixpoint alist_replace (k : string) (v : A) (d : alist A) : alist A :=
  match d with
  | [] => []
  | (k', v') :: rest =>
      (k', if String.eqb k k' then v else v') :: alist_replace k v rest
  end.

(** [d[k] = v]: in place when [k] is bound, at the end otherwise. *)
Definition alist_set (k : string) (v : A) (d : alist A) : alist A :=
  if alist_mem k d then alist_replace k v d else d ++ [(k, v)].

(** [del d[k]] *)
Definition alist_remove (k : string) (d : alist A) : alist A :=
  filter (fun kv => negb (String.eqb k (fst kv))) d.

(** [list(d.values())] *)
Definition alist_values (d : alist A) : list A := map snd d.

Definition alist_keys (d : alist A) : list string := map fst d.

(** A real [dict]: no key bound twice. *)
Definition dict_wf (d : alist A) : Prop := NoDup (alist_keys d).

(** [d.setdefault(k, v)], for its effect on [d]. *)
Definition alist_setdefault (k : string) (v : A) (d : alist A) : alist A :=
  if alist_mem k d then d else d ++ [(k, v)].
End Alist.

(** ** Exceptions and effects *)

Inductive PyExn :=
| TypeError
| ValueError
| AttributeError
| BackendError (msg : string).

Inductive Res (A : Type) :=
| Ok (a : A)
| Raise (e : PyExn).
Arguments Ok {A} a.
Arguments Raise {A} e.

Definition res_bind {A B} (r : Res A) (k : A -> Res B) : Res B :=
  match r with
  | Ok a => k a
  | Raise e => Raise e
  end.

Definition res_map {A B} (f : A -> B) (r : Res A) : Res B :=
  res_bind r (fun a => Ok (f a)).

(** A computation over a mutable state [S] that may raise: the state it
    leaves is returned in both cases. *)
Definition Exec (S A : Type) : Type := S -> S * Res A.

Definition ret {S A} (a : A) : Exec S A := fun s => (s, Ok a).

Definition raise {S A} (e : PyExn) : Exec S A := fun s => (s, Raise e).

Definition bind {S A B} (m : Exec S A) (k : A -> Exec S B) : Exec S B :=
  fun s =>
    let (s', r) := m s in
    match r with
    | Ok a => k a s'
    | Raise e => (s', Raise e)
    end.

Definition lift {S A} (r : Res A) : Exec S A := fun s => (s, r).

Declare Scope exec_scope.
Delimit Scope exec_scope with exec.
Notation "x <- m ;; k" := (bind m (fun x => k))
  (at level 61, m at next level, right associativity) : exec_scope.
Notation "m ;;; k" := (bind m (fun _ => k))
  (at level 61, right associativity) : exec_scope.

(** ** Builtins used by the store *)

Definition hashable (v : Value) : bool :=
  match v with
  | VList _ | VDict _ => false
  | _ => true
  end.

(** [isinstance(v, ObjectId)] *)
Definition _is_object_id (v : Value) : bool :=
  match v with
  | VOid _ => true
  | _ => false
  end.

(** [for i in v]: the elements of a list, the characters of a string, the
    keys of a dict; other values are not iterable. *)
Definition py_iter (v : Value) : Res (list Value) :=
  match v with
  | VList l => Ok l
  | VStr s => Ok (map (fun c => VStr (String c EmptyString)) (list_ascii_of_string s))
  | VDict d => Ok (map (fun kv => VStr (fst kv)) d)
  | _ => Raise TypeError
  end.

(** [l[:limit]] *)
Definition slice_to {A} (limit : Z) (l : list A) : list A :=
  if 0 <=? limit then firstn (Z.to_nat limit) l
  else firstn (List.length l - Z.to_nat (- limit)) l.

(** What the store takes from the interpreter and the libraries: [int(s)],
    [None] when it raises [ValueError]; [ObjectId(s)], [None] when it raises
    [InvalidId]; and, for a double-underscore name, whether attribute lookup
    finds it on an instance of a plain class ([__class__], [__dict__],
    [__init__], [__module__], ...), with the exception that calling the named
    collection method on what it finds raises (none of these is a
    collection). *)
Class Host := {
  int_of_str : string -> option Z;
  ObjectId_of_str : string -> option ObjectId;
  object_member : string -> option (string -> PyExn)
}.

(** [name] begins and ends with two underscores. *)
Fixpoint ends_with_underscores (s : string) : bool :=
  match s with
  | EmptyString => false
  | String c rest =>
      match rest with
      | String c' EmptyString => Ascii.eqb c "_" && Ascii.eqb c' "_"
      | _ => ends_with_underscores rest
      end
  end.

Definition is_dunder (name : string) : bool :=
  String.prefix "__" name && ends_with_underscores name.

Section Store.
Context {host : Host}.

(** [int(v)] *)
Definition py_int (v : Value) : Res Z :=
  match v with
  | VInt n => Ok n
  | VBool b => Ok (if b then 1 else 0)
  | VStr s => match int_of_str s with Some n => Ok n | None => Raise ValueError end
  | _ => Raise TypeError
  end.

(** ** The in-memory collection *)

Definition Items := alist Dict.

Record UpdateResult := { matched_count : Z; modified_count : Z }.

Record DeleteResult := { deleted_count : Z }.

(** The result of [update_one] as first built, and once a document was found. *)
Definition not_matched : UpdateResult :=
  {| matched_count := 0; modified_count := 0 |}.

Definition updated : UpdateResult :=
  {| matched_count := 1; modified_count := 1 |}.

(** [doc.get(k, 0)] *)
Definition get_or_zero (k : string) (doc : Dict) : Value :=
  match alist_get k doc with
  | Some x => x
  | None => VInt 0
  end.

(** [v in self.items], with the document when it is there: hashing an
    unhashable value raises [TypeError], and only a string can equal a key. *)
Definition items_lookup (v : Value) (items : Items) : Res (option (string * Dict)) :=
  if hashable v then
    match v with
    | VStr s => Ok (option_map (fun d => (s, d)) (alist_get s items))
    | _ => Ok None
    end
  else Raise TypeError.

Definition insert_one (doc : Dict) (oid : string) : Exec Items Value :=
  fun items =>
    (alist_set oid (alist_set "_id" (VStr oid) doc) items, Ok (VStr oid)).

(** [[self.items[i] for i in ids if i in self.items]] *)
Fixpoint find_in (items : Items) (ids : list Value) : Res (list Dict) :=
  match ids with
  | [] => Ok []
  | i :: rest =>
      res_bind (items_lookup i items) (fun hit =>
      res_bind (find_in items rest) (fun docs =>
      Ok (match hit with
          | Some (_, d) => d :: docs
          | None => docs
          end)))
  end.

Definition find (items : Items) (filter_dict : Dict) : Res (list Dict) :=
  match filter_dict with
  | [] => Ok (alist_values items)
  | _ =>
      match alist_get "_id" filter_dict with
      | Some val =>
          match val with
          | VDict sub =>
              match alist_get "$in" sub with
              | Some ids => res_bind (py_iter ids) (find_in items)
              | None =>
                  res_map (fun hit => match hit with
                                      | Some (_, d) => [d]
                                      | None => []
                                      end)
                          (items_lookup val items)
              end
          | _ =>
              res_map (fun hit => match hit with
                                  | Some (_, d) => [d]
                                  | None => []
                                  end)
                      (items_lookup val items)
          end
      | None => Ok (alist_values items)
      end
  end.

(** The body of the [$inc] loop. *)
Fixpoint apply_inc (ops : Dict) : Exec Dict unit :=
  match ops with
  | [] => ret tt
  | (k, v) :: rest =>
      fun doc =>
        match py_int (get_or_zero k doc) with
        | Raise e => (doc, Raise e)
        | Ok a =>
            match py_int v with
            | Raise e => (doc, Raise e)
            | Ok b => apply_inc rest (alist_set k (VInt (a + b)) doc)
            end
        end
  end.

(** The body of the [$push] loop, for a list that no other place holds: on
    trees the appended value shows in this field only.  [Shared.apply_push]
    follows the list object. *)
Fixpoint apply_push (ops : Dict) (doc : Dict) : Dict :=
  match ops with
  | [] => doc
  | (k, v) :: rest =>
      let doc1 := alist_setdefault k (VList []) doc in
      apply_push rest
        match alist_get k doc1 with
        | Some (VList arr) => alist_set k (VList (arr ++ [v])) doc1
        | _ => doc1
        end
  end.

(** The body of the [$set] loop. *)
Fixpoint apply_set (ops : Dict) (doc : Dict) : Dict :=
  match ops with
  | [] => doc
  | (k, v) :: rest => apply_set rest (alist_set k v doc)
  end.

(** [if op in update: for k, v in update[op].items(): ...] *)
Definition run_operator (op : string) (body : Dict -> Exec Dict unit)
    (update : Dict) : Exec Dict unit :=
  match alist_get op update with
  | None => ret tt
  | Some (VDict ops) => body ops
  | Some _ => raise AttributeError
  end.

Definition apply_update (update : Dict) : Exec Dict unit :=
  (run_operator "$inc" apply_inc update ;;;
   run_operator "$push" (fun ops doc => (apply_push ops doc, Ok tt)) update ;;;
   run_operator "$set" (fun ops doc => (apply_set ops doc, Ok tt)) update)%exec.

Definition filter_id (filter_dict : Dict) : Value :=
  match alist_get "_id" filter_dict with
  | Some v => v
  | None => VNone
  end.

Definition update_one (filter_dict update : Dict) : Exec Items UpdateResult :=
  fun items =>
    match items_lookup (filter_id filter_dict) items with
    | Raise e => (items, Raise e)
    | Ok None => (items, Ok not_matched)
    | Ok (Some (target_id, doc)) =>
        let (doc', r) := apply_update update doc in
        (alist_set target_id doc' items, res_map (fun _ => updated) r)
    end.

Definition find_one (items : Items) (filter_dict : Dict) : Res (option Dict) :=
  res_map (fun docs => hd_error docs) (find items filter_dict).

Definition estimated_document_count (items : Items) : Z :=
  Z.of_nat (List.length items).

Definition delete_one (filter_dict : Dict) : Exec Items DeleteResult :=
  fun items =>
    match items_lookup (filter_id filter_dict) items with
    | Raise e => (items, Raise e)
    | Ok None => (items, Ok {| deleted_count := 0 |})
    | Ok (Some (tid, _)) =>
        (alist_remove tid items, Ok {| deleted_count := 1 |})
    end.

(** ** The in-memory database *)

(** The mapping [_cols] from collection names to collections. *)
Definition MemoryDB := alist Items.

(** The names attribute lookup finds on the database object without calling
    [__getattr__]: [_cols], which [__init__] sets, and the double-underscore
    attributes of the object. *)
Definition own_attribute (name : string) : bool :=
  String.eqb name "_cols"
  || (is_dunder name
      && match object_member name with Some _ => true | None => false end).

(** What [getattr(db, name).method(...)] raises for such a name: [_cols] is
    a dict, which has none of the collection methods. *)
Definition attribute_failure (name method : string) : PyExn :=
  if String.eqb name "_cols" then AttributeError
  else match object_member name with
       | Some raises => raises method
       | None => AttributeError
       end.

(** [getattr(db, name)] followed by a method of what it returns: for a name
    that is no attribute of the object, [__getattr__] makes the collection on
    first use and the method runs on it. *)
Definition on_collection {A} (method name : string) (m : Exec Items A)
    : Exec MemoryDB A :=
  fun db =>
    if own_attribute name then (db, Raise (attribute_failure name method))
    else
      let db1 := alist_setdefault name [] db in
      let items := match alist_get name db1 with Some i => i | None => [] end in
      let (items', r) := m items in
      (alist_set name items' db1, r).

(** ** Outbound serialization *)

(** [str(x) if _is_object_id(x) else x] *)
Definition canon_element (x : Value) : Value :=
  match x with
  | VOid o => VStr (oid_str o)
  | _ => x
  end.

(** What [_serialize] stores in [result[k]] for the value [v] of a field. *)
Fixpoint serialize_value (v : Value) : Value :=
  match v with
  | VOid o => VStr (oid_str o)
  | VDateTime t => VDateTime t
  | VList l => VList (map canon_element l)
  | VDict d =>
      VDict (map (fun kv : string * Value =>
                    let (k, x) := kv in (k, serialize_value x)) d)
  | _ => v
  end.

Definition _serialize (doc : Dict) : Dict :=
  match doc with
  | [] => doc
  | _ => map (fun kv : string * Value =>
                let (k, x) := kv in (k, serialize_value x)) doc
  end.

(** ** The backing store chosen at start-up *)

(** The module's globals after initialization: the flag [USE_MEMORY] and the
    object [db], seen through the four collection methods the helpers call.
    [db_insert_one] also receives the random token of the call. *)
Record Backing := {
  USE_MEMORY : bool;
  db_state : Type;
  db_insert_one : string -> Dict -> string -> Exec db_state Value;
  db_find : string -> Dict -> Exec db_state (list Dict);
  db_update_one : string -> Dict -> Dict -> Exec db_state UpdateResult;
  db_delete_one : string -> Dict -> Exec db_state DeleteResult
}.

(** The fallback taken when the server cannot be reached. *)
Definition memory_backing : Backing := {|
  USE_MEMORY := true;
  db_state := MemoryDB;
  db_insert_one name doc oid :=
    on_collection "insert_one" name (insert_one doc oid);
  db_find name f :=
    on_collection "find" name (fun items => (items, find items f));
  db_update_one name f update :=
    on_collection "update_one" name (update_one f update);
  db_delete_one name f := on_collection "delete_one" name (delete_one f)
|}.

(** ** CRUD helpers *)

(** The inbound translation shared by the three helpers that take a filter:
    [if not USE_MEMORY and f.get("_id") and isinstance(f["_id"], str)]. *)
Definition translate_filter (use_memory : bool) (filter_dict : Dict) : Dict :=
  if use_memory then filter_dict
  else
    match alist_get "_id" filter_dict with
    | Some (VStr s) =>
        if String.eqb s "" then filter_dict
        else
          match ObjectId_of_str s with
          | Some o => alist_set "_id" (VOid o) filter_dict
          | None => filter_dict
          end
    | _ => filter_dict
    end.

Definition create_document (B : Backing) (collection_name : string)
    (data : Dict) (now : Z) (oid : string) : Exec (db_state B) Value :=
  let payload :=
    alist_setdefault "updated_at" (VDateTime now)
      (alist_setdefault "created_at" (VDateTime now) data) in
  db_insert_one B collection_name payload oid.

(** Lines 164-170 of [get_documents]: the query with the filter [f] already
    translated, a second attempt on [TypeError], the truncation and the
    serialization. *)
Definition fetch_documents (B : Backing) (collection_name : string)
    (f : Dict) (limit : Z) : Exec (db_state B) (list Dict) :=
  let out := res_map (fun docs => map _serialize (slice_to limit docs)) in
  fun st =>
    let (st1, r) := db_find B collection_name f st in
    match r with
    | Raise TypeError =>
        let (st2, r2) := db_find B collection_name f st1 in (st2, out r2)
    | _ => (st1, out r)
    end.

Definition get_documents (B : Backing) (collection_name : string)
    (filter_dict : Dict) (limit : Z) : Exec (db_state B) (list Dict) :=
  fetch_documents B collection_name
    (translate_filter (USE_MEMORY B) filter_dict) limit.

Definition update_document (B : Backing) (collection_name : string)
    (filter_dict data : Dict) (now : Z) : Exec (db_state B) Z :=
  let f := translate_filter (USE_MEMORY B) filter_dict in
  let payload := alist_set "updated_at" (VDateTime now) data in
  (res <- db_update_one B collection_name f [("$set", VDict payload)] ;;
   ret (modified_count res))%exec.

Definition delete_document (B : Backing) (collection_name : string)
    (filter_dict : Dict) : Exec (db_state B) Z :=
  let f := translate_filter (USE_MEMORY B) filter_dict in
  (res <- db_delete_one B collection_name f ;;
   ret (deleted_count res))%exec.

(** ** Notions used to state the properties *)

(** The documents of a collection of the in-memory database: those the
    helpers reach under [name], none when [name] is an attribute of the
    object and so names no collection. *)
Definition collection (name : string) (db : MemoryDB) : Items :=
  if own_attribute name then []
  else match alist_get name db with
       | Some items => items
       | None => []
       end.

(** A field of a stored document. *)
Definition stored_field (name id k : string) (db : MemoryDB) : option Value :=
  match alist_get id (collection name db) with
  | Some doc => alist_get k doc
  | None => None
  end.

(** The documents named by a list of identifiers, in the order of the list,
    identifiers that are not stored being skipped. *)
Definition docs_in_order (items : Items) (ids : list Value) : list Dict :=
  flat_map (fun i => match i with
                     | VStr s => match alist_get s items with
                                 | Some d => [d]
                                 | None => []
                                 end
                     | _ => []
                     end) ids.

(** The three per-field operations of an update, as functions of the value a
    field holds ([None] when the field is missing). *)
Definition int_or_zero (v : Value) : Z :=
  match py_int v with
  | Ok n => n
  | Raise _ => 0
  end.

(** [int(v)] returns. *)
Definition int_convertible (v : Value) : bool :=
  match py_int v with
  | Ok _ => true
  | Raise _ => false
  end.

(** Every increment of [ops] applies to [doc] without raising. *)
Definition inc_applicable (ops doc : Dict) : bool :=
  forallb (fun kv : string * Value =>
             let (k, v) := kv in
             int_convertible (get_or_zero k doc) && int_convertible v) ops.

Definition inc_field (ops : Dict) (k : string) (x : option Value) : option Value :=
  match alist_get k ops with
  | Some v =>
      Some (VInt (match x with Some old => int_or_zero old | None => 0 end
                  + int_or_zero v))
  | None => x
  end.

Definition set_field (ops : Dict) (k : string) (x : option Value) : option Value :=
  match alist_get k ops with
  | Some v => Some v
  | None => x
  end.

(** An identifier sits where [_serialize] looks: it is the value itself, an
    element of a list that is the value, or it sits so in a field of a dict
    that is the value. *)
Fixpoint exposed_oid (v : Value) : bool :=
  match v with
  | VOid _ => true
  | VList l => existsb _is_object_id l
  | VDict d => existsb (fun kv : string * Value => let (_, x) := kv in exposed_oid x) d
  | _ => false
  end.

(** A run of calls of [update_document] on the in-memory database. *)
Record UpdateCall := {
  uc_collection : string;
  uc_filter : Dict;
  uc_fields : Dict;
  uc_now : Z
}.

Definition run_update (c : UpdateCall) (db : MemoryDB) : MemoryDB :=
  fst (update_document memory_backing (uc_collection c) (uc_filter c)
         (uc_fields c) (uc_now c) db).

Definition run_updates (calls : list UpdateCall) (db : MemoryDB) : MemoryDB :=
  fold_left (fun st c => run_update c st) calls db.

(** The clock never runs backwards over a list of readings. *)
Fixpoint nondecreasing (ts : list Z) : Prop :=
  match ts with
  | t1 :: ((t2 :: _) as rest) => t1 <= t2 /\ nondecreasing rest
  | _ => True
  end.

End Store.

(** ** The collection with list objects

    [arr.append(v)], in the [$push] of [update_one], changes a list object,
    and the change shows in every place that holds the object: in another
    field, in another document ([insert_one] copies a document shallowly, so
    two documents inserted with the same list hold one object), in a value
    of the payload.  To follow it, a value of this module holds a list as the
    address of a list object ([OList a]), and a collection carries its list
    objects beside its documents.  The module models [update_one] once more
    over these values.  Dicts stay values: [update_one] assigns to the keys
    of the matched document, which [insert_one] made for the collection, and
    changes no other dict. *)
Module Shared.

#[warnings="-register-all"]
Inductive OValue :=
| ONone
| OBool (b : bool)
| OInt (n : Z)
| OStr (s : string)
| ODateTime (t : Z)
| OOid (o : ObjectId)
| OList (a : nat)
| ODict (d : list (string * OValue)).

Definition ODoc : Type := alist OValue.

(** The list objects: the one at address [a] is the [a]-th. *)
Definition Heap : Type := list (list OValue).

(** [self.items], and the list objects its documents and the payloads of
    its callers refer to. *)
Record Collection := { items : alist ODoc; lists : Heap }.

Section Objects.
Context {host : Host}.

(** [int(v)] *)
Definition py_int (v : OValue) : Res Z :=
  match v with
  | OInt n => Ok n
  | OBool b => Ok (if b then 1 else 0)
  | OStr s => match int_of_str s with Some n => Ok n | None => Raise ValueError end
  | _ => Raise TypeError
  end.

Definition hashable (v : OValue) : bool :=
  match v with
  | OList _ | ODict _ => false
  | _ => true
  end.

(** [doc.get(k, 0)] *)
Definition get_or_zero (k : string) (doc : ODoc) : OValue :=
  match alist_get k doc with
  | Some x => x
  | None => OInt 0
  end.

(** [v in self.items], with the document when it is there. *)
Definition items_lookup (v : OValue) (docs : alist ODoc)
    : Res (option (string * ODoc)) :=
  if hashable v then
    match v with
    | OStr s => Ok (option_map (fun d => (s, d)) (alist_get s docs))
    | _ => Ok None
    end
  else Raise TypeError.

(** The body of the [$inc] loop. *)
Fixpoint apply_inc (ops : ODoc) : Exec ODoc unit :=
  match ops with
  | [] => ret tt
  | (k, v) :: rest =>
      fun doc =>
        match py_int (get_or_zero k doc) with
        | Raise e => (doc, Raise e)
        | Ok a =>
            match py_int v with
            | Raise e => (doc, Raise e)
            | Ok b => apply_inc rest (alist_set k (OInt (a + b)) doc)
            end
        end
  end.

(** [arr.append(v)], for the list object at address [a]. *)
Fixpoint append (a : nat) (v : OValue) (h : Heap) {struct h} : Heap :=
  match h with
  | [] => []
  | l :: rest =>
      match a with
      | O => (l ++ [v]) :: rest
      | S a' => l :: append a' v rest
      end
  end.

(** [arr = doc.setdefault(k, [])]: what the field holds, a new empty list
    object when the field is missing. *)
Definition setdefault_list (k : string) (st : Heap * ODoc)
    : OValue * (Heap * ODoc) :=
  match alist_get k (snd st) with
  | Some arr => (arr, st)
  | None =>
      let a := List.length (fst st) in
      (OList a, (fst st ++ [[]], alist_set k (OList a) (snd st)))
  end.

(** The body of the [$push] loop. *)
Fixpoint apply_push (ops : ODoc) (st : Heap * ODoc) : Heap * ODoc :=
  match ops with
  | [] => st
  | (k, v) :: rest =>
      let (arr, st1) := setdefault_list k st in
      apply_push rest
        match arr with
        | OList a => (append a v (fst st1), snd st1)
        | _ => st1
        end
  end.

(** The body of the [$set] loop. *)
Fixpoint apply_set (ops : ODoc) (doc : ODoc) : ODoc :=
  match ops with
  | [] => doc
  | (k, v) :: rest => apply_set rest (alist_set k v doc)
  end.

(** [if op in update: for k, v in update[op].items(): ...] *)
Definition run_operator (op : string) (body : ODoc -> Exec (Heap * ODoc) unit)
    (update : ODoc) : Exec (Heap * ODoc) unit :=
  match alist_get op update with
  | None => ret tt
  | Some (ODict ops) => body ops
  | Some _ => raise AttributeError
  end.

Definition apply_update (update : ODoc) : Exec (Heap * ODoc) unit :=
  (run_operator "$inc"
     (fun ops st =>
        let (doc', r) := apply_inc ops (snd st) in ((fst st, doc'), r)) update ;;;
   run_operator "$push" (fun ops st => (apply_push ops st, Ok tt)) update ;;;
   run_operator "$set"
     (fun ops st => ((fst st, apply_set ops (snd st)), Ok tt)) update)%exec.

Definition filter_id (filter_dict : ODoc) : OValue :=
  match alist_get "_id" filter_dict with
  | Some v => v
  | None => ONone
  end.

Definition update_one (filter_dict update : ODoc) : Exec Collection UpdateResult :=
  fun c =>
    match items_lookup (filter_id filter_dict) (items c) with
    | Raise e => (c, Raise e)
    | Ok None => (c, Ok not_matched)
    | Ok (Some (target_id, doc)) =>
        let (st', r) := apply_update update (lists c, doc) in
        ({| items := alist_set target_id (snd st') (items c);
            lists := fst st' |},
         res_map (fun _ => updated) r)
    end.

(** *** Notions used to state the properties *)

Definition int_or_zero (v : OValue) : Z :=
  match py_int v with
  | Ok n => n
  | Raise _ => 0
  end.

(** [int(v)] returns. *)
Definition int_convertible (v : OValue) : bool :=
  match py_int v with
  | Ok _ => true
  | Raise _ => false
  end.

(** Every increment of [ops] applies to [doc] without raising. *)
Definition inc_applicable (ops doc : ODoc) : bool :=
  forallb (fun kv : string * OValue =>
             let (k, v) := kv in
             int_convertible (get_or_zero k doc) && int_convertible v) ops.

(** The increment and the set, as functions of the value a field holds
    ([None] when the field is missing). *)
Definition inc_field (ops : ODoc) (k : string) (x : option OValue)
    : option OValue :=
  match alist_get k ops with
  | Some v =>
      Some (OInt (match x with Some old => int_or_zero old | None => 0 end
                  + int_or_zero v))
  | None => x
  end.

Definition set_field (ops : ODoc) (k : string) (x : option OValue)
    : option OValue :=
  match alist_get k ops with
  | Some v => Some v
  | None => x
  end.

(** The operand of an operator of an update payload: absent, or a dict. *)
Definition operand_ok (op : string) (update : ODoc) : Prop :=
  alist_get op update = None \/ exists ops, alist_get op update = Some (ODict ops).

Definition operand_or_empty (op : string) (update : ODoc) : ODoc :=
  match alist_get op update with
  | Some (ODict ops) => ops
  | _ => []
  end.

(** The values that the appends [ops] add to the list object at [a], in
    their order: those of the fields that hold this object, [field k] being
    what the field [k] holds when the appends begin. *)
Definition pushed (ops : ODoc) (field : string -> option OValue) (a : nat)
    : list OValue :=
  flat_map (fun kv : string * OValue =>
              match field (fst kv) with
              | Some (OList b) => if Nat.eqb a b then [snd kv] else []
              | _ => []
              end) ops.

(** The fields for which the appends [ops] make a new list object: those
    that are missing when the appends begin. *)
Definition created (ops : ODoc) (field : string -> option OValue) : ODoc :=
  filter (fun kv : string * OValue =>
            match field (fst kv) with
            | None => true
            | Some _ => false
            end) ops.

(** Every list a field of [doc] holds is one of the list objects [h]. *)
Definition allocated (doc : ODoc) (h : Heap) : bool :=
  forallb (fun kv : string * OValue =>
             match snd kv with
             | OList a => Nat.ltb a (List.length h)
             | _ => true
             end) doc.

End Objects.
End Shared.

(** ** Instances used in the examples *)

(** A host that reads plain decimal numerals and 24-digit lower-case
    hexadecimal identifiers. *)
Definition digit_of_ascii (c : ascii) : option Z :=
  let n := Z.of_N (N_of_ascii c) in
  if (48 <=? n) && (n <=? 57) then Some (n - 48) else None.

Fixpoint decimal (acc : Z) (cs : list ascii) : option Z :=
  match cs with
  | [] => Some acc
  | c :: rest =>
      match digit_of_ascii c with
      | Some d => decimal (10 * acc + d) rest
      | None => None
      end
  end.

Definition decimal_of_str (s : string) : option Z :=
  match list_ascii_of_string s with
  | [] => None
  | cs => decimal 0 cs
  end.

Definition is_hex_digit (c : ascii) : bool :=
  let n := Z.of_N (N_of_ascii c) in
  ((48 <=? n) && (n <=? 57)) || ((97 <=? n) && (n <=? 102)).

Definition hex24_of_str (s : string) : option ObjectId :=
  if (Nat.eqb (String.length s) 24) && forallb is_hex_digit (list_ascii_of_string s)
  then Some (Oid s)
  else None.

(** The double-underscore attributes of an instance of a plain class under
    CPython 3.12; [__module__] is a [str], whose [find] rejects a dict. *)
Definition cpython_members : list string :=
  ["__class__"; "__delattr__"; "__dict__"; "__dir__"; "__doc__"; "__eq__";
   "__format__"; "__ge__"; "__getattr__"; "__getattribute__"; "__getstate__";
   "__gt__"; "__hash__"; "__init__"; "__init_subclass__"; "__le__"; "__lt__";
   "__module__"; "__ne__"; "__new__"; "__reduce__"; "__reduce_ex__";
   "__repr__"; "__setattr__"; "__sizeof__"; "__str__"; "__subclasshook__";
   "__weakref__"].

Definition cpython_member (name : string) : option (string -> PyExn) :=
  if existsb (String.eqb name) cpython_members then
    Some (fun method =>
            if String.eqb name "__module__" && String.eqb method "find"
            then TypeError else AttributeError)
  else None.

Definition example_host : Host := {|
  int_of_str := decimal_of_str;
  ObjectId_of_str := hex24_of_str;
  object_member := cpython_member
|}.

(** A list-backed stand-in for a networked collection driver: it keeps the
    [_id] of a document that has one and gives an identifier to one that has
    none, selects on [_id] by equality and supports [$set].  It instantiates
    the statements made about an arbitrary networked backing. *)
Module ListDriver.

Definition Server := alist (list Dict).

Definition docs (name : string) (st : Server) : list Dict :=
  match alist_get name st with
  | Some l => l
  | None => []
  end.

Definition id_eqb (a b : Value) : bool :=
  match a, b with
  | VStr x, VStr y => String.eqb x y
  | VOid (Oid x), VOid (Oid y) => String.eqb x y
  | VInt x, VInt y => Z.eqb x y
  | _, _ => false
  end.

Definition selects (f doc : Dict) : bool :=
  match alist_get "_id" f with
  | Some v =>
      match alist_get "_id" doc with
      | Some w => id_eqb v w
      | None => false
      end
  | None => true
  end.

Fixpoint change_first (f : Dict) (g : Dict -> option Dict) (l : list Dict)
    : option (list Dict) :=
  match l with
  | [] => None
  | d :: rest =>
      if selects f d then
        Some (match g d with Some d' => d' :: rest | None => rest end)
      else option_map (cons d) (change_first f g rest)
  end.

Definition drv_insert_one (name : string) (doc : Dict) (oid : string)
    : Exec Server Value :=
  fun st =>
    let doc' := alist_setdefault "_id" (VOid (Oid oid)) doc in
    (alist_set name (docs name st ++ [doc']) st,
     Ok (match alist_get "_id" doc' with Some v => v | None => VNone end)).

Definition drv_find (name : string) (f : Dict) : Exec Server (list Dict) :=
  fun st => (st, Ok (filter (selects f) (docs name st))).

Definition drv_update_one (name : string) (f update : Dict)
    : Exec Server UpdateResult :=
  fun st =>
    let ops := match alist_get "$set" update with
               | Some (VDict o) => o
               | _ => []
               end in
    match change_first f (fun d => Some (apply_set ops d)) (docs name st) with
    | Some l => (alist_set name l st, Ok updated)
    | None => (st, Ok not_matched)
    end.

Definition drv_delete_one (name : string) (f : Dict) : Exec Server DeleteResult :=
  fun st =>
    match change_first f (fun _ => None) (docs name st) with
    | Some l => (alist_set name l st, Ok {| deleted_count := 1 |})
    | None => (st, Ok {| deleted_count := 0 |})
    end.

Definition backing : Backing := {|
  USE_MEMORY := false;
  db_state := Server;
  db_insert_one := drv_insert_one;
  db_find := drv_find;
  db_update_one := drv_update_one;
  db_delete_one := drv_delete_one
|}.

End ListDriver.

(** ** The service layer (main.py)

    The handlers are modelled as the functions they are, before the web
    framework validates and filters what they return.  Each clock reading and
    each random token a handler consumes is an argument. *)

(** What a handler does: it returns, raises [HTTPException], or lets another
    exception escape ([docs[0]] on an empty list raises [IndexError]). *)
Inductive Outcome (A : Type) :=
| Returned (a : A)
| HTTPException (status_code : Z) (detail : string)
| Uncaught (e : PyExn)
| UncaughtIndexError.
Arguments Returned {A} a.
Arguments HTTPException {A} status_code detail.
Arguments Uncaught {A} e.
Arguments UncaughtIndexError {A}.

Definition Handler (S A : Type) : Type := S -> S * Outcome A.

(** A call of a store helper inside a handler: its exception escapes. *)
Definition call {S A B} (m : Exec S A) (k : A -> Handler S B) : Handler S B :=
  fun s =>
    let (s', r) := m s in
    match r with
    | Ok a => k a s'
    | Raise e => (s', Uncaught e)
    end.

Definition reply {S A} (o : Outcome A) : Handler S A := fun s => (s, o).

(** The request body of [POST /ideas], already validated. *)
Record IdeaCreate := {
  ic_title : string;
  ic_description : string;
  ic_maker : string;
  ic_website : option string;
  ic_tags : list string;
  ic_thumbnail : option string
}.

Definition optional_str (o : option string) : Value :=
  match o with
  | Some s => VStr s
  | None => VNone
  end.

(** [payload.model_dump()] *)
Definition idea_model_dump (payload : IdeaCreate) : Dict :=
  [("title", VStr (ic_title payload));
   ("description", VStr (ic_description payload));
   ("maker", VStr (ic_maker payload));
   ("website", optional_str (ic_website payload));
   ("tags", VList (map VStr (ic_tags payload)));
   ("thumbnail", optional_str (ic_thumbnail payload))].

(** [Comment(author=..., text=..., created_at=...).model_dump()] *)
Definition comment_model_dump (author text : string) (created_at : Z) : Dict :=
  [("author", VStr author); ("text", VStr text);
   ("created_at", VDateTime created_at)].

(** The samples of [seed_data], with the clock readings of their literals. *)
Record SeedReadings := {
  at_noah : Z;
  at_liam : Z;
  at_focusfox : Z;
  at_olivia : Z;
  at_snackscan : Z;
  at_inkling : Z
}.

Definition samples (r : SeedReadings) : list Dict :=
  [ [("title", VStr "FocusFox");
     ("description",
      VStr "A playful Pomodoro timer with streaks and a friendly fox mascot.");
     ("maker", VStr "Ava K.");
     ("website", VStr "https://example.com/focusfox");
     ("tags", VList [VStr "productivity"; VStr "timer"]);
     ("thumbnail", VStr "https://picsum.photos/seed/focusfox/200/200");
     ("upvotes", VInt 21);
     ("comments",
      VList [VDict [("author", VStr "Noah");
                    ("text", VStr "This UI makes me want to work!");
                    ("created_at", VDateTime (at_noah r))];
             VDict [("author", VStr "Liam");
                    ("text", VStr "Add shortcuts please");
                    ("created_at", VDateTime (at_liam r))]]);
     ("created_at", VDateTime (at_focusfox r))];
    [("title", VStr "SnackScan");
     ("description",
      VStr "Snap a snack, get nutrition and allergy warnings instantly.");
     ("maker", VStr "Maya P.");
     ("website", VStr "https://example.com/snackscan");
     ("tags", VList [VStr "health"; VStr "ai"; VStr "mobile"]);
     ("thumbnail", VStr "https://picsum.photos/seed/snackscan/200/200");
     ("upvotes", VInt 54);
     ("comments",
      VList [VDict [("author", VStr "Olivia");
                    ("text", VStr "Great for school lunches!");
                    ("created_at", VDateTime (at_olivia r))]]);
     ("created_at", VDateTime (at_snackscan r))];
    [("title", VStr "Inkling");
     ("description", VStr "Daily writing prompts that grow with your style.");
     ("maker", VStr "Ravi S.");
     ("website", VStr "https://example.com/inkling");
     ("tags", VList [VStr "writing"; VStr "creative"]);
     ("thumbnail", VStr "https://picsum.photos/seed/inkling/200/200");
     ("upvotes", VInt 12);
     ("comments", VList []);
     ("created_at", VDateTime (at_inkling r))] ].

Section Service.
Context {host : Host}.
Variable B : Backing.

(** [GET /test] *)
Definition test_db : Handler (db_state B) Dict :=
  call (get_documents B "idea" [] 1000000) (fun docs =>
  reply (Returned [("ok", VBool true);
                   ("collections", VList [VStr "idea"]);
                   ("count", VInt (Z.of_nat (List.length docs)))])).

(** [GET /ideas] *)
Definition list_ideas (limit : Z) : Handler (db_state B) (list Dict) :=
  call (get_documents B "idea" [] limit) (fun docs => reply (Returned docs)).

(** [POST /ideas]; [now] is the handler's clock reading, [now'] and [oid]
    are those of [create_document]. *)
Definition create_idea (payload : IdeaCreate) (now now' : Z) (oid : string)
    : Handler (db_state B) Dict :=
  let data :=
    apply_set [("upvotes", VInt 0); ("comments", VList []);
               ("created_at", VDateTime now)]
      (idea_model_dump payload) in
  call (create_document B "idea" data now' oid) (fun inserted_id =>
  call (get_documents B "idea" [("_id", inserted_id)] 1) (fun doc =>
  match doc with
  | [] => reply (HTTPException 500 "Failed to create idea")
  | first :: _ => reply (Returned first)
  end)).

(** [POST /ideas/{idea_id}/upvote] *)
Definition upvote_idea (idea_id : string) (now : Z) : Handler (db_state B) Dict :=
  call (get_documents B "idea" [("_id", VStr idea_id)] 1) (fun docs =>
  match docs with
  | [] => reply (HTTPException 404 "Idea not found")
  | item :: _ =>
      call (lift (py_int (get_or_zero "upvotes" item))) (fun votes =>
      call (update_document B "idea" [("_id", VStr idea_id)]
              [("upvotes", VInt (votes + 1))] now) (fun _ =>
      call (get_documents B "idea" [("_id", VStr idea_id)] 1) (fun again =>
      match again with
      | [] => reply UncaughtIndexError
      | updated_doc :: _ => reply (Returned updated_doc)
      end)))
  end).

(** [POST /ideas/{idea_id}/comments]; [now] is the clock reading taken for
    the comment, [now'] the one of [update_document]. *)
Definition add_comment (idea_id author text : string) (now now' : Z)
    : Handler (db_state B) Dict :=
  call (get_documents B "idea" [("_id", VStr idea_id)] 1) (fun docs =>
  match docs with
  | [] => reply (HTTPException 404 "Idea not found")
  | item :: _ =>
      let comment := comment_model_dump author text now in
      let held := match alist_get "comments" item with
                  | Some x => x
                  | None => VList []
                  end in
      call (lift (py_iter held)) (fun comments =>
      call (update_document B "idea" [("_id", VStr idea_id)]
              [("comments", VList (comments ++ [VDict comment]))] now') (fun _ =>
      call (get_documents B "idea" [("_id", VStr idea_id)] 1) (fun again =>
      match again with
      | [] => reply UncaughtIndexError
      | updated_doc :: _ => reply (Returned updated_doc)
      end)))
  end).

(** [for s in samples: create_document("idea", s)], with the clock reading
    and the token of each call. *)
Fixpoint create_all (docs : list Dict) (calls : list (Z * string))
    : Exec (db_state B) unit :=
  match docs, calls with
  | s :: docs', (now, oid) :: calls' =>
      (_ <- create_document B "idea" s now oid ;; create_all docs' calls')%exec
  | _, _ => ret tt
  end.

(** [POST /seed]; [c1], [c2] and [c3] are the clock readings and tokens of
    the three calls of [create_document]. *)
Definition seed_data (r : SeedReadings) (c1 c2 c3 : Z * string)
    : Handler (db_state B) Dict :=
  call (get_documents B "idea" [] 1) (fun docs =>
  match docs with
  | _ :: _ =>
      reply (Returned [("status", VStr "skipped");
                       ("reason", VStr "data already exists")])
  | [] =>
      call (create_all (samples r) [c1; c2; c3]) (fun _ =>
      reply (Returned [("status", VStr "seeded");
                       ("count", VInt (Z.of_nat (List.length (samples r))))]))
  end).

End Service.

(** ** Notions used to state the further properties *)

(** Every document of a collection carries, as its [_id], the identifier it
    is stored under. *)
Definition keyed_by_id (items : Items) : Prop :=
  forall id doc, alist_get id items = Some doc ->
                 alist_get "_id" doc = Some (VStr id).

(** What [seed_data] answers when the collection already holds a document. *)
Definition skipped : Dict :=
  [("status", VStr "skipped"); ("reason", VStr "data already exists")].

(** Two states of the in-memory database hold the same documents. *)
Definition same_documents {host : Host} (db db' : MemoryDB) : Prop :=
  forall n, collection n db' = collection n db.

(** * Properties *)

(** ** Dictionaries *)

Section AlistFacts.
Context {A : Type}.
Implicit Types (d : alist A) (k : string) (v : A).

Lemma alist_get_app k d d' :
  alist_get k (d ++ d') =
  match alist_get k d' with
  | Some x => Some x
  | None => alist_get k d
  end.
Proof.
  induction d as [|[k0 v0] d IH]; simpl.
  - destruct (alist_get k d'); reflexivity.
  - rewrite IH. destruct (alist_get k d'); reflexivity.
Qed.

Lemma alist_get_replace_same k v d :
  alist_get k (alist_replace k v d) =
  if alist_mem k d then Some v else None.
Proof.
  unfold alist_mem.
  induction d as [|[k0 v0] d IH]; simpl; [reflexivity|].
  rewrite IH.
  destruct (alist_get k d); [reflexivity|].
  destruct (String.eqb k k0); reflexivity.
Qed.

Lemma alist_get_replace_other k k' v d :
  k <> k' -> alist_get k' (alist_replace k v d) = alist_get k' d.
Proof.
  intros Hne.
  induction d as [|[k0 v0] d IH]; simpl; [reflexivity|].
  rewrite IH.
  destruct (alist_get k' d); [reflexivity|].
  destruct (String.eqb_spec k' k0); [|reflexivity].
  destruct (String.eqb_spec k k0); [congruence|reflexivity].
Qed.

Lemma alist_get_set_same k v d : alist_get k (alist_set k v d) = Some v.
Proof.
  unfold alist_set.
  destruct (alist_mem k d) eqn:E.
  - rewrite alist_get_replace_same, E. reflexivity.
  - rewrite alist_get_app. simpl. rewrite String.eqb_refl. reflexivity.
Qed.

Lemma alist_get_set_other k k' v d :
  k <> k' -> alist_get k' (alist_set k v d) = alist_get k' d.
Proof.
  intros Hne. unfold alist_set.
  destruct (alist_mem k d).
  - apply alist_get_replace_other, Hne.
  - rewrite alist_get_app. simpl.
    destruct (String.eqb_spec k' k); [congruence|reflexivity].
Qed.

Lemma alist_get_set k k' v d :
  alist_get k' (alist_set k v d) =
  if String.eqb k k' then Some v else alist_get k' d.
Proof.
  destruct (String.eqb_spec k k') as [->|Hne].
  - apply alist_get_set_same.
  - apply alist_get_set_other, Hne.
Qed.

Lemma alist_get_setdefault_bound k k' v d x :
  alist_get k' d = Some x -> alist_get k' (alist_setdefault k v d) = Some x.
Proof.
  intros H. unfold alist_setdefault, alist_mem.
  destruct (alist_get k d) eqn:E; [exact H|].
  rewrite alist_get_app. simpl.
  destruct (String.eqb_spec k' k); [congruence|exact H].
Qed.

Lemma alist_get_setdefault_same k v d :
  alist_get k (alist_setdefault k v d) =
  match alist_get k d with
  | Some x => Some x
  | None => Some v
  end.
Proof.
  unfold alist_setdefault, alist_mem.
  destruct (alist_get k d) eqn:E; [exact E|].
  rewrite alist_get_app. simpl. rewrite String.eqb_refl. reflexivity.
Qed.

Lemma alist_get_setdefault_other k k' v d :
  k <> k' -> alist_get k' (alist_setdefault k v d) = alist_get k' d.
Proof.
  intros Hne. unfold alist_setdefault.
  destruct (alist_mem k d); [reflexivity|].
  rewrite alist_get_app. simpl.
  destruct (String.eqb_spec k' k); [congruence|].
  destruct (alist_get k' d); reflexivity.
Qed.

Lemma alist_get_remove_same k d : alist_get k (alist_remove k d) = None.
Proof.
  unfold alist_remove.
  induction d as [|[k0 v0] d IH]; simpl; [reflexivity|].
  destruct (String.eqb_spec k k0); simpl; [exact IH|].
  rewrite IH.
  destruct (String.eqb_spec k k0); [congruence|reflexivity].
Qed.

Lemma alist_get_remove_other k k' d :
  k <> k' -> alist_get k' (alist_remove k d) = alist_get k' d.
Proof.
  intros Hne. unfold alist_remove.
  induction d as [|[k0 v0] d IH]; simpl; [reflexivity|].
  destruct (String.eqb_spec k k0); simpl; rewrite IH.
  - subst k0. destruct (alist_get k' d); [reflexivity|].
    destruct (String.eqb_spec k' k); [congruence|reflexivity].
  - reflexivity.
Qed.

Lemma alist_get_none_not_in k d :
  alist_get k d = None -> ~ In k (alist_keys d).
Proof.
  induction d as [|[k0 v0] d IH]; simpl; [tauto|].
  destruct (alist_get k d); [discriminate|].
  destruct (String.eqb_spec k k0); [discriminate|].
  intros _ [H|H]; [congruence|]. apply IH; [reflexivity|exact H].
Qed.

Lemma alist_get_not_in k d :
  ~ In k (alist_keys d) -> alist_get k d = None.
Proof.
  induction d as [|[k0 v0] d IH]; simpl; [reflexivity|].
  intros H. rewrite IH by tauto.
  destruct (String.eqb_spec k k0); [subst; tauto|reflexivity].
Qed.
End AlistFacts.

Lemma alist_get_map_values {A B} (g : A -> B) k (d : alist A) :
  alist_get k (map (fun kv : string * A => let (k0, x) := kv in (k0, g x)) d) =
  option_map g (alist_get k d).
Proof.
  induction d as [|[k0 v0] d IH]; simpl; [reflexivity|].
  rewrite IH.
  destruct (alist_get k d); simpl; [reflexivity|].
  destruct (String.eqb k k0); reflexivity.
Qed.

Lemma alist_keys_map_values {A B} (g : A -> B) (d : alist A) :
  alist_keys (map (fun kv : string * A => let (k0, x) := kv in (k0, g x)) d) =
  alist_keys d.
Proof.
  unfold alist_keys. rewrite map_map.
  apply map_ext. intros [k0 x]. reflexivity.
Qed.

(** ** The in-memory collection: [find] *)

Lemma items_lookup_hashable v items :
  hashable v = true ->
  items_lookup v items =
  Ok match v with
     | VStr s => option_map (fun d => (s, d)) (alist_get s items)
     | _ => None
     end.
Proof.
  intros H. unfold items_lookup. rewrite H. destruct v; reflexivity.
Qed.

Lemma items_lookup_unhashable v items :
  hashable v = false -> items_lookup v items = Raise TypeError.
Proof.
  intros H. unfold items_lookup. rewrite H. reflexivity.
Qed.

Lemma find_in_hashable items ids :
  forallb hashable ids = true ->
  find_in items ids = Ok (docs_in_order items ids).
Proof.
  induction ids as [|i ids IH]; simpl; intros H; [reflexivity|].
  apply andb_prop in H. destruct H as [Hi Hids].
  rewrite (items_lookup_hashable _ _ Hi), (IH Hids). simpl.
  destruct i; try reflexivity.
  destruct (alist_get s items); reflexivity.
Qed.

Lemma find_by_id items f v :
  alist_get "_id" f = Some v -> hashable v = true ->
  find items f =
  Ok match v with
     | VStr s => match alist_get s items with
                 | Some d => [d]
                 | None => []
                 end
     | _ => []
     end.
Proof.
  intros Hid Hh. unfold find.
  destruct f as [|kv f]; [discriminate|].
  rewrite Hid.
  destruct v; try discriminate; rewrite items_lookup_hashable by exact Hh;
    try reflexivity.
  simpl. destruct (alist_get s items); reflexivity.
Qed.

(** C2, as amended: the filter shapes of [find].  The empty filter selects
    every document; a filter whose [_id] is a hashable value selects the
    document stored under it, or nothing; a filter whose [_id] is a dict with
    an [$in] list of hashable values selects the stored documents in the
    order of the list; a non-empty filter without [_id] selects every
    document. *)
Theorem find_filter_semantics (items : Items) :
  find items [] = Ok (alist_values items)
  /\ (forall f v,
        alist_get "_id" f = Some v -> hashable v = true ->
        find items f =
        Ok match v with
           | VStr s => match alist_get s items with
                       | Some d => [d]
                       | None => []
                       end
           | _ => []
           end)
  /\ (forall f sub ids,
        alist_get "_id" f = Some (VDict sub) ->
        alist_get "$in" sub = Some (VList ids) ->
        forallb hashable ids = true ->
        find items f = Ok (docs_in_order items ids))
  /\ (forall f,
        f <> [] -> alist_get "_id" f = None ->
        find items f = Ok (alist_values items)).
Proof.
  split; [reflexivity|].
  split; [intros f v; apply find_by_id|].
  split.
  - intros f sub ids Hid Hin Hh. unfold find.
    destruct f as [|kv f]; [discriminate|].
    rewrite Hid, Hin. simpl. apply find_in_hashable, Hh.
  - intros f Hne Hid. unfold find.
    destruct f as [|kv f]; [congruence|].
    rewrite Hid. reflexivity.
Qed.

Lemma find_filter_semantics_witness :
  let a := [("_id", VStr "a"); ("title", VStr "X")] in
  let b := [("_id", VStr "b"); ("title", VStr "Y")] in
  let items := [("a", a); ("b", b)] in
  find items [("_id", VStr "b")] = Ok [b]
  /\ find items [("_id", VStr "c")] = Ok []
  /\ find items [("_id", VDict [("$in", VList [VStr "b"; VStr "c"; VStr "a"])])]
     = Ok [b; a]
  /\ find items [("title", VStr "X")] = Ok [a; b].
Proof.
  intros a b items.
  destruct (find_filter_semantics items) as (_ & Hid & Hin & Hall).
  split; [exact (Hid [("_id", VStr "b")] (VStr "b") eq_refl eq_refl)|].
  split; [exact (Hid [("_id", VStr "c")] (VStr "c") eq_refl eq_refl)|].
  split.
  - exact (Hin [("_id", VDict [("$in", VList [VStr "b"; VStr "c"; VStr "a"])])]
             [("$in", VList [VStr "b"; VStr "c"; VStr "a"])]
             [VStr "b"; VStr "c"; VStr "a"] eq_refl eq_refl eq_refl).
  - apply Hall; [discriminate|reflexivity].
Defined.

(** C2, as stated, fails: a filter whose [_id] is a dict without [$in]
    selects neither every document nor none, [find] raises; and a filter
    whose [_id] is a number selects nothing rather than every document. *)
Lemma find_other_id_shapes :
  let items : Items := [("a", [("_id", VStr "a")])] in
  find items [("_id", VDict [("$gt", VInt 1)])] = Raise TypeError
  /\ find items [("_id", VDict [("$gt", VInt 1)])] <> Ok (alist_values items)
  /\ find items [("_id", VDict [("$gt", VInt 1)])] <> Ok []
  /\ find items [("_id", VInt 5)] = Ok []
  /\ find items [("_id", VInt 5)] <> Ok (alist_values items).
Proof.
  cbv zeta. repeat split; try reflexivity; discriminate.
Qed.

(** ** The in-memory collection: [update_one] *)

Section UpdateOne.
Context {host : Host}.

Lemma apply_set_get ops doc k :
  alist_get k (apply_set ops doc) = set_field ops k (alist_get k doc).
Proof.
  revert doc.
  induction ops as [|[k0 v0] ops IH]; intros doc; simpl; [reflexivity|].
  rewrite IH. unfold set_field. simpl.
  destruct (alist_get k ops); [reflexivity|].
  rewrite alist_get_set, String.eqb_sym.
  destruct (String.eqb k k0); reflexivity.
Qed.

Lemma int_convertible_ok v :
  int_convertible v = true -> py_int v = Ok (int_or_zero v).
Proof.
  unfold int_convertible, int_or_zero.
  destruct (py_int v); [reflexivity|discriminate].
Qed.

Lemma apply_inc_get ops doc :
  dict_wf ops -> inc_applicable ops doc = true ->
  exists doc',
    apply_inc ops doc = (doc', Ok tt)
    /\ forall k, alist_get k doc' = inc_field ops k (alist_get k doc).
Proof.
  revert doc.
  induction ops as [|[k0 v0] ops IH]; intros doc Hwf Hok.
  - exists doc. split; reflexivity.
  - inversion Hwf as [|? ? Hnotin Hwf']; subst.
    simpl in Hok. apply andb_prop in Hok. destruct Hok as [Hhd Hok].
    apply andb_prop in Hhd. destruct Hhd as [Hold Hv].
    apply int_convertible_ok in Hold. apply int_convertible_ok in Hv.
    set (doc1 := alist_set k0
                   (VInt (int_or_zero (get_or_zero k0 doc) + int_or_zero v0)) doc).
    assert (Hok1 : inc_applicable ops doc1 = true).
    { unfold inc_applicable in *. rewrite forallb_forall in *.
      intros [k v] Hin. specialize (Hok _ Hin). simpl in Hok.
      assert (Hne : k0 <> k).
      { intros ->. apply Hnotin. unfold alist_keys.
        change k with (fst (k, v)). apply in_map, Hin. }
      unfold get_or_zero in *. subst doc1.
      rewrite alist_get_set_other by exact Hne. exact Hok. }
    destruct (IH doc1 Hwf' Hok1) as (doc' & Hrun & Hget).
    exists doc'. split.
    + simpl. rewrite Hold, Hv. exact Hrun.
    + intros k. rewrite Hget. subst doc1. unfold inc_field. simpl.
      rewrite alist_get_set.
      destruct (String.eqb_spec k0 k) as [<-|Hne].
      * rewrite (alist_get_not_in _ _ Hnotin), String.eqb_refl.
        unfold get_or_zero.
        destruct (alist_get k0 doc); reflexivity.
      * destruct (alist_get k ops); [reflexivity|].
        destruct (String.eqb_spec k k0); [congruence|reflexivity].
Qed.

Lemma update_one_hit f update items id doc :
  filter_id f = VStr id -> alist_get id items = Some doc ->
  update_one f update items =
  (alist_set id (fst (apply_update update doc)) items,
   res_map (fun _ => updated) (snd (apply_update update doc))).
Proof.
  intros Hf Hdoc. unfold update_one.
  rewrite Hf, items_lookup_hashable by reflexivity.
  rewrite Hdoc. simpl.
  destruct (apply_update update doc). reflexivity.
Qed.

Lemma update_one_miss f update items :
  hashable (filter_id f) = true ->
  (forall s, filter_id f = VStr s -> alist_get s items = None) ->
  update_one f update items = (items, Ok not_matched).
Proof.
  intros Hh Hmiss. unfold update_one.
  rewrite items_lookup_hashable by exact Hh.
  destruct (filter_id f); try reflexivity.
  rewrite (Hmiss s eq_refl). reflexivity.
Qed.

Lemma update_one_ok_counts f update items items' r :
  update_one f update items = (items', Ok r) ->
  r = not_matched \/ r = updated.
Proof.
  unfold update_one.
  destruct (items_lookup (filter_id f) items) as [[[tid doc]|]|e].
  - destruct (apply_update update doc) as [doc' [[]|e]]; simpl;
      intros H; inversion H; auto.
  - intros H; inversion H; auto.
  - intros H; inversion H.
Qed.

(** C9: the in-memory [update_one] never reports a document as matched
    without reporting it as modified.  Whatever it returns has equal counts;
    when the filter's [_id] is stored the result it returns is one matched,
    one modified; and it does return that result for a payload without any of
    the three operators, which leaves the document as it was, and for a
    [$set] payload, also one that assigns to every field the value it
    already has. *)
Theorem update_one_matched_is_modified (f update : Dict) (items : Items) :
  (forall items' r,
      update_one f update items = (items', Ok r) ->
      modified_count r = matched_count r)
  /\ (forall id doc,
        filter_id f = VStr id -> alist_get id items = Some doc ->
        (forall items' r,
            update_one f update items = (items', Ok r) -> r = updated)
        /\ (alist_get "$inc" update = None ->
            alist_get "$push" update = None ->
            alist_get "$set" update = None ->
            update_one f update items = (alist_set id doc items, Ok updated))
        /\ (forall ops,
              update = [("$set", VDict ops)] ->
              exists doc',
                update_one f update items = (alist_set id doc' items, Ok updated)
                /\ ((forall k v, alist_get k ops = Some v ->
                                 alist_get k doc = Some v) ->
                    forall k, alist_get k doc' = alist_get k doc))).
Proof.
  split.
  - intros items' r H.
    destruct (update_one_ok_counts _ _ _ _ _ H); subst r; reflexivity.
  - intros id doc Hf Hdoc.
    pose proof (update_one_hit f update items id doc Hf Hdoc) as Hhit.
    split; [|split].
    + intros items' r H. rewrite Hhit in H.
      destruct (snd (apply_update update doc)); simpl in H; inversion H.
      reflexivity.
    + intros Hi Hp Hs. rewrite Hhit.
      unfold apply_update, bind, run_operator. rewrite Hi, Hp, Hs. reflexivity.
    + intros ops ->. exists (apply_set ops doc). split.
      * rewrite Hhit. reflexivity.
      * intros Hsame k. rewrite apply_set_get. unfold set_field.
        destruct (alist_get k ops) as [v|] eqn:E; [|reflexivity].
        symmetry. apply Hsame, E.
Qed.

End UpdateOne.

(** ** [update_one] over list objects *)

Section SharedUpdateOne.
Context {host : Host}.
Import Shared.

Lemma alist_get_In {A} k (d : alist A) x : alist_get k d = Some x -> In (k, x) d.
Proof.
  induction d as [|[k0 v0] d IH]; simpl; [discriminate|].
  destruct (alist_get k d) as [y|].
  - intros H. right. apply IH. exact H.
  - destruct (String.eqb_spec k k0) as [->|]; [|discriminate].
    intros H. inversion H. left. reflexivity.
Qed.

Lemma allocated_get doc h k a :
  allocated doc h = true -> alist_get k doc = Some (OList a) ->
  (a < List.length h)%nat.
Proof.
  intros Hall Hget. unfold allocated in Hall. rewrite forallb_forall in Hall.
  specialize (Hall _ (alist_get_In _ _ _ Hget)). simpl in Hall.
  apply Nat.ltb_lt, Hall.
Qed.

Lemma shared_apply_set_get ops doc k :
  alist_get k (apply_set ops doc) = set_field ops k (alist_get k doc).
Proof.
  revert doc.
  induction ops as [|[k0 v0] ops IH]; intros doc; simpl; [reflexivity|].
  rewrite IH. unfold set_field. simpl.
  destruct (alist_get k ops); [reflexivity|].
  rewrite alist_get_set, String.eqb_sym.
  destruct (String.eqb k k0); reflexivity.
Qed.

Lemma shared_int_convertible_ok v :
  int_convertible v = true -> py_int v = Ok (int_or_zero v).
Proof.
  unfold int_convertible, int_or_zero.
  destruct (py_int v); [reflexivity|discriminate].
Qed.

Lemma shared_apply_inc_get ops doc :
  dict_wf ops -> inc_applicable ops doc = true ->
  exists doc',
    apply_inc ops doc = (doc', Ok tt)
    /\ forall k, alist_get k doc' = inc_field ops k (alist_get k doc).
Proof.
  revert doc.
  induction ops as [|[k0 v0] ops IH]; intros doc Hwf Hok.
  - exists doc. split; reflexivity.
  - inversion Hwf as [|? ? Hnotin Hwf']; subst.
    simpl in Hok. apply andb_prop in Hok. destruct Hok as [Hhd Hok].
    apply andb_prop in Hhd. destruct Hhd as [Hold Hv].
    apply shared_int_convertible_ok in Hold.
    apply shared_int_convertible_ok in Hv.
    set (doc1 := alist_set k0
                   (OInt (int_or_zero (get_or_zero k0 doc) + int_or_zero v0)) doc).
    assert (Hok1 : inc_applicable ops doc1 = true).
    { unfold inc_applicable in *. rewrite forallb_forall in *.
      intros [k v] Hin. specialize (Hok _ Hin). simpl in Hok.
      assert (Hne : k0 <> k).
      { intros ->. apply Hnotin. unfold alist_keys.
        change k with (fst (k, v)). apply in_map, Hin. }
      unfold get_or_zero in *. subst doc1.
      rewrite alist_get_set_other by exact Hne. exact Hok. }
    destruct (IH doc1 Hwf' Hok1) as (doc' & Hrun & Hget).
    exists doc'. split.
    + simpl. rewrite Hold, Hv. exact Hrun.
    + intros k. rewrite Hget. subst doc1. unfold inc_field. simpl.
      rewrite alist_get_set.
      destruct (String.eqb_spec k0 k) as [<-|Hne].
      * rewrite (alist_get_not_in _ _ Hnotin), String.eqb_refl.
        unfold get_or_zero.
        destruct (alist_get k0 doc); reflexivity.
      * destruct (alist_get k ops); [reflexivity|].
        destruct (String.eqb_spec k k0); [congruence|reflexivity].
Qed.

Lemma nth_error_append a v h b :
  nth_error (append a v h) b =
  if Nat.eqb a b then option_map (fun l => l ++ [v]) (nth_error h b)
  else nth_error h b.
Proof.
  revert a b.
  induction h as [|l h IH]; intros a b; simpl.
  - destruct b; destruct (Nat.eqb a _); reflexivity.
  - destruct a as [|a], b as [|b]; simpl; try reflexivity. apply IH.
Qed.

Lemma length_append a v h : List.length (append a v h) = List.length h.
Proof.
  revert a. induction h as [|l h IH]; intros a; simpl; [reflexivity|].
  destruct a; simpl; [reflexivity|]. f_equal. apply IH.
Qed.

Lemma pushed_ext ops f g a :
  (forall k, In k (alist_keys ops) -> f k = g k) ->
  pushed ops f a = pushed ops g a.
Proof.
  induction ops as [|[k v] ops IH]; intros H; simpl; [reflexivity|].
  rewrite (H k (or_introl eq_refl)). f_equal.
  apply IH. intros k' Hk'. apply H. right. exact Hk'.
Qed.

Lemma created_ext ops f g :
  (forall k, In k (alist_keys ops) -> f k = g k) ->
  created ops f = created ops g.
Proof.
  induction ops as [|[k v] ops IH]; intros H; simpl; [reflexivity|].
  rewrite (H k (or_introl eq_refl)).
  rewrite IH; [reflexivity|].
  intros k' Hk'. apply H. right. exact Hk'.
Qed.

Lemma pushed_unheld ops field a :
  (forall k b, field k = Some (OList b) -> b <> a) ->
  pushed ops field a = [].
Proof.
  intros H. induction ops as [|[k v] ops IH]; simpl; [reflexivity|].
  rewrite IH, app_nil_r.
  destruct (field k) as [[| | | | | |b|]|] eqn:E; try reflexivity.
  destruct (Nat.eqb_spec a b) as [->|]; [|reflexivity].
  exfalso. exact (H k b E eq_refl).
Qed.

Lemma apply_push_spec (ops : ODoc) :
  forall (h : Heap) (d : ODoc),
    dict_wf ops ->
    (forall k a, alist_get k d = Some (OList a) -> (a < List.length h)%nat) ->
    List.length (fst (apply_push ops (h, d)))
    = (List.length h + List.length (created ops (fun k => alist_get k d)))%nat
    /\ (forall a l,
          nth_error h a = Some l ->
          nth_error (fst (apply_push ops (h, d))) a
          = Some (l ++ pushed ops (fun k => alist_get k d) a))
    /\ (forall k,
          match alist_get k ops, alist_get k d with
          | Some v, None =>
              exists a,
                (List.length h <= a)%nat
                /\ nth_error (fst (apply_push ops (h, d))) a = Some [v]
                /\ alist_get k (snd (apply_push ops (h, d))) = Some (OList a)
          | _, x => alist_get k (snd (apply_push ops (h, d))) = x
          end).
Proof.
  induction ops as [|[k0 v0] ops IH]; intros h d Hwf Halloc.
  - simpl. split; [lia|]. split.
    + intros a l H. rewrite app_nil_r. exact H.
    + intros k. reflexivity.
  - inversion Hwf as [|? ? Hnotin Hwf']; subst.
    assert (Hrest : alist_get k0 ops = None) by apply (alist_get_not_in _ _ Hnotin).
    assert (Hother : forall k, k <> k0 ->
              alist_get k ((k0, v0) :: ops) = alist_get k ops).
    { intros k Hk. simpl. destruct (alist_get k ops); [reflexivity|].
      destruct (String.eqb_spec k k0); [congruence|reflexivity]. }
    assert (Hhead : alist_get k0 ((k0, v0) :: ops) = Some v0).
    { simpl. rewrite Hrest, String.eqb_refl. reflexivity. }
    cbn [apply_push]. unfold setdefault_list. cbn [fst snd].
    destruct (alist_get k0 d) as [x|] eqn:Hk0.
    + (* the field is there *)
      match goal with
      | |- context [apply_push ops ?t] => remember t as st1 eqn:Est1
      end.
      assert (Hstep :
        exists h1 : Heap,
          st1 = (h1, d)
          /\ List.length h1 = List.length h
          /\ forall a l,
               nth_error h a = Some l ->
               nth_error h1 a
               = Some (l ++ match x with
                            | OList b => if Nat.eqb a b then [v0] else []
                            | _ => []
                            end)).
      { subst st1. cbn [fst snd]. destruct x as [| | | | | |b|];
          try (exists h; split; [reflexivity|]; split; [reflexivity|];
               intros a l H; rewrite app_nil_r; exact H).
        exists (append b v0 h). split; [reflexivity|].
        split; [apply length_append|].
        intros a l H. rewrite nth_error_append, Nat.eqb_sym, H.
        destruct (Nat.eqb a b); simpl; [reflexivity|].
        rewrite app_nil_r. reflexivity. }
      clear Est1. destruct Hstep as (h1 & -> & Hlen & Hheap).
      assert (Halloc1 : forall k a, alist_get k d = Some (OList a) ->
                                    (a < List.length h1)%nat).
      { intros k a H. rewrite Hlen. exact (Halloc k a H). }
      destruct (IH h1 d Hwf' Halloc1) as (IHlen & IHheap & IHfields).
      unfold Heap, ODoc, alist in *.
      split; [|split].
      * rewrite IHlen, Hlen. simpl. rewrite Hk0. reflexivity.
      * intros a l H. rewrite (IHheap a _ (Hheap a l H)).
        simpl. rewrite Hk0, <- app_assoc. reflexivity.
      * intros k. destruct (String.eqb_spec k k0) as [->|Hne].
        -- rewrite Hhead, Hk0.
           specialize (IHfields k0). rewrite Hrest, Hk0 in IHfields.
           exact IHfields.
        -- rewrite (Hother k Hne).
           specialize (IHfields k).
           destruct (alist_get k ops) as [v|]; [|exact IHfields].
           destruct (alist_get k d); [exact IHfields|].
           destruct IHfields as (a & Hle & H').
           exists a. split; [lia|exact H'].
    + (* the field is missing: a new list object *)
      set (a0 := List.length h).
      set (d1 := alist_set k0 (OList a0) d).
      assert (Happ : append a0 v0 (h ++ [[]]) = h ++ [[v0]]).
      { subst a0. clear. induction h as [|l h IHh]; simpl; [reflexivity|].
        f_equal. exact IHh. }
      match goal with
      | |- context [apply_push ops ?t] =>
          replace t with ((h ++ [[v0]], d1) : Heap * ODoc)
            by (cbn [fst snd]; fold a0; rewrite Happ; reflexivity)
      end.
      assert (Hsame : forall k, k <> k0 -> alist_get k d1 = alist_get k d).
      { intros k Hk. subst d1. apply alist_get_set_other. congruence. }
      assert (Hkeys : forall k, In k (alist_keys ops) ->
                                alist_get k d1 = alist_get k d).
      { intros k Hk. apply Hsame. intros ->. exact (Hnotin Hk). }
      assert (Halloc1 : forall k a, alist_get k d1 = Some (OList a) ->
                                    (a < List.length (h ++ [[v0]]))%nat).
      { intros k a. rewrite length_app. simpl.
        destruct (String.eqb_spec k k0) as [->|Hne].
        - subst d1. rewrite alist_get_set_same. intros H. inversion H.
          subst a0. lia.
        - rewrite (Hsame k Hne). intros H. specialize (Halloc k a H). lia. }
      destruct (IH (h ++ [[v0]]) d1 Hwf' Halloc1) as (IHlen & IHheap & IHfields).
      unfold Heap, ODoc, alist in *.
      assert (Hp : forall a, pushed ops (fun k => alist_get k d1) a
                             = pushed ops (fun k => alist_get k d) a).
      { intros a. apply pushed_ext, Hkeys. }
      rewrite (created_ext ops _ (fun k => alist_get k d)) in IHlen
        by exact Hkeys.
      split; [|split].
      * rewrite IHlen, length_app. simpl. rewrite Hk0. simpl. lia.
      * intros a l H. simpl. rewrite Hk0. simpl.
        rewrite <- Hp. apply IHheap. rewrite nth_error_app1; [exact H|].
        apply nth_error_Some. rewrite H. discriminate.
      * intros k. destruct (String.eqb_spec k k0) as [->|Hne].
        -- rewrite Hhead, Hk0. exists a0. split; [subst a0; lia|].
           split.
           ++ rewrite (IHheap a0 [v0]).
              ** rewrite Hp, pushed_unheld; [reflexivity|].
                 intros k b H. specialize (Halloc k b H). subst a0. lia.
              ** subst a0. rewrite nth_error_app2 by lia.
                 rewrite Nat.sub_diag. reflexivity.
           ++ specialize (IHfields k0). rewrite Hrest in IHfields.
              rewrite IHfields. subst d1. apply alist_get_set_same.
        -- rewrite (Hother k Hne). specialize (IHfields k).
           rewrite (Hsame k Hne) in IHfields.
           destruct (alist_get k ops) as [v|]; [|exact IHfields].
           destruct (alist_get k d); [exact IHfields|].
           destruct IHfields as (a & Hle & H').
           exists a. split; [|exact H'].
           rewrite length_app in Hle. simpl in Hle. lia.
Qed.

Lemma shared_run_operator_operand op body update st :
  operand_ok op update ->
  body [] st = (st, Ok tt) ->
  run_operator op body update st = body (operand_or_empty op update) st.
Proof.
  unfold operand_ok, run_operator, operand_or_empty.
  intros [H|[ops H]] Hnil; rewrite H; [symmetry; exact Hnil|reflexivity].
Qed.

Lemma shared_update_one_miss f update c :
  hashable (filter_id f) = true ->
  (forall s, filter_id f = OStr s -> alist_get s (items c) = None) ->
  update_one f update c = (c, Ok not_matched).
Proof.
  intros Hh Hmiss. unfold update_one, items_lookup. rewrite Hh.
  destruct (filter_id f); try reflexivity.
  rewrite (Hmiss s eq_refl). reflexivity.
Qed.

(** C3, as amended: when the filter's [_id] is a stored identifier, and the
    increments apply (each incremented field is missing or converts with
    [int], as does each amount), the document ends as the increment, then
    the append, then the set make it, and no other document is assigned to.
    The increment counts a missing field as zero.  The append leaves alone a
    field that is not a list; for a missing field it makes a new list object
    that holds the value; for a field that holds a list it adds the value to
    that list object, so that every place that holds the same object, in
    this document or another, sees the value: each list object of before
    ends with the values appended through the fields that hold it, and the
    only new list objects are those made for the missing fields.  The set
    replaces.  When the filter's [_id] is hashable and not stored, nothing
    changes and both counts are zero. *)
Theorem update_one_operator_semantics (f update : ODoc) (c : Collection) :
  (forall id doc,
      filter_id f = OStr id -> alist_get id (items c) = Some doc ->
      operand_ok "$inc" update -> operand_ok "$push" update ->
      operand_ok "$set" update ->
      dict_wf (operand_or_empty "$inc" update) ->
      dict_wf (operand_or_empty "$push" update) ->
      inc_applicable (operand_or_empty "$inc" update) doc = true ->
      allocated doc (lists c) = true ->
      let after_inc k :=
        inc_field (operand_or_empty "$inc" update) k (alist_get k doc) in
      let appends := operand_or_empty "$push" update in
      let sets := operand_or_empty "$set" update in
      exists doc' h',
        update_one f update c
        = ({| items := alist_set id doc' (items c); lists := h' |}, Ok updated)
        /\ (forall k,
              match alist_get k appends, after_inc k with
              | Some v, None =>
                  exists a,
                    (List.length (lists c) <= a)%nat
                    /\ nth_error h' a = Some [v]
                    /\ alist_get k doc' = set_field sets k (Some (OList a))
              | _, x => alist_get k doc' = set_field sets k x
              end)
        /\ (forall a l,
              nth_error (lists c) a = Some l ->
              nth_error h' a = Some (l ++ pushed appends after_inc a))
        /\ List.length h'
           = (List.length (lists c)
              + List.length (created appends after_inc))%nat)
  /\ (hashable (filter_id f) = true ->
      (forall s, filter_id f = OStr s -> alist_get s (items c) = None) ->
      update_one f update c = (c, Ok not_matched)).
Proof.
  split; [|apply shared_update_one_miss].
  intros id doc Hf Hdoc Hinc Hpush Hset Hwfi Hwfp Happ Hall after_inc appends sets.
  destruct (shared_apply_inc_get _ _ Hwfi Happ) as (doc1 & Hrun & Hget1).
  assert (Halloc1 : forall k a, alist_get k doc1 = Some (OList a) ->
                                (a < List.length (lists c))%nat).
  { intros k a. rewrite Hget1. unfold inc_field.
    destruct (alist_get k (operand_or_empty "$inc" update)); [discriminate|].
    apply allocated_get, Hall. }
  assert (Hfield : forall k, alist_get k doc1 = after_inc k) by exact Hget1.
  destruct (apply_push_spec appends (lists c) doc1 Hwfp Halloc1)
    as (Hlen & Hheap & Hfields).
  set (st2 := apply_push appends (lists c, doc1)) in *.
  exists (apply_set sets (snd st2)), (fst st2).
  split; [|split; [|split]].
  - unfold update_one, items_lookup. rewrite Hf. cbn [hashable].
    rewrite Hdoc. cbn [option_map].
    unfold apply_update, bind.
    rewrite (shared_run_operator_operand _ _ _ _ Hinc) by reflexivity.
    cbn [fst snd]. rewrite Hrun.
    rewrite (shared_run_operator_operand _ _ _ _ Hpush) by reflexivity.
    fold appends. fold st2.
    rewrite (shared_run_operator_operand _ _ _ _ Hset)
      by (destruct st2; reflexivity).
    reflexivity.
  - intros k. specialize (Hfields k). rewrite (Hfield k) in Hfields.
    destruct (alist_get k appends) as [v|].
    + destruct (after_inc k) as [x|].
      * rewrite shared_apply_set_get, Hfields. reflexivity.
      * destruct Hfields as (a & Hle & Hnew & Hk).
        exists a. split; [exact Hle|]. split; [exact Hnew|].
        rewrite shared_apply_set_get, Hk. reflexivity.
    + rewrite shared_apply_set_get, Hfields. reflexivity.
  - intros a l H. rewrite (Hheap a l H). f_equal. f_equal.
    apply pushed_ext. intros k _. apply Hfield.
  - rewrite Hlen. f_equal. f_equal.
    apply created_ext. intros k _. apply Hfield.
Qed.

End SharedUpdateOne.

Section SharedExamples.
#[local] Existing Instance example_host.
Import Shared.

Lemma update_one_operator_semantics_witness :
  let doc := [("_id", OStr "a"); ("upvotes", OInt 2); ("tags", OList 0)] in
  let other := [("_id", OStr "b"); ("tags", OList 0)] in
  let c := {| items := [("a", doc); ("b", other)]; lists := [[OStr "x"]] |} in
  let update :=
    [("$inc", ODict [("upvotes", OInt 3); ("views", OInt 1)]);
     ("$push", ODict [("tags", OStr "y"); ("upvotes", OStr "z"); ("notes", OStr "n")]);
     ("$set", ODict [("title", OStr "T"); ("views", OInt 9)])] in
  (exists doc' h',
      update_one [("_id", OStr "a")] update c
      = ({| items := alist_set "a" doc' (items c); lists := h' |}, Ok updated)
      /\ alist_get "upvotes" doc' = Some (OInt 5)
      /\ alist_get "views" doc' = Some (OInt 9)
      /\ alist_get "tags" doc' = Some (OList 0)
      /\ nth_error h' 0 = Some [OStr "x"; OStr "y"]
      /\ (exists a, alist_get "notes" doc' = Some (OList a)
                    /\ nth_error h' a = Some [OStr "n"])
      /\ alist_get "title" doc' = Some (OStr "T")
      /\ List.length h' = 2%nat)
  /\ update_one [("_id", OStr "zz")] update c = (c, Ok not_matched).
Proof.
  intros doc other c update. split.
  - destruct (update_one_operator_semantics (host := example_host)
                [("_id", OStr "a")] update c) as [Hhit _].
    destruct (Hhit "a" doc eq_refl eq_refl) as (doc' & h' & Hrun & Hget & Hheap & Hlen).
    + right. eexists. reflexivity.
    + right. eexists. reflexivity.
    + right. eexists. reflexivity.
    + repeat constructor; simpl; intuition discriminate.
    + repeat constructor; simpl; intuition discriminate.
    + reflexivity.
    + reflexivity.
    + exists doc', h'. split; [exact Hrun|].
      split; [exact (Hget "upvotes")|].
      split; [exact (Hget "views")|].
      split; [exact (Hget "tags")|].
      split; [exact (Hheap 0%nat [OStr "x"] eq_refl)|].
      split.
      * destruct (Hget "notes") as (a & _ & Hnew & Hk).
        exists a. split; [exact Hk|exact Hnew].
      * split; [exact (Hget "title")|exact Hlen].
  - apply (update_one_operator_semantics (host := example_host)).
    + reflexivity.
    + intros s H. inversion H. reflexivity.
Defined.

(** C3, as stated, fails.  An increment of a field that holds a value that
    is not a number does not count it as zero, [update_one] raises.  And an
    append is not confined to the one document: when two documents hold the
    same list object (two documents inserted with the same list, which
    [insert_one] copies by reference), the value appended through one of
    them stands in the list of the other. *)
Lemma update_one_inc_raises_push_is_shared :
  let doc := [("_id", OStr "a"); ("n", ONone)] in
  let c := {| items := [("a", doc)]; lists := [] |} in
  let a := [("_id", OStr "a"); ("tags", OList 0)] in
  let b := [("_id", OStr "b"); ("tags", OList 0)] in
  let shared := {| items := [("a", a); ("b", b)]; lists := [[OStr "x"]] |} in
  update_one [("_id", OStr "a")] [("$inc", ODict [("n", OInt 1)])] c
  = (c, Raise TypeError)
  /\ update_one [("_id", OStr "a")] [("$push", ODict [("tags", OStr "y")])] shared
     = ({| items := [("a", a); ("b", b)]; lists := [[OStr "x"; OStr "y"]] |},
        Ok updated)
  /\ alist_get "tags" b = Some (OList 0).
Proof.
  cbv zeta. split; [reflexivity|]. split; reflexivity.
Qed.

End SharedExamples.

Lemma update_one_matched_is_modified_witness :
  let doc := [("_id", VStr "a"); ("upvotes", VInt 2)] in
  let items := [("a", doc)] in
  update_one (host := example_host) [("_id", VStr "a")] [] items
  = (items, Ok updated)
  /\ exists doc',
       update_one (host := example_host) [("_id", VStr "a")]
         [("$set", VDict [("upvotes", VInt 2)])] items
       = (alist_set "a" doc' items, Ok updated)
       /\ alist_get "upvotes" doc' = Some (VInt 2).
Proof.
  intros doc items. split.
  - destruct (update_one_matched_is_modified (host := example_host)
                [("_id", VStr "a")] [] items) as [_ H].
    destruct (H "a" doc eq_refl eq_refl) as (_ & Hnone & _).
    exact (Hnone eq_refl eq_refl eq_refl).
  - destruct (update_one_matched_is_modified (host := example_host)
                [("_id", VStr "a")] [("$set", VDict [("upvotes", VInt 2)])] items)
      as [_ H].
    destruct (H "a" doc eq_refl eq_refl) as (_ & _ & Hset).
    destruct (Hset _ eq_refl) as (doc' & Hrun & Hsame).
    exists doc'. split; [exact Hrun|].
    rewrite Hsame; [reflexivity|].
    intros k v. simpl.
    destruct (String.eqb_spec k "upvotes") as [->|]; [|discriminate].
    intros E. inversion E. reflexivity.
Defined.

(** ** Outbound serialization *)

Lemma canon_element_not_oid x : _is_object_id (canon_element x) = false.
Proof. destruct x; reflexivity. Qed.

Lemma canon_element_id x : _is_object_id x = false -> canon_element x = x.
Proof. destruct x; simpl; [reflexivity..|discriminate|reflexivity|reflexivity]. Qed.

Lemma serialize_value_dict d : serialize_value (VDict d) = VDict (_serialize d).
Proof. destruct d; reflexivity. Qed.

Lemma serialize_value_canonical v : exposed_oid (serialize_value v) = false.
Proof.
  induction v as [| | | | | |l _|d IH] using Value_nested_ind; try reflexivity.
  - simpl. induction l as [|x l IHl]; simpl; [reflexivity|].
    rewrite canon_element_not_oid. exact IHl.
  - simpl. induction d as [|[k x] d IHd]; simpl; [reflexivity|].
    inversion IH as [|? ? Hx Hd]; subst. simpl in Hx.
    rewrite Hx. apply IHd, Hd.
Qed.

Lemma serialize_value_plain v :
  exposed_oid v = false -> serialize_value v = v.
Proof.
  induction v as [| | | | | |l _|d IH] using Value_nested_ind;
    try reflexivity; try discriminate.
  - simpl. intros H. f_equal.
    induction l as [|x l IHl]; simpl in *; [reflexivity|].
    apply orb_false_elim in H. destruct H as [Hx Hl].
    rewrite (canon_element_id _ Hx), (IHl Hl). reflexivity.
  - simpl. intros H. f_equal.
    induction d as [|[k x] d IHd]; simpl in *; [reflexivity|].
    apply orb_false_elim in H. destruct H as [Hx Hd].
    inversion IH as [|? ? Px Pd]; subst. simpl in Px.
    rewrite (Px Hx), (IHd Pd Hd). reflexivity.
Qed.

Lemma serialize_get doc k :
  alist_get k (_serialize doc) = option_map serialize_value (alist_get k doc).
Proof.
  destruct doc as [|kv doc]; [reflexivity|].
  unfold _serialize. apply alist_get_map_values.
Qed.

(** C7, as amended: [_serialize] keeps the fields of a document and gives
    each the serialized form of its value: an identifier becomes its string,
    a timestamp and any other scalar stay, a list has the elements that are
    identifiers replaced by their strings and every other element left as it
    is, a nested document is serialized in turn.  No identifier is left as a
    field value, at any depth of nested documents, nor as an element of a
    list held by such a field; a value without an identifier in those places
    is returned unchanged. *)
Theorem serialize_canonicalizes (doc : Dict) :
  alist_keys (_serialize doc) = alist_keys doc
  /\ (forall k v, alist_get k doc = Some v ->
                  alist_get k (_serialize doc) = Some (serialize_value v))
  /\ (forall o, serialize_value (VOid o) = VStr (oid_str o))
  /\ (forall t, serialize_value (VDateTime t) = VDateTime t)
  /\ serialize_value VNone = VNone
  /\ (forall b, serialize_value (VBool b) = VBool b)
  /\ (forall n, serialize_value (VInt n) = VInt n)
  /\ (forall s, serialize_value (VStr s) = VStr s)
  /\ (forall l i x, nth_error l i = Some x ->
        exists l', serialize_value (VList l) = VList l'
                   /\ List.length l' = List.length l
                   /\ nth_error l' i =
                      Some (match x with VOid o => VStr (oid_str o) | _ => x end))
  /\ (forall d, serialize_value (VDict d) = VDict (_serialize d))
  /\ exposed_oid (VDict (_serialize doc)) = false
  /\ (forall v, exposed_oid v = false -> serialize_value v = v).
Proof.
  split.
  { destruct doc as [|kv doc]; [reflexivity|].
    unfold _serialize. apply alist_keys_map_values. }
  split.
  { intros k v H. rewrite serialize_get, H. reflexivity. }
  do 6 (split; [reflexivity|]).
  split.
  { intros l i x H. exists (map canon_element l).
    split; [reflexivity|]. split; [apply length_map|].
    rewrite nth_error_map, H. reflexivity. }
  split; [exact serialize_value_dict|].
  split.
  { rewrite <- serialize_value_dict. apply serialize_value_canonical. }
  exact serialize_value_plain.
Qed.

Lemma serialize_canonicalizes_witness :
  let id := Oid "64b7f0c2a1d3e4f5a6b7c8d9" in
  let doc := [("_id", VOid id);
              ("title", VStr "X");
              ("created_at", VDateTime 17);
              ("voters", VList [VOid id; VStr "anna"]);
              ("maker", VDict [("ref", VOid id); ("name", VStr "M")])] in
  alist_get "_id" (_serialize doc) = Some (VStr "64b7f0c2a1d3e4f5a6b7c8d9")
  /\ alist_get "created_at" (_serialize doc) = Some (VDateTime 17)
  /\ alist_get "voters" (_serialize doc)
     = Some (VList [VStr "64b7f0c2a1d3e4f5a6b7c8d9"; VStr "anna"])
  /\ alist_get "maker" (_serialize doc)
     = Some (VDict [("ref", VStr "64b7f0c2a1d3e4f5a6b7c8d9"); ("name", VStr "M")])
  /\ serialize_value (VStr "X") = VStr "X".
Proof.
  intros id doc.
  destruct (serialize_canonicalizes doc)
    as (_ & Hget & _ & _ & _ & _ & _ & _ & _ & _ & _ & Hplain).
  split; [exact (Hget "_id" _ eq_refl)|].
  split; [exact (Hget "created_at" _ eq_refl)|].
  split; [exact (Hget "voters" _ eq_refl)|].
  split; [exact (Hget "maker" _ eq_refl)|].
  exact (Hplain (VStr "X") eq_refl).
Defined.

(** C7, as stated, fails: an identifier inside a document that is an element
    of a list, or inside a list that is an element of a list, is returned as
    it is. *)
Lemma serialize_keeps_identifier_under_list :
  let id := Oid "64b7f0c2a1d3e4f5a6b7c8d9" in
  let doc := [("comments", VList [VDict [("author_id", VOid id)]]);
              ("groups", VList [VList [VOid id]])] in
  _serialize doc = doc
  /\ alist_get "comments" (_serialize doc)
     = Some (VList [VDict [("author_id", VOid id)]])
  /\ alist_get "comments" (_serialize doc)
     <> Some (VList [VDict [("author_id", VStr (oid_str id))]]).
Proof.
  cbv zeta. split; [reflexivity|]. split; [reflexivity|]. discriminate.
Qed.

(** ** The helpers over the in-memory database *)

Section InMemory.
Context {host : Host}.

Lemma collection_own name (db : MemoryDB) :
  own_attribute name = true -> collection name db = [].
Proof. intros H. unfold collection. rewrite H. reflexivity. Qed.

Lemma collection_stored name (db : MemoryDB) id doc :
  alist_get id (collection name db) = Some doc -> own_attribute name = false.
Proof.
  destruct (own_attribute name) eqn:E; [|reflexivity].
  rewrite (collection_own name db E). discriminate.
Qed.

Lemma collection_setdefault name name' (db : MemoryDB) :
  collection name' (alist_setdefault name [] db) = collection name' db.
Proof.
  unfold collection. destruct (own_attribute name'); [reflexivity|].
  destruct (String.eqb_spec name name') as [->|Hne].
  - rewrite alist_get_setdefault_same. destruct (alist_get name' db); reflexivity.
  - rewrite alist_get_setdefault_other by exact Hne. reflexivity.
Qed.

Lemma on_collection_own {A} method name (m : Exec Items A) db :
  own_attribute name = true ->
  on_collection method name m db = (db, Raise (attribute_failure name method)).
Proof. intros H. unfold on_collection. rewrite H. reflexivity. Qed.

Lemma collection_get name (db : MemoryDB) :
  own_attribute name = false ->
  collection name db = match alist_get name db with Some i => i | None => [] end.
Proof. intros H. unfold collection. rewrite H. reflexivity. Qed.

Lemma on_collection_run {A} method name (m : Exec Items A) db :
  own_attribute name = false ->
  on_collection method name m db =
  (alist_set name (fst (m (collection name db))) (alist_setdefault name [] db),
   snd (m (collection name db))).
Proof.
  intros H.
  pose proof (collection_get name (alist_setdefault name [] db) H) as E.
  rewrite collection_setdefault in E.
  unfold on_collection. rewrite H. cbv zeta.
  match goal with
  | |- match m ?t with _ => _ end = _ =>
      replace t with (collection name db) by exact E
  end.
  destruct (m (collection name db)). reflexivity.
Qed.

Lemma collection_set_same name items (db : MemoryDB) :
  own_attribute name = false -> collection name (alist_set name items db) = items.
Proof.
  intros H. unfold collection. rewrite H, alist_get_set_same. reflexivity.
Qed.

Lemma collection_set_other name name' items (db : MemoryDB) :
  name <> name' -> collection name' (alist_set name items db) = collection name' db.
Proof.
  intros Hne. unfold collection.
  rewrite alist_get_set_other by exact Hne. reflexivity.
Qed.

Lemma delete_document_memory name f db :
  own_attribute name = false ->
  delete_document memory_backing name f db =
  (alist_set name (fst (delete_one f (collection name db)))
     (alist_setdefault name [] db),
   res_map deleted_count (snd (delete_one f (collection name db)))).
Proof.
  intros H. unfold delete_document, bind.
  cbn [memory_backing USE_MEMORY db_delete_one translate_filter].
  rewrite (on_collection_run _ _ _ _ H).
  destruct (snd (delete_one f (collection name db))); reflexivity.
Qed.

Lemma delete_document_own name f db :
  own_attribute name = true ->
  delete_document memory_backing name f db =
  (db, Raise (attribute_failure name "delete_one")).
Proof.
  intros H. unfold delete_document, bind.
  cbn [memory_backing USE_MEMORY db_delete_one translate_filter].
  rewrite (on_collection_own _ _ _ _ H). reflexivity.
Qed.

Lemma update_document_memory name f data now db :
  own_attribute name = false ->
  update_document memory_backing name f data now db =
  (alist_set name
     (fst (update_one f
             [("$set", VDict (alist_set "updated_at" (VDateTime now) data))]
             (collection name db)))
     (alist_setdefault name [] db),
   res_map modified_count
     (snd (update_one f
             [("$set", VDict (alist_set "updated_at" (VDateTime now) data))]
             (collection name db)))).
Proof.
  intros H. unfold update_document, bind.
  cbn [memory_backing USE_MEMORY db_update_one translate_filter].
  rewrite (on_collection_run _ _ _ _ H).
  destruct (snd (update_one f _ (collection name db))); reflexivity.
Qed.

Lemma update_document_own name f data now db :
  own_attribute name = true ->
  update_document memory_backing name f data now db =
  (db, Raise (attribute_failure name "update_one")).
Proof.
  intros H. unfold update_document, bind.
  cbn [memory_backing USE_MEMORY db_update_one translate_filter].
  rewrite (on_collection_own _ _ _ _ H). reflexivity.
Qed.

Lemma update_one_nothing_stored f update :
  fst (update_one f update []) = [].
Proof.
  unfold update_one, items_lookup.
  destruct (hashable (filter_id f)); [|reflexivity].
  destruct (filter_id f); reflexivity.
Qed.

Lemma delete_one_nothing_stored f : fst (delete_one f []) = [].
Proof.
  unfold delete_one, items_lookup.
  destruct (hashable (filter_id f)); [|reflexivity].
  destruct (filter_id f); reflexivity.
Qed.

Lemma update_document_collection name f data now db :
  collection name (fst (update_document memory_backing name f data now db)) =
  fst (update_one f [("$set", VDict (alist_set "updated_at" (VDateTime now) data))]
         (collection name db)).
Proof.
  destruct (own_attribute name) eqn:H.
  - rewrite (update_document_own _ _ _ _ _ H). cbn [fst].
    rewrite (collection_own _ _ H). symmetry. apply update_one_nothing_stored.
  - rewrite (update_document_memory _ _ _ _ _ H). cbn [fst].
    apply collection_set_same, H.
Qed.

Lemma delete_document_collection name f db :
  collection name (fst (delete_document memory_backing name f db)) =
  fst (delete_one f (collection name db)).
Proof.
  destruct (own_attribute name) eqn:H.
  - rewrite (delete_document_own _ _ _ H). cbn [fst].
    rewrite (collection_own _ _ H). symmetry. apply delete_one_nothing_stored.
  - rewrite (delete_document_memory _ _ _ H). cbn [fst].
    apply collection_set_same, H.
Qed.

Lemma update_document_frame name other f data now db :
  name <> other ->
  collection other (fst (update_document memory_backing name f data now db))
  = collection other db.
Proof.
  intros Hne. destruct (own_attribute name) eqn:H.
  - rewrite (update_document_own _ _ _ _ _ H). reflexivity.
  - rewrite (update_document_memory _ _ _ _ _ H). cbn [fst].
    rewrite collection_set_other by exact Hne. apply collection_setdefault.
Qed.

Lemma delete_document_frame name other f db :
  name <> other ->
  collection other (fst (delete_document memory_backing name f db))
  = collection other db.
Proof.
  intros Hne. destruct (own_attribute name) eqn:H.
  - rewrite (delete_document_own _ _ _ H). reflexivity.
  - rewrite (delete_document_memory _ _ _ H). cbn [fst].
    rewrite collection_set_other by exact Hne. apply collection_setdefault.
Qed.

Lemma delete_one_hit f items id doc :
  filter_id f = VStr id -> alist_get id items = Some doc ->
  delete_one f items = (alist_remove id items, Ok {| deleted_count := 1 |}).
Proof.
  intros Hf Hdoc. unfold delete_one.
  rewrite Hf, items_lookup_hashable by reflexivity.
  rewrite Hdoc. reflexivity.
Qed.

Lemma delete_one_miss f items :
  hashable (filter_id f) = true ->
  (forall s, filter_id f = VStr s -> alist_get s items = None) ->
  delete_one f items = (items, Ok {| deleted_count := 0 |}).
Proof.
  intros Hh Hmiss. unfold delete_one.
  rewrite items_lookup_hashable by exact Hh.
  destruct (filter_id f); try reflexivity.
  rewrite (Hmiss s eq_refl). reflexivity.
Qed.

(** C6, as amended: on a collection name that is no attribute of the
    database object, deleting by the identifier of a stored document returns
    1 and removes that document and no other, and the same call made again
    returns 0; an update or a delete whose filter has a hashable [_id] (or
    none) that is not a stored identifier returns 0, raises nothing and
    leaves the collection as it was. *)
Theorem delete_then_delete_again (db : MemoryDB) (name : string) :
  own_attribute name = false ->
  (forall f id doc,
      filter_id f = VStr id ->
      alist_get id (collection name db) = Some doc ->
      let db1 := fst (delete_document memory_backing name f db) in
      snd (delete_document memory_backing name f db) = Ok 1
      /\ alist_get id (collection name db1) = None
      /\ (forall id', id <> id' ->
            alist_get id' (collection name db1) = alist_get id' (collection name db))
      /\ snd (delete_document memory_backing name f db1) = Ok 0)
  /\ (forall f,
        hashable (filter_id f) = true ->
        (forall s, filter_id f = VStr s -> alist_get s (collection name db) = None) ->
        (forall data now,
            snd (update_document memory_backing name f data now db) = Ok 0
            /\ collection name (fst (update_document memory_backing name f data now db))
               = collection name db)
        /\ snd (delete_document memory_backing name f db) = Ok 0
        /\ collection name (fst (delete_document memory_backing name f db))
           = collection name db).
Proof.
  intros Hown. split.
  - intros f id doc Hf Hdoc db1. subst db1.
    rewrite (delete_document_memory name f
               (fst (delete_document memory_backing name f db)) Hown).
    cbn [fst snd]. rewrite !delete_document_collection.
    rewrite (delete_document_memory name f db Hown). cbn [fst snd].
    rewrite (delete_one_hit _ _ _ _ Hf Hdoc). cbn [fst snd].
    split; [reflexivity|].
    split; [apply alist_get_remove_same|].
    split; [intros id' Hne; apply alist_get_remove_other, Hne|].
    rewrite delete_one_miss; [reflexivity|rewrite Hf; reflexivity|].
    intros s Hs. rewrite Hf in Hs. inversion Hs; subst.
    apply alist_get_remove_same.
  - intros f Hh Hmiss. split; [|split].
    + intros data now. rewrite update_document_collection.
      rewrite (update_document_memory _ _ _ _ _ Hown). cbn [snd].
      rewrite (update_one_miss _ _ _ Hh Hmiss). split; reflexivity.
    + rewrite (delete_document_memory _ _ _ Hown), (delete_one_miss _ _ Hh Hmiss).
      reflexivity.
    + rewrite delete_document_collection, (delete_one_miss _ _ Hh Hmiss).
      reflexivity.
Qed.

Lemma update_one_set_hit f payload items id doc :
  filter_id f = VStr id -> alist_get id items = Some doc ->
  update_one f [("$set", VDict payload)] items =
  (alist_set id (apply_set payload doc) items, Ok updated).
Proof.
  intros Hf Hdoc. rewrite (update_one_hit _ _ _ _ _ Hf Hdoc). reflexivity.
Qed.

Lemma update_one_set_counts f payload items :
  hashable (filter_id f) = true ->
  snd (update_one f [("$set", VDict payload)] items) = Ok not_matched
  \/ snd (update_one f [("$set", VDict payload)] items) = Ok updated.
Proof.
  intros Hh.
  destruct (filter_id f) eqn:Hf; try discriminate;
    try (left; rewrite update_one_miss;
         [reflexivity|rewrite Hf; reflexivity|rewrite Hf; discriminate]).
  destruct (alist_get s items) as [doc|] eqn:Hdoc.
  - right. rewrite (update_one_set_hit _ _ _ _ _ Hf Hdoc). reflexivity.
  - left. rewrite update_one_miss; [reflexivity|rewrite Hf; reflexivity|].
    intros s' Hs. rewrite Hf in Hs. inversion Hs; subst. exact Hdoc.
Qed.

Lemma update_one_unhashable f update items :
  hashable (filter_id f) = false ->
  update_one f update items = (items, Raise TypeError).
Proof.
  intros Hh. unfold update_one.
  rewrite (items_lookup_unhashable _ _ Hh). reflexivity.
Qed.

(** C4, as amended: [update_document] hands the backing one [$set] of the
    caller's fields in which [updated_at] is the current time, whatever the
    caller gave for it, and returns the modified count the backing reports.
    On the in-memory backing, on a collection name that is no attribute of
    the database object: for a filter without [_id] or with a hashable one
    the count is 0 or 1; for a filter whose [_id] is a list or a dict (the
    [$in] shape included) the call raises [TypeError] and changes nothing;
    when the filter's [_id] is a stored identifier the count is 1, and the
    document then holds the current time in [updated_at] and the caller's
    value in every other field the caller gave, the rest being as before. *)
Theorem update_document_stamps_updated_at
    (name : string) (f data : Dict) (now : Z) :
  let payload := alist_set "updated_at" (VDateTime now) data in
  alist_get "updated_at" payload = Some (VDateTime now)
  /\ (forall k, k <> "updated_at" -> alist_get k payload = alist_get k data)
  /\ (forall (B : Backing) (st : db_state B),
        update_document B name f data now st =
        let (st', r) := db_update_one B name (translate_filter (USE_MEMORY B) f)
                          [("$set", VDict payload)] st in
        (st', res_map modified_count r))
  /\ (forall db,
        own_attribute name = false ->
        hashable (filter_id f) = true ->
        snd (update_document memory_backing name f data now db) = Ok 0
        \/ snd (update_document memory_backing name f data now db) = Ok 1)
  /\ (forall db,
        own_attribute name = false ->
        hashable (filter_id f) = false ->
        snd (update_document memory_backing name f data now db) = Raise TypeError
        /\ collection name (fst (update_document memory_backing name f data now db))
           = collection name db)
  /\ (forall db id doc,
        filter_id f = VStr id ->
        alist_get id (collection name db) = Some doc ->
        snd (update_document memory_backing name f data now db) = Ok 1
        /\ exists doc',
             alist_get id
               (collection name
                  (fst (update_document memory_backing name f data now db)))
             = Some doc'
             /\ alist_get "updated_at" doc' = Some (VDateTime now)
             /\ forall k, k <> "updated_at" ->
                  alist_get k doc' =
                  match alist_get k data with
                  | Some v => Some v
                  | None => alist_get k doc
                  end).
Proof.
  intros payload.
  assert (Hstamp : alist_get "updated_at" payload = Some (VDateTime now))
    by apply alist_get_set_same.
  assert (Hrest : forall k, k <> "updated_at" ->
                            alist_get k payload = alist_get k data).
  { intros k Hk. apply alist_get_set_other. congruence. }
  split; [exact Hstamp|]. split; [exact Hrest|]. split; [|split; [|split]].
  - intros B st. unfold update_document, bind. fold payload.
    destruct (db_update_one B name _ _ st) as [st' [r|e]]; reflexivity.
  - intros db Hown Hh. rewrite (update_document_memory _ _ _ _ _ Hown).
    cbn [snd]. fold payload.
    destruct (update_one_set_counts f payload (collection name db) Hh) as [H|H];
      rewrite H; [left|right]; reflexivity.
  - intros db Hown Hh. rewrite update_document_collection.
    rewrite (update_document_memory _ _ _ _ _ Hown). cbn [snd].
    rewrite (update_one_unhashable _ _ _ Hh). split; reflexivity.
  - intros db id doc Hf Hdoc.
    pose proof (collection_stored _ _ _ _ Hdoc) as Hown.
    rewrite update_document_collection.
    rewrite (update_document_memory _ _ _ _ _ Hown). cbn [snd].
    fold payload.
    rewrite (update_one_set_hit _ _ _ _ _ Hf Hdoc). cbn [fst snd].
    split; [reflexivity|].
    exists (apply_set payload doc).
    rewrite alist_get_set_same.
    split; [reflexivity|]. split.
    + rewrite apply_set_get. unfold set_field. rewrite Hstamp. reflexivity.
    + intros k Hk. rewrite apply_set_get. unfold set_field.
      rewrite (Hrest k Hk). reflexivity.
Qed.

Lemma update_one_set_state f payload items :
  fst (update_one f [("$set", VDict payload)] items) = items
  \/ exists s doc,
       filter_id f = VStr s /\ alist_get s items = Some doc
       /\ fst (update_one f [("$set", VDict payload)] items)
          = alist_set s (apply_set payload doc) items.
Proof.
  destruct (hashable (filter_id f)) eqn:Hh.
  - destruct (filter_id f) eqn:Hf; try discriminate;
      try (left; rewrite update_one_miss;
           [reflexivity|rewrite Hf; reflexivity|rewrite Hf; discriminate]).
    destruct (alist_get s items) as [doc|] eqn:Hdoc.
    + right. exists s, doc. split; [reflexivity|]. split; [exact Hdoc|].
      rewrite (update_one_set_hit _ _ _ _ _ Hf Hdoc). reflexivity.
    + left. rewrite update_one_miss; [reflexivity|rewrite Hf; reflexivity|].
      intros s' Hs. rewrite Hf in Hs. inversion Hs; subst. exact Hdoc.
  - left. unfold update_one.
    rewrite (items_lookup_unhashable _ _ Hh). reflexivity.
Qed.

Lemma run_update_field c db name id k :
  stored_field name id k (run_update c db) = stored_field name id k db
  \/ exists doc,
       alist_get id (collection name db) = Some doc
       /\ stored_field name id k (run_update c db)
          = set_field (alist_set "updated_at" (VDateTime (uc_now c)) (uc_fields c))
              k (alist_get k doc).
Proof.
  unfold run_update, stored_field.
  destruct (String.eqb_spec (uc_collection c) name) as [E|Hne].
  - subst name. rewrite update_document_collection.
    destruct (update_one_set_state (uc_filter c)
                (alist_set "updated_at" (VDateTime (uc_now c)) (uc_fields c))
                (collection (uc_collection c) db))
      as [H|(s & doc & Hf & Hdoc & H)];
      rewrite H; [left; reflexivity|].
    destruct (String.eqb_spec s id) as [->|Hs].
    + right. exists doc. split; [exact Hdoc|].
      rewrite alist_get_set_same. apply apply_set_get.
    + left. rewrite alist_get_set_other by exact Hs. reflexivity.
  - left. rewrite update_document_frame by exact Hne. reflexivity.
Qed.

Lemma run_updates_app calls1 calls2 db :
  run_updates (calls1 ++ calls2) db = run_updates calls2 (run_updates calls1 db).
Proof. apply fold_left_app. Qed.

Lemma created_at_kept name id calls db :
  Forall (fun c => alist_get "created_at" (uc_fields c) = None) calls ->
  stored_field name id "created_at" (run_updates calls db)
  = stored_field name id "created_at" db.
Proof.
  intros H. revert db.
  induction H as [|c calls Hc _ IH]; intros db; [reflexivity|].
  simpl. rewrite IH.
  destruct (run_update_field c db name id "created_at")
    as [E|(doc & Hdoc & E)]; [exact E|].
  rewrite E. unfold set_field, stored_field.
  rewrite alist_get_set_other by discriminate.
  rewrite Hc, Hdoc. reflexivity.
Qed.

Lemma nondecreasing_lower t u l :
  t <= u -> nondecreasing (u :: l) -> nondecreasing (t :: l).
Proof.
  destruct l as [|x l]; simpl; [trivial|].
  intros Htu [Hux Hl]. split; [lia|exact Hl].
Qed.

Lemma updated_at_advances name id calls :
  forall rest db t,
    stored_field name id "updated_at" db = Some (VDateTime t) ->
    nondecreasing (t :: map uc_now calls ++ rest) ->
    exists t',
      stored_field name id "updated_at" (run_updates calls db) = Some (VDateTime t')
      /\ t <= t' /\ nondecreasing (t' :: rest).
Proof.
  induction calls as [|c calls IH]; intros rest db t Hfield Hclock.
  - exists t. split; [exact Hfield|]. split; [lia|exact Hclock].
  - simpl in Hclock. destruct Hclock as [Hle Hclock].
    destruct (run_update_field c db name id "updated_at")
      as [E|(doc & Hdoc & E)].
    + rewrite Hfield in E.
      destruct (IH rest (run_update c db) t E
                  (nondecreasing_lower _ _ _ Hle Hclock)) as (t' & H1 & H2 & H3).
      exists t'. split; [exact H1|]. split; [exact H2|exact H3].
    + unfold set_field in E. rewrite alist_get_set_same in E.
      destruct (IH rest (run_update c db) (uc_now c) E Hclock)
        as (t' & H1 & H2 & H3).
      exists t'. split; [exact H1|]. split; [lia|exact H3].
Qed.

Lemma run_update_keeps_docs c db name id doc :
  alist_get id (collection name db) = Some doc ->
  exists doc', alist_get id (collection name (run_update c db)) = Some doc'.
Proof.
  intros Hdoc. unfold run_update.
  destruct (String.eqb_spec (uc_collection c) name) as [E|Hne].
  - subst name. rewrite update_document_collection.
    destruct (update_one_set_state (uc_filter c)
                (alist_set "updated_at" (VDateTime (uc_now c)) (uc_fields c))
                (collection (uc_collection c) db))
      as [H|(s & doc0 & _ & _ & H)];
      rewrite H; [exists doc; exact Hdoc|].
    rewrite alist_get_set. destruct (String.eqb s id); eauto.
  - rewrite update_document_frame by exact Hne. exists doc. exact Hdoc.
Qed.

Lemma run_updates_keep_docs calls db name id doc :
  alist_get id (collection name db) = Some doc ->
  exists doc', alist_get id (collection name (run_updates calls db)) = Some doc'.
Proof.
  revert db doc.
  induction calls as [|c calls IH]; intros db doc Hdoc; [exists doc; exact Hdoc|].
  destruct (run_update_keeps_docs c db name id doc Hdoc) as (doc1 & H1).
  simpl. apply (IH _ doc1 H1).
Qed.

Lemma run_update_stamps c db id doc :
  filter_id (uc_filter c) = VStr id ->
  alist_get id (collection (uc_collection c) db) = Some doc ->
  stored_field (uc_collection c) id "updated_at" (run_update c db)
  = Some (VDateTime (uc_now c)).
Proof.
  intros Hf Hdoc. unfold run_update, stored_field.
  rewrite update_document_collection, (update_one_set_hit _ _ _ _ _ Hf Hdoc).
  cbn [fst]. rewrite alist_get_set_same, apply_set_get.
  unfold set_field. rewrite alist_get_set_same. reflexivity.
Qed.

(** C5, as amended: under any sequence of calls of [update_document] whose
    fields do not name [created_at], the [created_at] of a stored document
    stays what it was.  When the clock does not run backwards, the
    [updated_at] of a document is the clock reading of an update that reaches
    it, and after any further updates it is a timestamp at least as late; the
    same holds from any state in which [updated_at] is a timestamp that is not
    ahead of the clock. *)
Theorem timestamps_across_updates (name id : string) (db : MemoryDB) :
  (forall calls,
      Forall (fun c => alist_get "created_at" (uc_fields c) = None) calls ->
      stored_field name id "created_at" (run_updates calls db)
      = stored_field name id "created_at" db)
  /\ (forall calls1 c calls2 doc,
        alist_get id (collection name db) = Some doc ->
        uc_collection c = name ->
        filter_id (uc_filter c) = VStr id ->
        nondecreasing (map uc_now (c :: calls2)) ->
        exists t2,
          stored_field name id "updated_at" (run_updates (calls1 ++ [c]) db)
          = Some (VDateTime (uc_now c))
          /\ stored_field name id "updated_at"
               (run_updates (calls1 ++ c :: calls2) db)
             = Some (VDateTime t2)
          /\ uc_now c <= t2)
  /\ (forall t0 calls1 calls2,
        stored_field name id "updated_at" db = Some (VDateTime t0) ->
        nondecreasing (t0 :: map uc_now (calls1 ++ calls2)) ->
        exists t1 t2,
          stored_field name id "updated_at" (run_updates calls1 db)
          = Some (VDateTime t1)
          /\ stored_field name id "updated_at" (run_updates (calls1 ++ calls2) db)
             = Some (VDateTime t2)
          /\ t0 <= t1 /\ t1 <= t2).
Proof.
  split; [intros calls; apply created_at_kept|]. split.
  - intros calls1 c calls2 doc Hdoc Hname Hf Hclock.
    destruct (run_updates_keep_docs calls1 db name id doc Hdoc) as (doc1 & Hdoc1).
    assert (Hstamp : stored_field name id "updated_at"
                       (run_updates (calls1 ++ [c]) db)
                     = Some (VDateTime (uc_now c))).
    { rewrite run_updates_app. simpl. subst name.
      apply (run_update_stamps c _ id doc1 Hf Hdoc1). }
    simpl in Hclock.
    rewrite <- (app_nil_r (map uc_now calls2)) in Hclock.
    destruct (updated_at_advances name id calls2 _ _ _ Hstamp Hclock)
      as (t2 & H2 & Hle & _).
    exists t2. split; [exact Hstamp|]. split; [|exact Hle].
    change (c :: calls2) with ([c] ++ calls2).
    rewrite app_assoc, run_updates_app. exact H2.
  - intros t0 calls1 calls2 Hfield Hclock.
    rewrite map_app in Hclock.
    destruct (updated_at_advances name id calls1 _ db t0 Hfield Hclock)
      as (t1 & H1 & Hle1 & Hclock1).
    rewrite <- (app_nil_r (map uc_now calls2)) in Hclock1.
    destruct (updated_at_advances name id calls2 _ _ t1 H1 Hclock1)
      as (t2 & H2 & Hle2 & _).
    exists t1, t2. rewrite run_updates_app.
    split; [exact H1|]. split; [exact H2|]. split; assumption.
Qed.

Lemma create_document_memory name data now oid db :
  own_attribute name = false ->
  create_document memory_backing name data now oid db =
  (alist_set name
     (alist_set oid
        (alist_set "_id" (VStr oid)
           (alist_setdefault "updated_at" (VDateTime now)
              (alist_setdefault "created_at" (VDateTime now) data)))
        (collection name db))
     (alist_setdefault name [] db),
   Ok (VStr oid)).
Proof.
  intros H. unfold create_document.
  cbn [memory_backing db_insert_one].
  rewrite (on_collection_run _ _ _ _ H). reflexivity.
Qed.

Lemma create_document_own name data now oid db :
  own_attribute name = true ->
  create_document memory_backing name data now oid db =
  (db, Raise (attribute_failure name "insert_one")).
Proof.
  intros H. unfold create_document.
  cbn [memory_backing db_insert_one].
  rewrite (on_collection_own _ _ _ _ H). reflexivity.
Qed.

Lemma get_documents_own name f limit db :
  own_attribute name = true ->
  get_documents memory_backing name f limit db =
  (db, Raise (attribute_failure name "find")).
Proof.
  intros H. unfold get_documents, fetch_documents.
  cbn [memory_backing USE_MEMORY db_find translate_filter].
  rewrite (on_collection_own _ _ _ _ H).
  destruct (attribute_failure name "find") eqn:E; try reflexivity.
  rewrite (on_collection_own _ _ _ _ H), E. reflexivity.
Qed.

Lemma get_documents_memory name f limit db :
  own_attribute name = false ->
  snd (get_documents memory_backing name f limit db) =
  res_map (fun docs => map _serialize (slice_to limit docs))
    (find (collection name db) f).
Proof.
  intros H. unfold get_documents, fetch_documents.
  cbn [memory_backing USE_MEMORY db_find translate_filter].
  rewrite (on_collection_run _ _ _ _ H). cbn [fst snd].
  destruct (find (collection name db) f) as [docs|e] eqn:E; [reflexivity|].
  destruct e; try reflexivity.
  rewrite (on_collection_run _ _ _ _ H). cbn [fst snd].
  rewrite (collection_set_same _ _ _ H), E. reflexivity.
Qed.

Lemma slice_to_singleton {A} limit (x : A) : 1 <= limit -> slice_to limit [x] = [x].
Proof.
  intros H. unfold slice_to.
  destruct (Z.leb_spec 0 limit); [|lia].
  destruct (Z.to_nat limit) eqn:E; [lia|]. simpl.
  rewrite firstn_nil. reflexivity.
Qed.

(** C1, as amended: on the in-memory backing, for a collection name that is
    no attribute of the database object, [create_document] returns the
    token of the call as the identifier, and reading by that identifier with
    a limit of at least 1 returns exactly one document.  Its [_id] is that
    identifier; every other field the caller supplied holds the serialized
    form of the caller's value, which is the caller's value itself when no
    identifier sits in it where the serializer looks; [created_at] and
    [updated_at] are present, and both are the time of the call when the
    caller supplied neither. *)
Theorem create_then_read
    (db : MemoryDB) (name : string) (data : Dict) (now : Z) (oid : string)
    (limit : Z) :
  own_attribute name = false ->
  1 <= limit ->
  let db1 := fst (create_document memory_backing name data now oid db) in
  snd (create_document memory_backing name data now oid db) = Ok (VStr oid)
  /\ exists doc,
       snd (get_documents memory_backing name [("_id", VStr oid)] limit db1)
       = Ok [doc]
       /\ alist_get "_id" doc = Some (VStr oid)
       /\ (forall k v, k <> "_id" -> alist_get k data = Some v ->
                       alist_get k doc = Some (serialize_value v))
       /\ (forall k v, k <> "_id" -> alist_get k data = Some v ->
                       exposed_oid v = false -> alist_get k doc = Some v)
       /\ (exists c u, alist_get "created_at" doc = Some c
                       /\ alist_get "updated_at" doc = Some u)
       /\ (alist_get "created_at" data = None ->
           alist_get "updated_at" data = None ->
           alist_get "created_at" doc = Some (VDateTime now)
           /\ alist_get "updated_at" doc = Some (VDateTime now)).
Proof.
  intros Hown Hlimit db1. subst db1.
  rewrite (create_document_memory _ _ _ _ _ Hown). cbn [fst snd].
  split; [reflexivity|].
  set (payload := alist_setdefault "updated_at" (VDateTime now)
                    (alist_setdefault "created_at" (VDateTime now) data)).
  set (stored := alist_set "_id" (VStr oid) payload).
  exists (_serialize stored).
  assert (Hkept : forall k v, k <> "_id" -> alist_get k data = Some v ->
                              alist_get k stored = Some v).
  { intros k v Hk Hv. subst stored payload.
    rewrite alist_get_set_other by congruence.
    apply alist_get_setdefault_bound, alist_get_setdefault_bound, Hv. }
  split.
  { rewrite (get_documents_memory _ _ _ _ Hown), (collection_set_same _ _ _ Hown).
    rewrite (find_by_id _ _ (VStr oid)) by reflexivity.
    rewrite alist_get_set_same. simpl.
    rewrite slice_to_singleton by exact Hlimit. reflexivity. }
  split.
  { rewrite serialize_get. subst stored. rewrite alist_get_set_same. reflexivity. }
  split.
  { intros k v Hk Hv. rewrite serialize_get, (Hkept k v Hk Hv). reflexivity. }
  split.
  { intros k v Hk Hv Hplain.
    rewrite serialize_get, (Hkept k v Hk Hv). simpl.
    rewrite (serialize_value_plain _ Hplain). reflexivity. }
  assert (Hc : alist_get "created_at" stored =
               match alist_get "created_at" data with
               | Some x => Some x
               | None => Some (VDateTime now)
               end).
  { subst stored payload.
    rewrite alist_get_set_other by discriminate.
    rewrite alist_get_setdefault_other by discriminate.
    apply alist_get_setdefault_same. }
  assert (Hu : alist_get "updated_at" stored =
               match alist_get "updated_at" data with
               | Some x => Some x
               | None => Some (VDateTime now)
               end).
  { subst stored payload.
    rewrite alist_get_set_other by discriminate.
    rewrite alist_get_setdefault_same.
    rewrite alist_get_setdefault_other by discriminate. reflexivity. }
  split.
  { rewrite !serialize_get, Hc, Hu.
    destruct (alist_get "created_at" data), (alist_get "updated_at" data);
      simpl; eauto. }
  intros Hnc Hnu. rewrite !serialize_get, Hc, Hu, Hnc, Hnu. split; reflexivity.
Qed.

End InMemory.

Section InMemoryExamples.
#[local] Existing Instance example_host.

Lemma create_then_read_witness :
  let data := [("title", VStr "X"); ("maker", VStr "M")] in
  let db1 := fst (create_document (memory_backing (host := example_host))
                    "idea" data 17 "00112233445566778899aabb" []) in
  exists doc,
    snd (get_documents (host := example_host) memory_backing "idea"
           [("_id", VStr "00112233445566778899aabb")] 1 db1) = Ok [doc]
    /\ alist_get "title" doc = Some (VStr "X")
    /\ alist_get "maker" doc = Some (VStr "M")
    /\ alist_get "created_at" doc = Some (VDateTime 17)
    /\ alist_get "updated_at" doc = Some (VDateTime 17).
Proof.
  intros data db1.
  destruct (create_then_read (host := example_host) [] "idea" data 17
              "00112233445566778899aabb" 1 eq_refl ltac:(lia))
    as (_ & doc & Hread & _ & _ & Hplain & _ & Hstamps).
  exists doc. split; [exact Hread|].
  split; [apply Hplain; [discriminate|reflexivity|reflexivity]|].
  split; [apply Hplain; [discriminate|reflexivity|reflexivity]|].
  exact (Hstamps eq_refl eq_refl).
Defined.

(** C1, as stated, fails: an [_id] supplied by the caller is not read back,
    the in-memory collection stores the document under its own token; a
    field that holds an identifier is read back as a string; and under the
    collection name [_cols] nothing is created, the call raises. *)
Lemma caller_id_not_read_back :
  let data := [("_id", VStr "mine"); ("title", VStr "X");
               ("maker_ref", VOid (Oid "64b7f0c2a1d3e4f5a6b7c8d9"))] in
  let db1 := fst (create_document (memory_backing (host := example_host))
                    "idea" data 17 "00112233445566778899aabb" []) in
  snd (get_documents (host := example_host) memory_backing "idea"
         [("_id", VStr "00112233445566778899aabb")] 1 db1)
  = Ok [[("_id", VStr "00112233445566778899aabb"); ("title", VStr "X");
         ("maker_ref", VStr "64b7f0c2a1d3e4f5a6b7c8d9");
         ("created_at", VDateTime 17); ("updated_at", VDateTime 17)]]
  /\ alist_get "_id" data = Some (VStr "mine")
  /\ VStr "00112233445566778899aabb" <> VStr "mine"
  /\ alist_get "maker_ref" data = Some (VOid (Oid "64b7f0c2a1d3e4f5a6b7c8d9"))
  /\ VStr "64b7f0c2a1d3e4f5a6b7c8d9" <> VOid (Oid "64b7f0c2a1d3e4f5a6b7c8d9")
  /\ create_document (memory_backing (host := example_host))
       "_cols" [("title", VStr "X")] 17 "00112233445566778899aabb" []
     = ([], Raise AttributeError).
Proof.
  cbv zeta. split; [reflexivity|]. split; [reflexivity|].
  split; [discriminate|]. split; [reflexivity|]. split; [discriminate|].
  reflexivity.
Qed.

Lemma delete_then_delete_again_witness :
  let doc := [("_id", VStr "a"); ("title", VStr "X")] in
  let db := [("idea", [("a", doc)])] in
  let f := [("_id", VStr "a")] in
  let db1 := fst (delete_document (host := example_host) memory_backing "idea" f db) in
  snd (delete_document (host := example_host) memory_backing "idea" f db) = Ok 1
  /\ snd (delete_document (host := example_host) memory_backing "idea" f db1) = Ok 0
  /\ snd (update_document (host := example_host) memory_backing "idea"
            [("_id", VStr "zz")] [("upvotes", VInt 5)] 3 db) = Ok 0.
Proof.
  intros doc db f db1.
  destruct (delete_then_delete_again (host := example_host) db "idea" eq_refl)
    as [Hhit Hmiss].
  destruct (Hhit f "a" doc eq_refl eq_refl) as (H1 & _ & _ & H2).
  split; [exact H1|]. split; [exact H2|].
  destruct (Hmiss [("_id", VStr "zz")] eq_refl) as (Hupd & _).
  - intros s H. inversion H. reflexivity.
  - apply Hupd.
Defined.

(** C6, as stated, fails: a filter that selects no document can make an
    update or a delete raise.  The [$in] filter below selects nothing in
    [find], and both helpers raise [TypeError] on it; and under the
    collection name [_cols], which holds no document, both raise
    [AttributeError] whatever the filter. *)
Lemma delete_by_in_filter_raises :
  let f := [("_id", VDict [("$in", VList [VStr "nonexistent"])])] in
  let db := [("idea", [("a", [("_id", VStr "a")])])] in
  find (collection "idea" db) f = Ok []
  /\ snd (delete_document (host := example_host) memory_backing "idea" f db)
     = Raise TypeError
  /\ snd (update_document (host := example_host) memory_backing "idea" f
            [("upvotes", VInt 1)] 3 db)
     = Raise TypeError
  /\ snd (delete_document (host := example_host) memory_backing "idea" f db)
     <> Ok 0
  /\ delete_document (host := example_host) memory_backing "_cols"
       [("_id", VStr "a")] db
     = (db, Raise AttributeError)
  /\ update_document (host := example_host) memory_backing "_cols"
       [("_id", VStr "a")] [("upvotes", VInt 1)] 3 db
     = (db, Raise AttributeError).
Proof.
  cbv zeta. split; [reflexivity|]. split; [reflexivity|].
  split; [reflexivity|]. split; [discriminate|]. split; reflexivity.
Qed.

(** C4, as stated, fails: [{"_id": {"$in": [...]}}] is a supported filter
    shape, and it selects the stored document in a read; the update by the
    same filter returns no count, it raises [TypeError], and the document
    is not updated. *)
Lemma update_document_in_filter_raises :
  let doc := [("_id", VStr "a"); ("upvotes", VInt 1)] in
  let db := [("idea", [("a", doc)])] in
  let f := [("_id", VDict [("$in", VList [VStr "a"])])] in
  snd (get_documents (host := example_host) memory_backing "idea" f 100 db)
  = Ok [doc]
  /\ update_document (host := example_host) memory_backing "idea" f
       [("upvotes", VInt 5)] 20 db
     = (db, Raise TypeError)
  /\ snd (update_document (host := example_host) memory_backing "idea" f
            [("upvotes", VInt 5)] 20 db) <> Ok 0
  /\ snd (update_document (host := example_host) memory_backing "idea" f
            [("upvotes", VInt 5)] 20 db) <> Ok 1.
Proof.
  cbv zeta. split; [reflexivity|]. split; [reflexivity|].
  split; discriminate.
Qed.

Lemma update_document_stamps_updated_at_witness :
  let doc := [("_id", VStr "a"); ("upvotes", VInt 1); ("updated_at", VDateTime 3)] in
  let db := [("idea", [("a", doc)])] in
  let f := [("_id", VStr "a")] in
  let data := [("upvotes", VInt 5); ("updated_at", VDateTime 1000)] in
  snd (update_document (host := example_host) memory_backing "idea" f data 20 db)
  = Ok 1
  /\ exists doc',
       alist_get "a"
         (collection "idea"
            (fst (update_document (host := example_host) memory_backing
                    "idea" f data 20 db)))
       = Some doc'
       /\ alist_get "updated_at" doc' = Some (VDateTime 20)
       /\ alist_get "upvotes" doc' = Some (VInt 5).
Proof.
  intros doc db f data.
  destruct (update_document_stamps_updated_at (host := example_host)
              "idea" f data 20) as (_ & _ & _ & _ & _ & Hhit).
  destruct (Hhit db "a" doc eq_refl eq_refl) as (Hcount & doc' & Hdoc & Hstamp & Hrest).
  split; [exact Hcount|].
  exists doc'. split; [exact Hdoc|]. split; [exact Hstamp|].
  rewrite Hrest by discriminate. reflexivity.
Defined.

Lemma timestamps_across_updates_witness :
  let doc := [("_id", VStr "a"); ("created_at", VDateTime 1);
              ("updated_at", VDateTime 1)] in
  let db := [("idea", [("a", doc)])] in
  let c1 := {| uc_collection := "idea"; uc_filter := [("_id", VStr "a")];
               uc_fields := [("upvotes", VInt 5)]; uc_now := 4 |} in
  let c2 := {| uc_collection := "idea"; uc_filter := [("_id", VStr "a")];
               uc_fields := [("title", VStr "Y")]; uc_now := 9 |} in
  stored_field "idea" "a" "created_at" (run_updates [c1; c2] db)
  = Some (VDateTime 1)
  /\ (exists t2,
        stored_field "idea" "a" "updated_at" (run_updates ([] ++ [c1]) db)
        = Some (VDateTime 4)
        /\ stored_field "idea" "a" "updated_at" (run_updates ([] ++ [c1; c2]) db)
           = Some (VDateTime t2)
        /\ 4 <= t2)
  /\ exists t1 t2,
       stored_field "idea" "a" "updated_at" (run_updates [c1] db)
       = Some (VDateTime t1)
       /\ stored_field "idea" "a" "updated_at" (run_updates ([c1] ++ [c2]) db)
          = Some (VDateTime t2)
       /\ 1 <= t1 /\ t1 <= t2.
Proof.
  intros doc db c1 c2.
  destruct (timestamps_across_updates (host := example_host) "idea" "a" db)
    as (Hcreated & Hsuccessive & Hupdated).
  split; [|split].
  - rewrite (Hcreated [c1; c2]); [reflexivity|].
    repeat constructor.
  - apply (Hsuccessive [] c1 [c2] doc); try reflexivity.
    simpl. repeat split; lia.
  - apply (Hupdated 1 [c1] [c2]); [reflexivity|].
    simpl. repeat split; lia.
Defined.

(** C5, as stated, fails: a call of [update_document] whose fields name
    [created_at] replaces it. *)
Lemma update_document_overwrites_created_at :
  let db := fst (create_document (memory_backing (host := example_host))
                   "idea" [("title", VStr "X")] 10 "00112233445566778899aabb" []) in
  let db' := fst (update_document (host := example_host) memory_backing "idea"
                    [("_id", VStr "00112233445566778899aabb")]
                    [("created_at", VDateTime 99)] 20 db) in
  stored_field "idea" "00112233445566778899aabb" "created_at" db
  = Some (VDateTime 10)
  /\ stored_field "idea" "00112233445566778899aabb" "created_at" db'
     = Some (VDateTime 99).
Proof.
  cbv zeta. split; reflexivity.
Qed.

End InMemoryExamples.

(** ** Inbound identifier translation *)

Section Inbound.
Context {host : Host}.

Lemma translate_filter_cases use_memory f :
  translate_filter use_memory f = f
  \/ exists s o,
       use_memory = false
       /\ alist_get "_id" f = Some (VStr s)
       /\ ObjectId_of_str s = Some o
       /\ translate_filter use_memory f = alist_set "_id" (VOid o) f.
Proof.
  unfold translate_filter.
  destruct use_memory; [left; reflexivity|].
  destruct (alist_get "_id" f) as [[| | |s| | | |]|]; try (left; reflexivity).
  destruct (String.eqb s ""); [left; reflexivity|].
  destruct (ObjectId_of_str s) as [o|] eqn:E; [|left; reflexivity].
  right. exists s, o. repeat split. exact E.
Qed.

Lemma translate_filter_not_str use_memory f :
  (forall s, alist_get "_id" f <> Some (VStr s)) ->
  translate_filter use_memory f = f.
Proof.
  intros H.
  destruct (translate_filter_cases use_memory f) as [E|(s & o & _ & Hs & _)];
    [exact E|].
  exfalso. exact (H s Hs).
Qed.

Lemma translate_filter_unparsed use_memory f s :
  alist_get "_id" f = Some (VStr s) -> ObjectId_of_str s = None ->
  translate_filter use_memory f = f.
Proof.
  intros Hs Hparse.
  destruct (translate_filter_cases use_memory f) as [E|(s' & o & _ & Hs' & Ho & _)];
    [exact E|].
  rewrite Hs in Hs'. inversion Hs'; subst. congruence.
Qed.

Lemma helpers_on_untranslated (B : Backing) name f :
  translate_filter (USE_MEMORY B) f = f ->
  (forall limit st,
      get_documents B name f limit st = fetch_documents B name f limit st)
  /\ (forall data now st,
        update_document B name f data now st =
        (res <- db_update_one B name f
                  [("$set", VDict (alist_set "updated_at" (VDateTime now) data))] ;;
         ret (modified_count res))%exec st)
  /\ (forall st,
        delete_document B name f st =
        (res <- db_delete_one B name f ;; ret (deleted_count res))%exec st).
Proof.
  intros E. unfold get_documents, update_document, delete_document.
  rewrite E. repeat split.
Qed.

(** C10: the inbound translation touches nothing but a string held by the
    filter's own [_id]: the translated filter is the filter itself, or the
    filter with that string replaced by the identifier it parses to.  A
    filter whose [_id] is not a string, such as an [$in] over string
    identifiers, reaches the backing as the caller gave it, in each of the
    three helpers and on either backing. *)
Theorem inbound_translation_top_level_only (B : Backing) (name : string) (f : Dict) :
  (translate_filter (USE_MEMORY B) f = f
   \/ exists s o,
        USE_MEMORY B = false
        /\ alist_get "_id" f = Some (VStr s)
        /\ ObjectId_of_str s = Some o
        /\ translate_filter (USE_MEMORY B) f = alist_set "_id" (VOid o) f)
  /\ (forall ids,
        translate_filter (USE_MEMORY B) [("_id", VDict [("$in", VList ids)])]
        = [("_id", VDict [("$in", VList ids)])])
  /\ ((forall s, alist_get "_id" f <> Some (VStr s)) ->
      translate_filter (USE_MEMORY B) f = f
      /\ (forall limit st,
            get_documents B name f limit st = fetch_documents B name f limit st)
      /\ (forall data now st,
            update_document B name f data now st =
            (res <- db_update_one B name f
                      [("$set", VDict (alist_set "updated_at" (VDateTime now) data))] ;;
             ret (modified_count res))%exec st)
      /\ (forall st,
            delete_document B name f st =
            (res <- db_delete_one B name f ;; ret (deleted_count res))%exec st)).
Proof.
  split; [apply translate_filter_cases|].
  split.
  - intros ids. apply translate_filter_not_str. intros s. discriminate.
  - intros H.
    pose proof (translate_filter_not_str (USE_MEMORY B) f H) as E.
    split; [exact E|]. apply helpers_on_untranslated, E.
Qed.

Lemma fetch_documents_none (B : Backing) name f limit st st' :
  db_find B name f st = (st', Ok []) ->
  fetch_documents B name f limit st = (st', Ok []).
Proof.
  intros H. unfold fetch_documents. rewrite H. simpl.
  unfold slice_to. destruct (0 <=? limit); rewrite firstn_nil; reflexivity.
Qed.

(** C8, as amended: on a networked backing, a filter whose [_id] is a string
    that does not parse as an identifier is passed on as it is, and the
    helper raises nothing of its own: the read is the driver's [find] on the
    caller's filter (made a second time when the first raises [TypeError]),
    truncated and serialized, and the update and the delete return the count
    the driver reports for the caller's filter.  So the call surfaces as
    zero matches when the driver reports none for that string: a read for
    which the driver finds nothing returns no document, and an update or a
    delete returns the count, 0 included, that the driver reports. *)
Theorem malformed_identifier_passes_through
    (B : Backing) (name : string) (f : Dict) (s : string) :
  USE_MEMORY B = false ->
  alist_get "_id" f = Some (VStr s) ->
  ObjectId_of_str s = None ->
  translate_filter (USE_MEMORY B) f = f
  /\ (forall limit st,
        get_documents B name f limit st =
        let out := res_map (fun docs => map _serialize (slice_to limit docs)) in
        let (st1, r) := db_find B name f st in
        match r with
        | Raise TypeError =>
            let (st2, r2) := db_find B name f st1 in (st2, out r2)
        | _ => (st1, out r)
        end)
  /\ (forall data now st,
        update_document B name f data now st =
        let (st', r) :=
          db_update_one B name f
            [("$set", VDict (alist_set "updated_at" (VDateTime now) data))] st in
        (st', res_map modified_count r))
  /\ (forall st,
        delete_document B name f st =
        let (st', r) := db_delete_one B name f st in
        (st', res_map deleted_count r))
  /\ (forall limit st st',
        db_find B name f st = (st', Ok []) ->
        get_documents B name f limit st = (st', Ok []))
  /\ (forall data now st st' res,
        db_update_one B name f
          [("$set", VDict (alist_set "updated_at" (VDateTime now) data))] st
        = (st', Ok res) ->
        update_document B name f data now st = (st', Ok (modified_count res)))
  /\ (forall st st' res,
        db_delete_one B name f st = (st', Ok res) ->
        delete_document B name f st = (st', Ok (deleted_count res))).
Proof.
  intros _ Hs Hparse.
  pose proof (translate_filter_unparsed (USE_MEMORY B) f s Hs Hparse) as E.
  destruct (helpers_on_untranslated B name f E) as (Hget & Hupd & Hdel).
  split; [exact E|]. split; [|split; [|split; [|split; [|split]]]].
  - intros limit st. rewrite Hget. reflexivity.
  - intros data now st. rewrite Hupd. unfold bind.
    destruct (db_update_one B name f _ st) as [st' [r|e]]; reflexivity.
  - intros st. rewrite Hdel. unfold bind.
    destruct (db_delete_one B name f st) as [st' [r|e]]; reflexivity.
  - intros limit st st' H. rewrite Hget. apply fetch_documents_none, H.
  - intros data now st st' res H. rewrite Hupd. unfold bind.
    rewrite H. reflexivity.
  - intros st st' res H. rewrite Hdel. unfold bind. rewrite H. reflexivity.
Qed.

End Inbound.

Section InboundExamples.
#[local] Existing Instance example_host.

Lemma malformed_identifier_passes_through_witness :
  let f := [("_id", VStr "not-an-id")] in
  let st : ListDriver.Server :=
    [("idea", [[("_id", VOid (Oid "64b7f0c2a1d3e4f5a6b7c8d9")); ("title", VStr "X")]])] in
  translate_filter false f = f
  /\ get_documents ListDriver.backing "idea" f 10 st = (st, Ok [])
  /\ update_document ListDriver.backing "idea" f [("upvotes", VInt 5)] 3 st
     = (st, Ok 0)
  /\ delete_document ListDriver.backing "idea" f st = (st, Ok 0).
Proof.
  intros f st.
  destruct (malformed_identifier_passes_through (host := example_host)
              ListDriver.backing "idea" f
              "not-an-id" eq_refl eq_refl eq_refl)
    as (Hsame & _ & _ & _ & Hget & Hupd & Hdel).
  split; [exact Hsame|].
  split; [exact (Hget 10 st st eq_refl)|].
  split; [exact (Hupd [("upvotes", VInt 5)] 3 st st not_matched eq_refl)|].
  exact (Hdel st st {| deleted_count := 0 |} eq_refl).
Defined.

(** C8, as stated, fails: a string that does not parse as an identifier can
    be the [_id] of a stored document, since [create_document] hands the
    caller's [_id] to the driver, which keeps it.  The read by that string
    then returns the document, and the update and the delete count 1. *)
Lemma unparsed_identifier_is_matched :
  let f := [("_id", VStr "not-an-id")] in
  let data := [("_id", VStr "not-an-id"); ("title", VStr "X")] in
  let st := fst (create_document ListDriver.backing "idea" data 17
                   "00112233445566778899aabb" []) in
  ObjectId_of_str "not-an-id" = None
  /\ snd (create_document ListDriver.backing "idea" data 17
            "00112233445566778899aabb" []) = Ok (VStr "not-an-id")
  /\ snd (get_documents ListDriver.backing "idea" f 10 st)
     = Ok [[("_id", VStr "not-an-id"); ("title", VStr "X");
            ("created_at", VDateTime 17); ("updated_at", VDateTime 17)]]
  /\ snd (update_document ListDriver.backing "idea" f [("upvotes", VInt 5)] 20 st)
     = Ok 1
  /\ snd (delete_document ListDriver.backing "idea" f st) = Ok 1.
Proof.
  cbv zeta. repeat split; reflexivity.
Qed.

Lemma inbound_translation_top_level_only_witness :
  let f := [("_id", VDict [("$in", VList [VStr "64b7f0c2a1d3e4f5a6b7c8d9"])])] in
  let st : ListDriver.Server :=
    [("idea", [[("_id", VOid (Oid "64b7f0c2a1d3e4f5a6b7c8d9")); ("title", VStr "X")]])] in
  translate_filter false f = f
  /\ get_documents ListDriver.backing "idea" f 10 st
     = fetch_documents ListDriver.backing "idea" f 10 st
  /\ translate_filter false [("_id", VStr "64b7f0c2a1d3e4f5a6b7c8d9")]
     = [("_id", VOid (Oid "64b7f0c2a1d3e4f5a6b7c8d9"))].
Proof.
  intros f st.
  destruct (inbound_translation_top_level_only (host := example_host)
              ListDriver.backing "idea" f)
    as (_ & _ & Hpass).
  destruct Hpass as (Hsame & Hget & _ & _).
  - intros s. discriminate.
  - split; [exact Hsame|]. split; [apply Hget|reflexivity].
Defined.

End InboundExamples.

(** ** Further properties of the in-memory collection *)

Section AlistShape.
Context {A : Type}.
Implicit Types (d : alist A) (k : string) (v : A).

Lemma alist_keys_replace k v d : alist_keys (alist_replace k v d) = alist_keys d.
Proof.
  induction d as [|[k0 v0] d IH]; simpl; [reflexivity|].
  f_equal. exact IH.
Qed.

Lemma alist_set_absent k v d :
  alist_get k d = None -> alist_set k v d = d ++ [(k, v)].
Proof.
  intros H. unfold alist_set, alist_mem. rewrite H. reflexivity.
Qed.

Lemma alist_keys_set_present k v d x :
  alist_get k d = Some x -> alist_keys (alist_set k v d) = alist_keys d.
Proof.
  intros H. unfold alist_set, alist_mem. rewrite H. apply alist_keys_replace.
Qed.

Lemma alist_set_present_length k v d x :
  alist_get k d = Some x -> List.length (alist_set k v d) = List.length d.
Proof.
  intros H. unfold alist_set, alist_mem. rewrite H. clear H.
  induction d as [|[k0 v0] d IH]; simpl; [reflexivity|].
  f_equal. exact IH.
Qed.

Lemma alist_keys_length d : List.length (alist_keys d) = List.length d.
Proof. apply length_map. Qed.

Lemma alist_remove_not_in k d : ~ In k (alist_keys d) -> alist_remove k d = d.
Proof.
  unfold alist_remove.
  induction d as [|[k0 v0] d IH]; simpl; intros H; [reflexivity|].
  destruct (String.eqb_spec k k0) as [->|Hne]; simpl; [tauto|].
  f_equal. apply IH. tauto.
Qed.

Lemma alist_remove_length k d x :
  dict_wf d -> alist_get k d = Some x ->
  S (List.length (alist_remove k d)) = List.length d.
Proof.
  unfold dict_wf.
  induction d as [|[k0 v0] d IH]; simpl; intros Hwf Hget; [discriminate|].
  inversion Hwf as [|? ? Hnotin Hwf']; subst.
  change (filter (fun kv : string * A => negb (String.eqb k (fst kv))) d)
    with (alist_remove k d).
  destruct (String.eqb_spec k k0) as [->|Hne]; simpl.
  - rewrite (alist_remove_not_in _ _ Hnotin). reflexivity.
  - f_equal. apply IH; [exact Hwf'|].
    destruct (alist_get k d); [exact Hget|discriminate].
Qed.

Lemma alist_get_some_in k d x : alist_get k d = Some x -> In k (alist_keys d).
Proof.
  intros H.
  destruct (in_dec string_dec k (alist_keys d)) as [Hin|Hnot]; [exact Hin|].
  rewrite (alist_get_not_in _ _ Hnot) in H. discriminate.
Qed.
End AlistShape.

Lemma items_lookup_some v items tid doc :
  items_lookup v items = Ok (Some (tid, doc)) ->
  v = VStr tid /\ alist_get tid items = Some doc.
Proof.
  unfold items_lookup.
  destruct (hashable v); [|discriminate].
  destruct v; try discriminate.
  destruct (alist_get s items) as [d|] eqn:E; simpl; [|discriminate].
  intros H. inversion H; subst. split; [reflexivity|exact E].
Qed.

(** X1: [insert_one] stores the document, with [_id] set to the token, under
    the token and touches no other document.  With a token that is not yet
    stored the document goes to the end of the collection and the count
    grows by one; with a token that is already stored the document it held is
    replaced and the count stays. *)
Theorem insert_one_stores (doc : Dict) (oid : string) (items : Items) :
  let stored := alist_set "_id" (VStr oid) doc in
  let items' := fst (insert_one doc oid items) in
  snd (insert_one doc oid items) = Ok (VStr oid)
  /\ alist_get oid items' = Some stored
  /\ (forall id, id <> oid -> alist_get id items' = alist_get id items)
  /\ (alist_get oid items = None ->
      items' = items ++ [(oid, stored)]
      /\ estimated_document_count items' = estimated_document_count items + 1)
  /\ (forall old, alist_get oid items = Some old ->
      alist_keys items' = alist_keys items
      /\ estimated_document_count items' = estimated_document_count items).
Proof.
  cbv zeta. unfold insert_one. simpl fst. simpl snd.
  split; [reflexivity|].
  split; [apply alist_get_set_same|].
  split; [intros id Hne; apply alist_get_set_other; congruence|].
  split.
  - intros Hnone. rewrite (alist_set_absent _ _ _ Hnone).
    split; [reflexivity|].
    unfold estimated_document_count. rewrite length_app. simpl. lia.
  - intros old Hold.
    split; [apply (alist_keys_set_present _ _ _ _ Hold)|].
    unfold estimated_document_count.
    rewrite (alist_set_present_length _ _ _ _ Hold). reflexivity.
Qed.

Lemma insert_one_stores_witness :
  let a := [("_id", VStr "a"); ("title", VStr "X")] in
  let items := [("a", a)] in
  fst (insert_one [("title", VStr "Y")] "b" items)
  = [("a", a); ("b", [("title", VStr "Y"); ("_id", VStr "b")])]
  /\ estimated_document_count (fst (insert_one [("title", VStr "Y")] "b" items)) = 2
  /\ estimated_document_count (fst (insert_one [("title", VStr "Y")] "a" items)) = 1.
Proof.
  intros a items.
  destruct (insert_one_stores [("title", VStr "Y")] "b" items)
    as (_ & _ & _ & Hfresh & _).
  destruct (Hfresh eq_refl) as [Hitems Hcount].
  destruct (insert_one_stores [("title", VStr "Y")] "a" items)
    as (_ & _ & _ & _ & Hclash).
  destruct (Hclash a eq_refl) as [_ Hsame].
  split; [exact Hitems|]. split; [exact Hcount|exact Hsame].
Defined.

(** X2: in a collection whose identifiers are distinct, the count after
    [delete_one] is the count before less the [deleted_count] it reports;
    when it raises, nothing is removed. *)
Theorem delete_one_count (f : Dict) (items : Items) :
  dict_wf items ->
  estimated_document_count (fst (delete_one f items)) =
  estimated_document_count items
  - match snd (delete_one f items) with
    | Ok r => deleted_count r
    | Raise _ => 0
    end.
Proof.
  intros Hwf. unfold delete_one.
  destruct (items_lookup (filter_id f) items) as [[[tid doc]|]|e] eqn:E;
    simpl; try lia.
  apply items_lookup_some in E. destruct E as [_ Hdoc].
  unfold estimated_document_count.
  rewrite <- (alist_remove_length tid items doc Hwf Hdoc). lia.
Qed.

Lemma delete_one_count_witness :
  let items : Items := [("a", [("_id", VStr "a")]); ("b", [("_id", VStr "b")])] in
  estimated_document_count (fst (delete_one [("_id", VStr "a")] items)) = 2 - 1
  /\ estimated_document_count (fst (delete_one [("_id", VStr "c")] items)) = 2 - 0.
Proof.
  intros items.
  assert (Hwf : dict_wf items).
  { repeat constructor; simpl; intuition discriminate. }
  split.
  - exact (delete_one_count [("_id", VStr "a")] items Hwf).
  - exact (delete_one_count [("_id", VStr "c")] items Hwf).
Defined.

Section CollectionMore.
Context {host : Host}.

Lemma find_one_by_id items f s :
  alist_get "_id" f = Some (VStr s) -> find_one items f = Ok (alist_get s items).
Proof.
  intros Hf. unfold find_one.
  rewrite (find_by_id items f (VStr s) Hf eq_refl).
  destruct (alist_get s items); reflexivity.
Qed.

(** X3: [find_one] by a string identifier returns the document stored under
    it, or nothing.  It finds a document right after [insert_one] stored it
    under that token, and finds nothing right after [delete_one] removed that
    identifier; with the empty filter it returns the document inserted
    first. *)
Theorem find_one_round_trip (items : Items) (f : Dict) (s : string) :
  alist_get "_id" f = Some (VStr s) ->
  find_one items f = Ok (alist_get s items)
  /\ (forall doc,
        find_one (fst (insert_one doc s items)) f
        = Ok (Some (alist_set "_id" (VStr s) doc)))
  /\ find_one (fst (delete_one f items)) f = Ok None
  /\ find_one items [] = Ok (hd_error (alist_values items)).
Proof.
  intros Hf.
  split; [apply find_one_by_id, Hf|].
  split.
  - intros doc. rewrite (find_one_by_id _ f s Hf).
    unfold insert_one. simpl fst. rewrite alist_get_set_same. reflexivity.
  - split; [|reflexivity].
    rewrite (find_one_by_id _ f s Hf).
    assert (Hid : filter_id f = VStr s) by (unfold filter_id; rewrite Hf; reflexivity).
    destruct (alist_get s items) as [doc|] eqn:E.
    + rewrite (delete_one_hit f items s doc Hid E). simpl fst.
      rewrite alist_get_remove_same. reflexivity.
    + rewrite delete_one_miss; [simpl; rewrite E; reflexivity
                               |rewrite Hid; reflexivity|].
      intros s' Hs. rewrite Hid in Hs. inversion Hs; subst. exact E.
Qed.

Lemma find_one_round_trip_witness :
  let a := [("_id", VStr "a"); ("title", VStr "X")] in
  let items := [("a", a)] in
  find_one items [("_id", VStr "a")] = Ok (Some a)
  /\ find_one (fst (insert_one [("title", VStr "Y")] "b" items)) [("_id", VStr "b")]
     = Ok (Some [("title", VStr "Y"); ("_id", VStr "b")])
  /\ find_one (fst (delete_one [("_id", VStr "a")] items)) [("_id", VStr "a")]
     = Ok None.
Proof.
  intros a items.
  destruct (find_one_round_trip items [("_id", VStr "a")] "a" eq_refl)
    as (Hget & _ & Hdel & _).
  destruct (find_one_round_trip items [("_id", VStr "b")] "b" eq_refl)
    as (_ & Hins & _).
  split; [exact Hget|]. split; [exact (Hins [("title", VStr "Y")])|exact Hdel].
Defined.

(** X4: [update_one] never adds or removes a document: whatever the filter
    and the payload, and also when it raises, the collection holds the same
    identifiers in the same order afterwards, and the same count. *)
Theorem update_one_keeps_identifiers (f update : Dict) (items : Items) :
  alist_keys (fst (update_one f update items)) = alist_keys items
  /\ estimated_document_count (fst (update_one f update items))
     = estimated_document_count items.
Proof.
  unfold update_one.
  destruct (items_lookup (filter_id f) items) as [[[tid doc]|]|e] eqn:E;
    try (split; reflexivity).
  apply items_lookup_some in E. destruct E as [_ Hdoc].
  destruct (apply_update update doc) as [doc' r]. simpl fst.
  split; [apply (alist_keys_set_present _ _ _ _ Hdoc)|].
  unfold estimated_document_count.
  rewrite (alist_set_present_length _ _ _ _ Hdoc). reflexivity.
Qed.

Lemma apply_inc_app ops1 ops2 doc doc1 :
  apply_inc ops1 doc = (doc1, Ok tt) ->
  apply_inc (ops1 ++ ops2) doc = apply_inc ops2 doc1.
Proof.
  revert doc.
  induction ops1 as [|[k v] ops1 IH]; intros doc H; simpl in *.
  - inversion H. reflexivity.
  - destruct (py_int (get_or_zero k doc)) as [a|e]; [|discriminate].
    destruct (py_int v) as [b|e]; [|discriminate].
    apply IH, H.
Qed.

(** X5: [update_one] is not atomic.  When an amount of [$inc] is not a
    number, the increments listed before it have already been applied to the
    stored document, the [$push] and [$set] parts are not applied, and the
    exception is raised. *)
Theorem update_one_not_atomic
    (f update : Dict) (items : Items) (id : string) (doc ops1 ops2 : Dict)
    (k : string) (v : Value) :
  filter_id f = VStr id ->
  alist_get id items = Some doc ->
  alist_get "$inc" update = Some (VDict (ops1 ++ (k, v) :: ops2)) ->
  dict_wf ops1 ->
  inc_applicable ops1 doc = true ->
  int_convertible v = false ->
  exists doc1 e,
    update_one f update items = (alist_set id doc1 items, Raise e)
    /\ forall k', alist_get k' doc1 = inc_field ops1 k' (alist_get k' doc).
Proof.
  intros Hf Hdoc Hinc Hwf Happ Hv.
  destruct (apply_inc_get ops1 doc Hwf Happ) as (doc1 & Hrun & Hget).
  assert (Hfail : exists e, apply_inc (ops1 ++ (k, v) :: ops2) doc = (doc1, Raise e)).
  { rewrite (apply_inc_app _ _ _ _ Hrun). simpl.
    destruct (py_int (get_or_zero k doc1)) as [a|e]; [|exists e; reflexivity].
    unfold int_convertible in Hv.
    destruct (py_int v) as [b|e]; [discriminate|exists e; reflexivity]. }
  destruct Hfail as (e & Hfail).
  exists doc1, e. split; [|exact Hget].
  rewrite (update_one_hit _ _ _ _ _ Hf Hdoc).
  unfold apply_update, bind, run_operator. rewrite Hinc, Hfail. reflexivity.
Qed.

End CollectionMore.

Lemma update_one_not_atomic_witness :
  let doc := [("_id", VStr "a"); ("upvotes", VInt 2)] in
  let update :=
    [("$inc", VDict [("upvotes", VInt 3); ("views", VNone)]);
     ("$set", VDict [("title", VStr "T")])] in
  exists doc1 e,
    update_one (host := example_host) [("_id", VStr "a")] update [("a", doc)]
    = (alist_set "a" doc1 [("a", doc)], Raise e)
    /\ alist_get "upvotes" doc1 = Some (VInt 5)
    /\ alist_get "title" doc1 = None.
Proof.
  intros doc update.
  destruct (update_one_not_atomic (host := example_host)
              [("_id", VStr "a")] update [("a", doc)] "a" doc
              [("upvotes", VInt 3)] [] "views" VNone
              eq_refl eq_refl eq_refl) as (doc1 & e & Hrun & Hget).
  - repeat constructor. simpl. tauto.
  - reflexivity.
  - reflexivity.
  - exists doc1, e. split; [exact Hrun|].
    rewrite !Hget. split; reflexivity.
Defined.

(** ** Further properties of the helpers *)

Lemma serialize_value_idempotent v :
  serialize_value (serialize_value v) = serialize_value v.
Proof. apply serialize_value_plain, serialize_value_canonical. Qed.

Lemma serialize_twice doc : _serialize (_serialize doc) = _serialize doc.
Proof.
  pose proof (serialize_value_idempotent (VDict doc)) as H.
  rewrite !serialize_value_dict in H. injection H as H. exact H.
Qed.

Lemma slice_to_map {A B} (g : A -> B) limit (l : list A) :
  map g (slice_to limit l) = slice_to limit (map g l).
Proof.
  unfold slice_to. rewrite length_map.
  destruct (0 <=? limit); symmetry; apply firstn_map.
Qed.

Lemma slice_to_length {A} limit (l : list A) :
  Z.of_nat (List.length (slice_to limit l)) =
  if 0 <=? limit then Z.min limit (Z.of_nat (List.length l))
  else Z.max 0 (Z.of_nat (List.length l) + limit).
Proof.
  unfold slice_to.
  destruct (Z.leb_spec 0 limit); rewrite length_firstn; lia.
Qed.

Lemma slice_to_In {A} limit (l : list A) x : In x (slice_to limit l) -> In x l.
Proof.
  assert (H : forall n (l0 : list A), In x (firstn n l0) -> In x l0).
  { induction n as [|n IH]; intros [|y l0]; simpl; try tauto.
    intros [E|Hin]; [left; exact E|right; apply IH, Hin]. }
  unfold slice_to. destruct (0 <=? limit); apply H.
Qed.

Lemma slice_to_all {A} limit (l : list A) :
  Z.of_nat (List.length l) <= limit -> slice_to limit l = l.
Proof.
  intros H. unfold slice_to.
  destruct (Z.leb_spec 0 limit); [|lia].
  apply firstn_all2. lia.
Qed.

Section HelpersMore.
Context {host : Host}.

Lemma fetch_documents_shape (B : Backing) name f limit st docs :
  snd (fetch_documents B name f limit st) = Ok docs ->
  exists raw, docs = map _serialize (slice_to limit raw).
Proof.
  unfold fetch_documents.
  destruct (db_find B name f st) as [st1 [raw|e]]; simpl.
  - intros H. inversion H. exists raw. reflexivity.
  - destruct e; simpl; try discriminate.
    destruct (db_find B name f st1) as [st2 [raw|e']]; simpl; [|discriminate].
    intros H. inversion H. exists raw. reflexivity.
Qed.

(** X6: serializing is idempotent, and every document [get_documents]
    returns, on either backing, is left as it is by serializing it again. *)
Theorem serialize_idempotent (doc : Dict) :
  _serialize (_serialize doc) = _serialize doc
  /\ forall (B : Backing) name f limit (st : db_state B) docs,
       snd (get_documents B name f limit st) = Ok docs ->
       Forall (fun d => _serialize d = d) docs.
Proof.
  split; [apply serialize_twice|].
  intros B name f limit st docs H.
  apply fetch_documents_shape in H. destruct H as (raw & ->).
  apply Forall_forall. intros d Hd.
  apply in_map_iff in Hd. destruct Hd as (d0 & <- & _).
  apply serialize_twice.
Qed.

(** X7: [get_documents] returns at most [limit] documents when [limit] is not
    negative, on either backing.  On the in-memory backing, for a collection
    name that is no attribute of the database object, the empty filter
    returns the first [limit] of the [n] stored documents, so [min(limit, n)]
    of them; a negative [limit] is not rejected and leaves out the last
    [-limit] documents, returning [max(0, n + limit)]. *)
Theorem get_documents_limit (name : string) (limit : Z) :
  (forall (B : Backing) f (st : db_state B) docs,
      snd (get_documents B name f limit st) = Ok docs ->
      0 <= limit -> Z.of_nat (List.length docs) <= limit)
  /\ forall db,
       own_attribute name = false ->
       snd (get_documents memory_backing name [] limit db)
       = Ok (slice_to limit (map _serialize (alist_values (collection name db))))
       /\ Z.of_nat (List.length
                      (slice_to limit
                         (map _serialize (alist_values (collection name db))))) =
          if 0 <=? limit
          then Z.min limit (estimated_document_count (collection name db))
          else Z.max 0 (estimated_document_count (collection name db) + limit).
Proof.
  split.
  - intros B f st docs H Hlimit.
    apply fetch_documents_shape in H. destruct H as (raw & ->).
    rewrite length_map, slice_to_length.
    destruct (Z.leb_spec 0 limit); lia.
  - intros db Hown. split.
    + rewrite (get_documents_memory _ _ _ _ Hown). simpl.
      rewrite slice_to_map. reflexivity.
    + rewrite slice_to_length. unfold alist_values, estimated_document_count.
      rewrite !length_map. reflexivity.
Qed.

(** X8: the inbound translation changes at most the value of [_id]: the
    filter keeps its keys, in their order, and every other value; translating
    a translated filter changes nothing more; and with the in-memory backing
    selected no filter is changed. *)
Theorem translate_filter_stable (use_memory : bool) (f : Dict) :
  translate_filter use_memory (translate_filter use_memory f)
  = translate_filter use_memory f
  /\ alist_keys (translate_filter use_memory f) = alist_keys f
  /\ (forall k, k <> "_id" ->
                alist_get k (translate_filter use_memory f) = alist_get k f)
  /\ translate_filter true f = f.
Proof.
  destruct (translate_filter_cases use_memory f)
    as [E|(s & o & _ & Hs & _ & E)]; rewrite E.
  - rewrite E. repeat split; reflexivity.
  - split.
    { apply translate_filter_not_str. intros s'.
      rewrite alist_get_set_same. discriminate. }
    split; [apply (alist_keys_set_present _ _ _ _ Hs)|].
    split; [|reflexivity].
    intros k Hk. apply alist_get_set_other. congruence.
Qed.

Lemma get_documents_memory_state name f limit db n :
  collection n (fst (get_documents memory_backing name f limit db))
  = collection n db.
Proof.
  destruct (own_attribute name) eqn:Hown.
  { rewrite (get_documents_own _ _ _ _ Hown). reflexivity. }
  assert (Hone : forall db0,
             collection n (alist_set name (collection name db0)
                             (alist_setdefault name [] db0)) = collection n db0).
  { intros db0. destruct (String.eqb_spec name n) as [->|Hne].
    - apply collection_set_same, Hown.
    - rewrite collection_set_other by exact Hne. apply collection_setdefault. }
  unfold get_documents, fetch_documents.
  cbn [memory_backing USE_MEMORY db_find translate_filter].
  rewrite (on_collection_run _ _ _ _ Hown). cbn [fst snd].
  destruct (find (collection name db) f) as [docs|e] eqn:E; [apply Hone|].
  destruct e; try apply Hone.
  rewrite (on_collection_run _ _ _ _ Hown). cbn [fst snd].
  rewrite Hone. apply Hone.
Qed.

Lemma create_document_frame name other data now oid db :
  name <> other ->
  collection other (fst (create_document memory_backing name data now oid db))
  = collection other db.
Proof.
  intros Hne. destruct (own_attribute name) eqn:H.
  - rewrite (create_document_own _ _ _ _ _ H). reflexivity.
  - rewrite (create_document_memory _ _ _ _ _ H). cbn [fst].
    rewrite collection_set_other by exact Hne. apply collection_setdefault.
Qed.

(** X9: collections of the in-memory database do not interfere.  Creating,
    updating or deleting in one collection leaves the documents of every
    other collection as they were, and reading changes the documents of no
    collection, the one read included. *)
Theorem collections_independent (name other : string) (db : MemoryDB) :
  (forall f limit n,
      collection n (fst (get_documents memory_backing name f limit db))
      = collection n db)
  /\ (name <> other ->
      (forall data now oid,
          collection other (fst (create_document memory_backing name data now oid db))
          = collection other db)
      /\ (forall f data now,
            collection other (fst (update_document memory_backing name f data now db))
            = collection other db)
      /\ (forall f,
            collection other (fst (delete_document memory_backing name f db))
            = collection other db)).
Proof.
  split; [intros f limit n; apply get_documents_memory_state|].
  intros Hne. split; [|split].
  - intros data now oid. apply create_document_frame, Hne.
  - intros f data now. apply update_document_frame, Hne.
  - intros f. apply delete_document_frame, Hne.
Qed.

End HelpersMore.

Section StoreInvariants.
Context {host : Host}.

Lemma create_document_collection name data now oid db :
  own_attribute name = false ->
  collection name (fst (create_document memory_backing name data now oid db)) =
  alist_set oid
    (alist_set "_id" (VStr oid)
       (alist_setdefault "updated_at" (VDateTime now)
          (alist_setdefault "created_at" (VDateTime now) data)))
    (collection name db).
Proof.
  intros H. rewrite (create_document_memory _ _ _ _ _ H). cbn [fst].
  apply collection_set_same, H.
Qed.

Lemma read_by_id name s limit db :
  own_attribute name = false ->
  1 <= limit ->
  snd (get_documents memory_backing name [("_id", VStr s)] limit db) =
  Ok match alist_get s (collection name db) with
     | Some doc => [_serialize doc]
     | None => []
     end.
Proof.
  intros Hown Hlimit. rewrite (get_documents_memory _ _ _ _ Hown).
  rewrite (find_by_id _ _ (VStr s)) by reflexivity.
  destruct (alist_get s (collection name db)); simpl.
  - rewrite slice_to_singleton by exact Hlimit. reflexivity.
  - unfold slice_to. destruct (0 <=? limit); rewrite firstn_nil; reflexivity.
Qed.

(** X10: the helpers keep documents filed under their own [_id].  If every
    document of a collection carries the identifier it is stored under, this
    still holds after [create_document], after [delete_document], and after
    [update_document] with fields that do not name [_id]; and every document
    read by a string identifier then carries that identifier. *)
Theorem keyed_by_id_kept (name : string) (db : MemoryDB) :
  keyed_by_id (collection name db) ->
  (forall data now oid,
      keyed_by_id
        (collection name (fst (create_document memory_backing name data now oid db))))
  /\ (forall f,
        keyed_by_id
          (collection name (fst (delete_document memory_backing name f db))))
  /\ (forall f data now,
        alist_get "_id" data = None ->
        keyed_by_id
          (collection name (fst (update_document memory_backing name f data now db))))
  /\ (forall s limit docs,
        snd (get_documents memory_backing name [("_id", VStr s)] limit db) = Ok docs ->
        Forall (fun d => alist_get "_id" d = Some (VStr s)) docs).
Proof.
  intros Hkeyed. split; [|split; [|split]].
  - intros data now oid id doc.
    destruct (own_attribute name) eqn:Hown.
    { rewrite (collection_own _ _ Hown). discriminate. }
    rewrite (create_document_collection _ _ _ _ _ Hown).
    rewrite alist_get_set.
    destruct (String.eqb_spec oid id) as [->|Hne].
    + intros H. inversion H. apply alist_get_set_same.
    + apply Hkeyed.
  - intros f id doc. rewrite delete_document_collection.
    unfold delete_one.
    destruct (items_lookup (filter_id f) (collection name db))
      as [[[tid d]|]|e]; cbn [fst]; try apply Hkeyed.
    destruct (String.eqb_spec tid id) as [->|Hne].
    + rewrite alist_get_remove_same. discriminate.
    + rewrite alist_get_remove_other by exact Hne. apply Hkeyed.
  - intros f data now Hdata id doc. rewrite update_document_collection.
    destruct (update_one_set_state f
                (alist_set "updated_at" (VDateTime now) data)
                (collection name db)) as [H|(s & doc0 & _ & Hdoc0 & H)];
      rewrite H; [apply Hkeyed|].
    rewrite alist_get_set.
    destruct (String.eqb_spec s id) as [->|Hne]; [|apply Hkeyed].
    intros E. inversion E; subst.
    rewrite apply_set_get. unfold set_field.
    rewrite alist_get_set_other by discriminate.
    rewrite Hdata. apply (Hkeyed id doc0 Hdoc0).
  - intros s limit docs H.
    destruct (own_attribute name) eqn:Hown.
    { rewrite (get_documents_own _ _ _ _ Hown) in H. discriminate. }
    rewrite (get_documents_memory _ _ _ _ Hown) in H.
    rewrite (find_by_id _ _ (VStr s)) in H by reflexivity.
    destruct (alist_get s (collection name db)) as [doc|] eqn:E;
      simpl in H; inversion H; subst.
    + apply Forall_forall. intros d Hd.
      apply in_map_iff in Hd. destruct Hd as (d0 & <- & Hd0).
      assert (d0 = doc).
      { apply slice_to_In in Hd0. destruct Hd0 as [<-|[]]. reflexivity. }
      subst d0. rewrite serialize_get, (Hkeyed s doc E). reflexivity.
    + unfold slice_to. destruct (0 <=? limit); rewrite firstn_nil; constructor.
Qed.

(** X11: [update_document] does not protect [_id].  Fields that name [_id]
    replace it in the stored document, which stays filed under its old
    identifier: reading by the old identifier then returns one document that
    reports the new [_id]. *)
Theorem update_document_rewrites_id
    (name : string) (f data : Dict) (now : Z) (db : MemoryDB)
    (id : string) (doc : Dict) (v : Value) (limit : Z) :
  filter_id f = VStr id ->
  alist_get id (collection name db) = Some doc ->
  alist_get "_id" data = Some v ->
  1 <= limit ->
  let db1 := fst (update_document memory_backing name f data now db) in
  snd (update_document memory_backing name f data now db) = Ok 1
  /\ alist_keys (collection name db1) = alist_keys (collection name db)
  /\ exists d,
       snd (get_documents memory_backing name [("_id", VStr id)] limit db1) = Ok [d]
       /\ alist_get "_id" d = Some (serialize_value v).
Proof.
  intros Hf Hdoc Hv Hlimit db1. subst db1.
  pose proof (collection_stored _ _ _ _ Hdoc) as Hown.
  set (payload := alist_set "updated_at" (VDateTime now) data).
  assert (Hcol : collection name (fst (update_document memory_backing name f data now db))
                 = alist_set id (apply_set payload doc) (collection name db)).
  { rewrite update_document_collection. fold payload.
    rewrite (update_one_set_hit _ _ _ _ _ Hf Hdoc). reflexivity. }
  split.
  { rewrite (update_document_memory _ _ _ _ _ Hown). cbn [snd]. fold payload.
    rewrite (update_one_set_hit _ _ _ _ _ Hf Hdoc). reflexivity. }
  split.
  { rewrite Hcol. apply (alist_keys_set_present _ _ _ _ Hdoc). }
  exists (_serialize (apply_set payload doc)).
  split.
  - rewrite (read_by_id _ _ _ _ Hown Hlimit), Hcol, alist_get_set_same.
    reflexivity.
  - rewrite serialize_get, apply_set_get. unfold set_field. subst payload.
    rewrite alist_get_set_other by discriminate.
    rewrite Hv. reflexivity.
Qed.

(** X12: on a collection name that is no attribute of the database object,
    [create_document] with a token that is not yet stored adds the new
    document after the stored ones: reading the whole collection afterwards
    returns what it returned before, followed by the new document. *)
Theorem create_appends
    (name : string) (data : Dict) (now : Z) (oid : string) (db : MemoryDB)
    (limit : Z) :
  own_attribute name = false ->
  alist_get oid (collection name db) = None ->
  estimated_document_count (collection name db) < limit ->
  let db1 := fst (create_document memory_backing name data now oid db) in
  let before := map _serialize (alist_values (collection name db)) in
  snd (get_documents memory_backing name [] limit db) = Ok before
  /\ exists new,
       snd (get_documents memory_backing name [] limit db1) = Ok (before ++ [new])
       /\ alist_get "_id" new = Some (VStr oid).
Proof.
  intros Hown Hfresh Hlimit db1 before. subst db1 before.
  unfold estimated_document_count in Hlimit.
  split.
  - rewrite (get_documents_memory _ _ _ _ Hown). simpl.
    rewrite slice_to_all; [reflexivity|].
    unfold alist_values. rewrite length_map. lia.
  - exists (_serialize
              (alist_set "_id" (VStr oid)
                 (alist_setdefault "updated_at" (VDateTime now)
                    (alist_setdefault "created_at" (VDateTime now) data)))).
    split.
    + rewrite (get_documents_memory _ _ _ _ Hown).
      rewrite (create_document_collection _ _ _ _ _ Hown).
      rewrite (alist_set_absent _ _ _ Hfresh). simpl.
      rewrite slice_to_all.
      * unfold alist_values. rewrite !map_app. reflexivity.
      * unfold alist_values. rewrite length_map, length_app. simpl. lia.
    + rewrite serialize_get, alist_get_set_same. reflexivity.
Qed.

(** X13: create, update, read, on a collection name that is no attribute of
    the database object.  After a document is created and then updated
    by its identifier, the update reports 1 and reading by the identifier
    returns one document in which [updated_at] is the time of the update,
    every field of the update holds the update's value, every other field
    the creation supplied holds the creation's value, and [created_at] is the
    time of the creation when neither call supplied it (values in serialized
    form). *)
Theorem create_update_read
    (name : string) (data fields : Dict) (now now' : Z) (oid : string)
    (db : MemoryDB) (limit : Z) :
  own_attribute name = false ->
  1 <= limit ->
  let db1 := fst (create_document memory_backing name data now oid db) in
  let f := [("_id", VStr oid)] in
  let db2 := fst (update_document memory_backing name f fields now' db1) in
  snd (update_document memory_backing name f fields now' db1) = Ok 1
  /\ exists doc,
       snd (get_documents memory_backing name f limit db2) = Ok [doc]
       /\ alist_get "updated_at" doc = Some (VDateTime now')
       /\ (forall k v, k <> "updated_at" -> alist_get k fields = Some v ->
                       alist_get k doc = Some (serialize_value v))
       /\ (forall k v, k <> "updated_at" -> k <> "_id" ->
                       alist_get k fields = None -> alist_get k data = Some v ->
                       alist_get k doc = Some (serialize_value v))
       /\ (alist_get "created_at" fields = None ->
           alist_get "created_at" data = None ->
           alist_get "created_at" doc = Some (VDateTime now)).
Proof.
  intros Hown Hlimit db1 f db2. subst db1 f db2.
  set (stored := alist_set "_id" (VStr oid)
                   (alist_setdefault "updated_at" (VDateTime now)
                      (alist_setdefault "created_at" (VDateTime now) data))).
  set (payload := alist_set "updated_at" (VDateTime now') fields).
  set (db1 := fst (create_document memory_backing name data now oid db)).
  assert (Hstored : alist_get oid (collection name db1) = Some stored).
  { subst db1. rewrite (create_document_collection _ _ _ _ _ Hown).
    apply alist_get_set_same. }
  assert (Hcol : collection name
                   (fst (update_document memory_backing name
                           [("_id", VStr oid)] fields now' db1))
                 = alist_set oid (apply_set payload stored) (collection name db1)).
  { rewrite update_document_collection. fold payload.
    rewrite (update_one_set_hit [("_id", VStr oid)] _ _ oid stored eq_refl Hstored).
    reflexivity. }
  split.
  { rewrite (update_document_memory _ _ _ _ _ Hown). cbn [snd]. fold payload.
    rewrite (update_one_set_hit [("_id", VStr oid)] _ _ oid stored eq_refl Hstored).
    reflexivity. }
  exists (_serialize (apply_set payload stored)).
  split.
  { rewrite (read_by_id _ _ _ _ Hown Hlimit), Hcol, alist_get_set_same.
    reflexivity. }
  assert (Hfield : forall k, alist_get k (_serialize (apply_set payload stored))
                             = option_map serialize_value
                                 (set_field payload k (alist_get k stored))).
  { intros k. rewrite serialize_get, apply_set_get. reflexivity. }
  split.
  { rewrite Hfield. unfold set_field. subst payload.
    rewrite alist_get_set_same. reflexivity. }
  split.
  { intros k v Hk Hv. rewrite Hfield. unfold set_field. subst payload.
    rewrite alist_get_set_other by congruence. rewrite Hv. reflexivity. }
  split.
  { intros k v Hk Hid Hnone Hv. rewrite Hfield. unfold set_field. subst payload.
    rewrite alist_get_set_other by congruence. rewrite Hnone. subst stored.
    rewrite alist_get_set_other by congruence.
    rewrite (alist_get_setdefault_bound _ _ _ _ v); [reflexivity|].
    apply alist_get_setdefault_bound, Hv. }
  intros Hnone Hdata. rewrite Hfield. unfold set_field. subst payload.
  rewrite alist_get_set_other by discriminate. rewrite Hnone. subst stored.
  rewrite alist_get_set_other by discriminate.
  rewrite alist_get_setdefault_other by discriminate.
  rewrite alist_get_setdefault_same, Hdata. reflexivity.
Qed.

End StoreInvariants.

(** ** The service layer over the in-memory database *)

Section ServiceFacts.
Context {host : Host}.

Lemma call_get {A} name (Hown : own_attribute name = false) f limit db
    (k : list Dict -> Handler (db_state memory_backing) A) :
  exists db1,
    same_documents db db1
    /\ call (get_documents memory_backing name f limit) k db =
       match res_map (fun docs => map _serialize (slice_to limit docs))
               (find (collection name db) f) with
       | Ok docs => k docs db1
       | Raise e => (db1, Uncaught e)
       end.
Proof.
  pose proof (get_documents_memory name f limit db Hown) as Hres.
  pose proof (fun n => get_documents_memory_state name f limit db n) as Hst.
  unfold call.
  destruct (get_documents memory_backing name f limit db) as [db1 r].
  cbn [fst snd] in *. exists db1. split; [exact Hst|].
  rewrite <- Hres. destruct r; reflexivity.
Qed.

Lemma call_read {A} name (Hown : own_attribute name = false) s db
    (k : list Dict -> Handler (db_state memory_backing) A) :
  exists db1,
    same_documents db db1
    /\ call (get_documents memory_backing name [("_id", VStr s)] 1) k db =
       k match alist_get s (collection name db) with
         | Some doc => [_serialize doc]
         | None => []
         end db1.
Proof.
  destruct (call_get name Hown [("_id", VStr s)] 1 db k) as (db1 & Hst & Hcall).
  exists db1. split; [exact Hst|]. rewrite Hcall.
  rewrite (find_by_id _ _ (VStr s)) by reflexivity.
  destruct (alist_get s (collection name db)); reflexivity.
Qed.

Lemma call_update_hit {A} name id doc data now db
    (k : Z -> Handler (db_state memory_backing) A) :
  alist_get id (collection name db) = Some doc ->
  exists db1,
    collection name db1 =
    alist_set id (apply_set (alist_set "updated_at" (VDateTime now) data) doc)
      (collection name db)
    /\ (forall n, name <> n -> collection n db1 = collection n db)
    /\ call (update_document memory_backing name [("_id", VStr id)] data now) k db
       = k 1 db1.
Proof.
  intros Hdoc.
  pose proof (collection_stored _ _ _ _ Hdoc) as Hown.
  pose proof (update_document_memory name [("_id", VStr id)] data now db Hown) as H.
  rewrite (update_one_set_hit [("_id", VStr id)] _ _ id doc eq_refl Hdoc) in H.
  cbn [fst snd] in H. unfold call. rewrite H.
  eexists. split; [apply collection_set_same, Hown|]. split; [|reflexivity].
  intros n Hne. rewrite collection_set_other by exact Hne.
  apply collection_setdefault.
Qed.

Lemma call_create {A} name (Hown : own_attribute name = false) data now oid db
    (k : Value -> Handler (db_state memory_backing) A) :
  exists db1,
    collection name db1 =
    alist_set oid
      (alist_set "_id" (VStr oid)
         (alist_setdefault "updated_at" (VDateTime now)
            (alist_setdefault "created_at" (VDateTime now) data)))
      (collection name db)
    /\ (forall n, name <> n -> collection n db1 = collection n db)
    /\ call (create_document memory_backing name data now oid) k db
       = k (VStr oid) db1.
Proof.
  pose proof (create_document_memory name data now oid db Hown) as H.
  unfold call. rewrite H.
  eexists. split; [apply collection_set_same, Hown|]. split; [|reflexivity].
  intros n Hne. rewrite collection_set_other by exact Hne.
  apply collection_setdefault.
Qed.

Lemma py_int_serialized v n : py_int v = Ok n -> serialize_value v = v.
Proof. destruct v; simpl; try discriminate; reflexivity. Qed.

Lemma get_or_zero_serialized doc n :
  py_int (get_or_zero "upvotes" doc) = Ok n ->
  get_or_zero "upvotes" (_serialize doc) = get_or_zero "upvotes" doc.
Proof.
  unfold get_or_zero. rewrite serialize_get.
  destruct (alist_get "upvotes" doc) as [v|]; simpl; [|reflexivity].
  apply py_int_serialized.
Qed.

(** X14: an upvote of a stored idea adds exactly one.  When the idea's
    [upvotes] is missing or converts with [int] to [n], [upvote_idea] returns
    the document as read back, with [upvotes] equal to [n + 1] and
    [updated_at] equal to the time of the call; in the store the two fields
    are set so, every other field of the idea and every other document are as
    before. *)
Theorem upvote_idea_adds_one
    (idea_id : string) (now : Z) (db : MemoryDB) (doc : Dict) (n : Z) :
  alist_get idea_id (collection "idea" db) = Some doc ->
  py_int (get_or_zero "upvotes" doc) = Ok n ->
  exists db' d,
    upvote_idea memory_backing idea_id now db = (db', Returned d)
    /\ alist_get "upvotes" d = Some (VInt (n + 1))
    /\ alist_get "updated_at" d = Some (VDateTime now)
    /\ stored_field "idea" idea_id "upvotes" db' = Some (VInt (n + 1))
    /\ stored_field "idea" idea_id "updated_at" db' = Some (VDateTime now)
    /\ (forall k, k <> "upvotes" -> k <> "updated_at" ->
                  stored_field "idea" idea_id k db' = alist_get k doc)
    /\ (forall id, id <> idea_id ->
                   alist_get id (collection "idea" db')
                   = alist_get id (collection "idea" db))
    /\ (forall name, name <> "idea" -> collection name db' = collection name db).
Proof.
  intros Hdoc Hvotes.
  set (doc' := apply_set (alist_set "updated_at" (VDateTime now)
                            [("upvotes", VInt (n + 1))]) doc).
  unfold upvote_idea.
  destruct (call_read (A := Dict) "idea" eq_refl idea_id db
              (fun docs =>
                 match docs with
                 | [] => reply (HTTPException 404 "Idea not found")
                 | item :: _ =>
                     call (lift (py_int (get_or_zero "upvotes" item))) (fun votes =>
                     call (update_document memory_backing "idea"
                             [("_id", VStr idea_id)]
                             [("upvotes", VInt (votes + 1))] now) (fun _ =>
                     call (get_documents memory_backing "idea"
                             [("_id", VStr idea_id)] 1) (fun again =>
                     match again with
                     | [] => reply UncaughtIndexError
                     | updated_doc :: _ => reply (Returned updated_doc)
                     end)))
                 end)) as (db1 & Hst1 & Hcall1).
  rewrite Hcall1, Hdoc. clear Hcall1.
  unfold call at 1, lift.
  rewrite (get_or_zero_serialized doc n Hvotes), Hvotes.
  assert (Hdoc1 : alist_get idea_id (collection "idea" db1) = Some doc)
    by (rewrite Hst1; exact Hdoc).
  destruct (call_update_hit (A := Dict) "idea" idea_id doc
              [("upvotes", VInt (n + 1))] now db1
              (fun _ =>
                 call (get_documents memory_backing "idea"
                         [("_id", VStr idea_id)] 1) (fun again =>
                 match again with
                 | [] => reply UncaughtIndexError
                 | updated_doc :: _ => reply (Returned updated_doc)
                 end)) Hdoc1) as (db2 & Hcol2 & Hother2 & Hcall2).
  rewrite Hcall2. clear Hcall2. fold doc' in Hcol2.
  destruct (call_read (A := Dict) "idea" eq_refl idea_id db2
              (fun again =>
                 match again with
                 | [] => reply UncaughtIndexError
                 | updated_doc :: _ => reply (Returned updated_doc)
                 end)) as (db3 & Hst3 & Hcall3).
  rewrite Hcall3, Hcol2, alist_get_set_same. clear Hcall3.
  assert (Hfield : forall k, alist_get k doc' =
                             set_field (alist_set "updated_at" (VDateTime now)
                                          [("upvotes", VInt (n + 1))]) k
                               (alist_get k doc))
    by (intros k; apply apply_set_get).
  assert (Hcol3 : collection "idea" db3
                  = alist_set idea_id doc' (collection "idea" db)).
  { rewrite Hst3, Hcol2, Hst1. reflexivity. }
  exists db3, (_serialize doc'). unfold reply.
  split; [reflexivity|].
  split; [rewrite serialize_get, Hfield; reflexivity|].
  split; [rewrite serialize_get, Hfield; reflexivity|].
  unfold stored_field. rewrite Hcol3, alist_get_set_same.
  split; [rewrite Hfield; reflexivity|].
  split; [rewrite Hfield; reflexivity|].
  split.
  { intros k Hk1 Hk2. rewrite Hfield. unfold set_field. simpl.
    destruct (String.eqb_spec k "updated_at"); [congruence|].
    destruct (String.eqb_spec k "upvotes"); [congruence|reflexivity]. }
  split.
  { intros id Hid. apply alist_get_set_other. congruence. }
  intros name Hname.
  rewrite Hst3, Hother2 by congruence. apply Hst1.
Qed.

(** X15: an upvote of, or a comment on, an identifier that is not stored
    raises [HTTPException] 404 and leaves every document of every collection
    as it was. *)
Theorem unknown_idea_is_404
    (idea_id : string) (db : MemoryDB) :
  alist_get idea_id (collection "idea" db) = None ->
  (forall now,
      exists db',
        upvote_idea memory_backing idea_id now db
        = (db', HTTPException 404 "Idea not found")
        /\ same_documents db db')
  /\ (forall author text now now',
        exists db',
          add_comment memory_backing idea_id author text now now' db
          = (db', HTTPException 404 "Idea not found")
          /\ same_documents db db').
Proof.
  intros Hnone. split.
  - intros now. unfold upvote_idea.
    match goal with
    | |- context [call _ ?k db] =>
        destruct (call_read "idea" eq_refl idea_id db k) as (db1 & Hst & Hcall)
    end.
    rewrite Hcall, Hnone. exists db1. split; [reflexivity|exact Hst].
  - intros author text now now'. unfold add_comment.
    match goal with
    | |- context [call _ ?k db] =>
        destruct (call_read "idea" eq_refl idea_id db k) as (db1 & Hst & Hcall)
    end.
    rewrite Hcall, Hnone. exists db1. split; [reflexivity|exact Hst].
Qed.

Lemma canon_element_idempotent x : canon_element (canon_element x) = canon_element x.
Proof. destruct x; reflexivity. Qed.

(** X16: a comment is appended.  When the idea's [comments] is a list, or is
    missing, [add_comment] stores the list as it was read (identifiers among
    its elements in string form) followed by the new comment, which holds the
    author, the text and the first clock reading; it sets [updated_at] to the
    second reading, leaves every other field and every other document as they
    were, and returns the document read back. *)
Theorem add_comment_appends
    (idea_id author text : string) (now now' : Z) (db : MemoryDB)
    (doc : Dict) (held : list Value) :
  alist_get idea_id (collection "idea" db) = Some doc ->
  alist_get "comments" doc = Some (VList held)
  \/ (alist_get "comments" doc = None /\ held = []) ->
  let comments :=
    VList (map canon_element held ++ [VDict (comment_model_dump author text now)]) in
  exists db' d,
    add_comment memory_backing idea_id author text now now' db = (db', Returned d)
    /\ alist_get "comments" d = Some comments
    /\ stored_field "idea" idea_id "comments" db' = Some comments
    /\ stored_field "idea" idea_id "updated_at" db' = Some (VDateTime now')
    /\ (forall k, k <> "comments" -> k <> "updated_at" ->
                  stored_field "idea" idea_id k db' = alist_get k doc)
    /\ (forall id, id <> idea_id ->
                   alist_get id (collection "idea" db')
                   = alist_get id (collection "idea" db))
    /\ (forall name, name <> "idea" -> collection name db' = collection name db).
Proof.
  intros Hdoc Hheld comments.
  set (doc' := apply_set (alist_set "updated_at" (VDateTime now')
                            [("comments", comments)]) doc).
  unfold add_comment.
  match goal with
  | |- context [call _ ?k db] =>
      destruct (call_read "idea" eq_refl idea_id db k) as (db1 & Hst1 & Hcall1)
  end.
  rewrite Hcall1, Hdoc. clear Hcall1. cbv zeta.
  assert (Hiter : py_iter match alist_get "comments" (_serialize doc) with
                          | Some x => x
                          | None => VList []
                          end = Ok (map canon_element held)).
  { rewrite serialize_get.
    destruct Hheld as [H|[H ->]]; rewrite H; reflexivity. }
  unfold call at 1, lift. rewrite Hiter.
  assert (Hdoc1 : alist_get idea_id (collection "idea" db1) = Some doc)
    by (rewrite Hst1; exact Hdoc).
  match goal with
  | |- context [call (update_document _ _ _ ?data _) ?k db1] =>
      destruct (call_update_hit "idea" idea_id doc data now' db1 k Hdoc1)
        as (db2 & Hcol2 & Hother2 & Hcall2)
  end.
  rewrite Hcall2. clear Hcall2. fold comments in Hcol2. fold doc' in Hcol2.
  match goal with
  | |- context [call _ ?k db2] =>
      destruct (call_read "idea" eq_refl idea_id db2 k) as (db3 & Hst3 & Hcall3)
  end.
  rewrite Hcall3, Hcol2, alist_get_set_same. clear Hcall3.
  assert (Hfield : forall k, alist_get k doc' =
                             set_field (alist_set "updated_at" (VDateTime now')
                                          [("comments", comments)]) k
                               (alist_get k doc))
    by (intros k; apply apply_set_get).
  assert (Hcol3 : collection "idea" db3
                  = alist_set idea_id doc' (collection "idea" db)).
  { rewrite Hst3, Hcol2, Hst1. reflexivity. }
  assert (Hser : serialize_value comments = comments).
  { subst comments. simpl. f_equal. rewrite map_app, map_map. simpl.
    f_equal. apply map_ext. intros x. apply canon_element_idempotent. }
  exists db3, (_serialize doc'). unfold reply.
  split; [reflexivity|].
  split.
  { rewrite serialize_get, Hfield. unfold set_field. simpl.
    f_equal. exact Hser. }
  unfold stored_field. rewrite Hcol3, alist_get_set_same.
  split; [rewrite Hfield; reflexivity|].
  split; [rewrite Hfield; reflexivity|].
  split.
  { intros k Hk1 Hk2. rewrite Hfield. unfold set_field. simpl.
    destruct (String.eqb_spec k "updated_at"); [congruence|].
    destruct (String.eqb_spec k "comments"); [congruence|reflexivity]. }
  split.
  { intros id Hid. apply alist_get_set_other. congruence. }
  intros name Hname.
  rewrite Hst3, Hother2 by congruence. apply Hst1.
Qed.

Lemma map_canon_strings (l : list string) :
  map canon_element (map VStr l) = map VStr l.
Proof. rewrite map_map. reflexivity. Qed.

(** X17: [create_idea] on the in-memory backing always returns the idea, its
    500 branch is never taken.  The idea holds the fields of the request, then
    [upvotes] 0, no comments, [created_at] equal to the handler's clock
    reading, [updated_at] equal to the later reading of [create_document], and
    the token as [_id]; it is stored so under the token, and no other document
    changes. *)
Theorem create_idea_returns
    (payload : IdeaCreate) (now now' : Z) (oid : string) (db : MemoryDB) :
  let idea :=
    idea_model_dump payload
    ++ [("upvotes", VInt 0); ("comments", VList []);
        ("created_at", VDateTime now); ("updated_at", VDateTime now');
        ("_id", VStr oid)] in
  exists db',
    create_idea memory_backing payload now now' oid db = (db', Returned idea)
    /\ alist_get oid (collection "idea" db') = Some idea
    /\ (forall id, id <> oid ->
                   alist_get id (collection "idea" db')
                   = alist_get id (collection "idea" db))
    /\ (forall name, name <> "idea" -> collection name db' = collection name db).
Proof.
  intros idea. unfold create_idea. cbv zeta.
  match goal with
  | |- context [call (create_document _ _ ?data _ _) ?k db] =>
      destruct (call_create "idea" eq_refl data now' oid db k)
        as (db1 & Hcol1 & Hother1 & Hcall1)
  end.
  rewrite Hcall1. clear Hcall1.
  match goal with
  | |- context [call _ ?k db1] =>
      destruct (call_read "idea" eq_refl oid db1 k) as (db2 & Hst2 & Hcall2)
  end.
  rewrite Hcall2, Hcol1, alist_get_set_same. clear Hcall2.
  assert (Hstored :
            alist_set "_id" (VStr oid)
              (alist_setdefault "updated_at" (VDateTime now')
                 (alist_setdefault "created_at" (VDateTime now')
                    (apply_set [("upvotes", VInt 0); ("comments", VList []);
                                ("created_at", VDateTime now)]
                       (idea_model_dump payload)))) = idea)
    by reflexivity.
  rewrite Hstored in *.
  assert (Hser : _serialize idea = idea).
  { subst idea. unfold idea_model_dump. simpl.
    rewrite map_canon_strings.
    destruct (ic_website payload), (ic_thumbnail payload); reflexivity. }
  rewrite Hser. exists db2. unfold reply.
  split; [reflexivity|].
  split; [rewrite Hst2, Hcol1; apply alist_get_set_same|].
  split.
  - intros id Hid. rewrite Hst2, Hcol1. apply alist_get_set_other. congruence.
  - intros name Hname. rewrite Hst2. apply Hother1. congruence.
Qed.

(** X18: [GET /test] reports the number of stored ideas, capped at one
    million by the limit it reads with, and changes no document. *)
Theorem test_db_count (db : MemoryDB) :
  exists db',
    test_db memory_backing db
    = (db', Returned [("ok", VBool true);
                      ("collections", VList [VStr "idea"]);
                      ("count",
                       VInt (Z.min 1000000
                               (estimated_document_count (collection "idea" db))))])
    /\ same_documents db db'.
Proof.
  unfold test_db.
  match goal with
  | |- context [call _ ?k db] =>
      destruct (call_get "idea" eq_refl [] 1000000 db k) as (db1 & Hst & Hcall)
  end.
  rewrite Hcall. exists db1. split; [|exact Hst].
  simpl. unfold reply. rewrite length_map, slice_to_length.
  unfold alist_values, estimated_document_count. rewrite length_map.
  reflexivity.
Qed.

Lemma alist_set_not_nil {A} k (v : A) (d : alist A) : alist_set k v d <> [].
Proof.
  unfold alist_set. destruct (alist_mem k d) eqn:E.
  - destruct d as [|[k0 v0] d]; [discriminate|]. simpl. discriminate.
  - destruct d; discriminate.
Qed.

Lemma seed_data_skips r c1 c2 c3 (db : MemoryDB) :
  collection "idea" db <> [] ->
  exists db',
    seed_data memory_backing r c1 c2 c3 db = (db', Returned skipped)
    /\ same_documents db db'.
Proof.
  intros Hne. unfold seed_data.
  match goal with
  | |- context [call _ ?k db] =>
      destruct (call_get "idea" eq_refl [] 1 db k) as (db1 & Hst & Hcall)
  end.
  rewrite Hcall. exists db1. split; [|exact Hst].
  destruct (collection "idea" db) as [|[id doc] items]; [congruence|].
  reflexivity.
Qed.

Lemma seed_data_seeds r c1 c2 c3 (db : MemoryDB) :
  collection "idea" db = [] ->
  exists db',
    seed_data memory_backing r c1 c2 c3 db
    = (db', Returned [("status", VStr "seeded"); ("count", VInt 3)])
    /\ (forall name, name <> "idea" -> collection name db' = collection name db)
    /\ collection "idea" db' <> []
    /\ (snd c1 <> snd c2 -> snd c1 <> snd c3 -> snd c2 <> snd c3 ->
        collection "idea" db' =
        [(snd c1,
           [("title", VStr "FocusFox");
            ("description",
             VStr "A playful Pomodoro timer with streaks and a friendly fox mascot.");
            ("maker", VStr "Ava K.");
            ("website", VStr "https://example.com/focusfox");
            ("tags", VList [VStr "productivity"; VStr "timer"]);
            ("thumbnail", VStr "https://picsum.photos/seed/focusfox/200/200");
            ("upvotes", VInt 21);
            ("comments",
             VList [VDict [("author", VStr "Noah");
                           ("text", VStr "This UI makes me want to work!");
                           ("created_at", VDateTime (at_noah r))];
                    VDict [("author", VStr "Liam");
                           ("text", VStr "Add shortcuts please");
                           ("created_at", VDateTime (at_liam r))]]);
            ("created_at", VDateTime (at_focusfox r));
            ("updated_at", VDateTime (fst c1));
            ("_id", VStr (snd c1))]);
          (snd c2,
           [("title", VStr "SnackScan");
            ("description",
             VStr "Snap a snack, get nutrition and allergy warnings instantly.");
            ("maker", VStr "Maya P.");
            ("website", VStr "https://example.com/snackscan");
            ("tags", VList [VStr "health"; VStr "ai"; VStr "mobile"]);
            ("thumbnail", VStr "https://picsum.photos/seed/snackscan/200/200");
            ("upvotes", VInt 54);
            ("comments",
             VList [VDict [("author", VStr "Olivia");
                           ("text", VStr "Great for school lunches!");
                           ("created_at", VDateTime (at_olivia r))]]);
            ("created_at", VDateTime (at_snackscan r));
            ("updated_at", VDateTime (fst c2));
            ("_id", VStr (snd c2))]);
          (snd c3,
           [("title", VStr "Inkling");
            ("description",
             VStr "Daily writing prompts that grow with your style.");
            ("maker", VStr "Ravi S.");
            ("website", VStr "https://example.com/inkling");
            ("tags", VList [VStr "writing"; VStr "creative"]);
            ("thumbnail", VStr "https://picsum.photos/seed/inkling/200/200");
            ("upvotes", VInt 12);
            ("comments", VList []);
            ("created_at", VDateTime (at_inkling r));
            ("updated_at", VDateTime (fst c3));
            ("_id", VStr (snd c3))])]).
Proof.
  intros Hempty. destruct c1 as [t1 o1], c2 as [t2 o2], c3 as [t3 o3].
  unfold seed_data.
  match goal with
  | |- context [call _ ?k db] =>
      destruct (call_get "idea" eq_refl [] 1 db k) as (db0 & Hst0 & Hcall0)
  end.
  rewrite Hcall0, Hempty. clear Hcall0. cbn [find alist_values map res_map res_bind].
  replace (map _serialize (slice_to 1 [])) with (@nil Dict) by reflexivity.
  unfold call. cbn [create_all samples]. unfold bind.
  rewrite !(create_document_memory "idea" _ _ _ _ eq_refl).
  rewrite !(collection_set_same "idea" _ _ eq_refl).
  rewrite (Hst0 "idea"), Hempty.
  eexists. split; [reflexivity|].
  split.
  { intros name Hname.
    rewrite !collection_set_other by congruence.
    rewrite !collection_setdefault.
    rewrite !collection_set_other by congruence.
    rewrite !collection_setdefault.
    rewrite !collection_set_other by congruence.
    rewrite !collection_setdefault. apply Hst0. }
  rewrite (collection_set_same "idea" _ _ eq_refl).
  split; [apply alist_set_not_nil|].
  cbn [fst snd]. intros H12 H13 H23.
  unfold alist_set, alist_mem, alist_setdefault. simpl.
  destruct (String.eqb_spec o2 o1); [congruence|]. simpl.
  destruct (String.eqb_spec o3 o2); [congruence|].
  destruct (String.eqb_spec o3 o1); [congruence|]. reflexivity.
Qed.

(** X19: seeding happens once.  [seed_data] on a collection that holds a
    document answers that it skipped and changes nothing; on an empty
    collection it answers that it seeded 3 and, the three tokens being
    distinct, the collection then holds exactly the three sample ideas
    FocusFox, SnackScan and Inkling, in this order, each with the fields of
    its literal, [updated_at] the time of its creation call and [_id] its
    token; and whatever the state, a second call answers that it skipped and
    changes nothing. *)
Theorem seed_data_once (r : SeedReadings) (c1 c2 c3 : Z * string) (db : MemoryDB) :
  (collection "idea" db <> [] ->
   exists db',
     seed_data memory_backing r c1 c2 c3 db = (db', Returned skipped)
     /\ same_documents db db')
  /\ (collection "idea" db = [] ->
      exists db',
        seed_data memory_backing r c1 c2 c3 db
        = (db', Returned [("status", VStr "seeded"); ("count", VInt 3)])
        /\ (forall name, name <> "idea" -> collection name db' = collection name db)
        /\ (snd c1 <> snd c2 -> snd c1 <> snd c3 -> snd c2 <> snd c3 ->
            collection "idea" db' =
            [(snd c1,
               [("title", VStr "FocusFox");
                ("description",
                 VStr "A playful Pomodoro timer with streaks and a friendly fox mascot.");
                ("maker", VStr "Ava K.");
                ("website", VStr "https://example.com/focusfox");
                ("tags", VList [VStr "productivity"; VStr "timer"]);
                ("thumbnail", VStr "https://picsum.photos/seed/focusfox/200/200");
                ("upvotes", VInt 21);
                ("comments",
                 VList [VDict [("author", VStr "Noah");
                               ("text", VStr "This UI makes me want to work!");
                               ("created_at", VDateTime (at_noah r))];
                        VDict [("author", VStr "Liam");
                               ("text", VStr "Add shortcuts please");
                               ("created_at", VDateTime (at_liam r))]]);
                ("created_at", VDateTime (at_focusfox r));
                ("updated_at", VDateTime (fst c1));
                ("_id", VStr (snd c1))]);
              (snd c2,
               [("title", VStr "SnackScan");
                ("description",
                 VStr "Snap a snack, get nutrition and allergy warnings instantly.");
                ("maker", VStr "Maya P.");
                ("website", VStr "https://example.com/snackscan");
                ("tags", VList [VStr "health"; VStr "ai"; VStr "mobile"]);
                ("thumbnail", VStr "https://picsum.photos/seed/snackscan/200/200");
                ("upvotes", VInt 54);
                ("comments",
                 VList [VDict [("author", VStr "Olivia");
                               ("text", VStr "Great for school lunches!");
                               ("created_at", VDateTime (at_olivia r))]]);
                ("created_at", VDateTime (at_snackscan r));
                ("updated_at", VDateTime (fst c2));
                ("_id", VStr (snd c2))]);
              (snd c3,
               [("title", VStr "Inkling");
                ("description",
                 VStr "Daily writing prompts that grow with your style.");
                ("maker", VStr "Ravi S.");
                ("website", VStr "https://example.com/inkling");
                ("tags", VList [VStr "writing"; VStr "creative"]);
                ("thumbnail", VStr "https://picsum.photos/seed/inkling/200/200");
                ("upvotes", VInt 12);
                ("comments", VList []);
                ("created_at", VDateTime (at_inkling r));
                ("updated_at", VDateTime (fst c3));
                ("_id", VStr (snd c3))])]))
  /\ (forall r' c1' c2' c3',
        exists db'',
          seed_data memory_backing r' c1' c2' c3'
            (fst (seed_data memory_backing r c1 c2 c3 db))
          = (db'', Returned skipped)
          /\ same_documents (fst (seed_data memory_backing r c1 c2 c3 db)) db'').
Proof.
  split; [apply seed_data_skips|]. split.
  - intros Hempty.
    destruct (seed_data_seeds r c1 c2 c3 db Hempty) as (db' & H & Ho & _ & Hk).
    exists db'. split; [exact H|]. split; [exact Ho|exact Hk].
  - intros r' c1' c2' c3'.
    assert (Hne : collection "idea" (fst (seed_data memory_backing r c1 c2 c3 db)) <> []).
    { destruct (collection "idea" db) as [|x items] eqn:E.
      - destruct (seed_data_seeds r c1 c2 c3 db E) as (db' & H & _ & Hn & _).
        rewrite H. exact Hn.
      - destruct (seed_data_skips r c1 c2 c3 db) as (db' & H & Hst);
          [rewrite E; discriminate|].
        rewrite H. cbn [fst]. rewrite Hst, E. discriminate. }
    destruct (seed_data_skips r' c1' c2' c3' _ Hne) as (db'' & H & Hst).
    exists db''. split; [exact H|exact Hst].
Qed.

(** X20: a handler that fails on what it read changes nothing.  When the
    [upvotes] read for the idea does not convert with [int], [upvote_idea]
    lets that exception escape; when the [comments] read for the idea cannot
    be iterated, [add_comment] lets the [TypeError] escape; in both cases
    every document is as before. *)
Theorem failed_handler_changes_nothing
    (idea_id : string) (db : MemoryDB) (doc : Dict) :
  alist_get idea_id (collection "idea" db) = Some doc ->
  (forall now e,
      py_int (get_or_zero "upvotes" (_serialize doc)) = Raise e ->
      exists db',
        upvote_idea memory_backing idea_id now db = (db', Uncaught e)
        /\ same_documents db db')
  /\ (forall author text now now' e,
        py_iter match alist_get "comments" (_serialize doc) with
                | Some x => x
                | None => VList []
                end = Raise e ->
        exists db',
          add_comment memory_backing idea_id author text now now' db
          = (db', Uncaught e)
          /\ same_documents db db').
Proof.
  intros Hdoc. split.
  - intros now e Hfail. unfold upvote_idea.
    match goal with
    | |- context [call _ ?k db] =>
        destruct (call_read "idea" eq_refl idea_id db k) as (db1 & Hst & Hcall)
    end.
    rewrite Hcall, Hdoc. unfold call, lift. rewrite Hfail.
    exists db1. split; [reflexivity|exact Hst].
  - intros author text now now' e Hfail. unfold add_comment.
    match goal with
    | |- context [call _ ?k db] =>
        destruct (call_read "idea" eq_refl idea_id db k) as (db1 & Hst & Hcall)
    end.
    rewrite Hcall, Hdoc. cbv zeta. unfold call, lift. rewrite Hfail.
    exists db1. split; [reflexivity|exact Hst].
Qed.

End ServiceFacts.

(** ** Instances of the further properties *)

Section MoreExamples.
#[local] Existing Instance example_host.

Lemma serialize_idempotent_witness :
  let doc := [("_id", VOid (Oid "64b7f0c2a1d3e4f5a6b7c8d9")); ("title", VStr "X")] in
  let db := [("idea", [("a", doc)])] in
  _serialize (_serialize doc) = _serialize doc
  /\ Forall (fun d => _serialize d = d)
       [[("_id", VStr "64b7f0c2a1d3e4f5a6b7c8d9"); ("title", VStr "X")]].
Proof.
  intros doc db.
  destruct (serialize_idempotent (host := example_host) doc) as [Htwice Hread].
  split; [exact Htwice|].
  exact (Hread memory_backing "idea" [] 10 db _ eq_refl).
Defined.

Lemma get_documents_limit_witness :
  let db := [("idea", [("a", [("_id", VStr "a")]); ("b", [("_id", VStr "b")])])] in
  Z.of_nat (List.length [[("_id", VStr "a")]]) <= 1
  /\ snd (get_documents memory_backing "idea" [] (-1) db) = Ok [[("_id", VStr "a")]].
Proof.
  intros db.
  destruct (get_documents_limit (host := example_host) "idea" 1) as [Hcap _].
  destruct (get_documents_limit (host := example_host) "idea" (-1)) as [_ Hall].
  split.
  - apply (Hcap memory_backing [] db); [reflexivity|lia].
  - exact (proj1 (Hall db eq_refl)).
Defined.

Lemma translate_filter_stable_witness :
  let f := [("_id", VStr "64b7f0c2a1d3e4f5a6b7c8d9"); ("title", VStr "X")] in
  translate_filter false f
  = [("_id", VOid (Oid "64b7f0c2a1d3e4f5a6b7c8d9")); ("title", VStr "X")]
  /\ alist_get "title" (translate_filter false f) = Some (VStr "X")
  /\ translate_filter false (translate_filter false f) = translate_filter false f.
Proof.
  intros f.
  destruct (translate_filter_stable (host := example_host) false f)
    as (Htwice & _ & Hother & _).
  split; [reflexivity|]. split; [|exact Htwice].
  rewrite Hother; [reflexivity|discriminate].
Defined.

Lemma collections_independent_witness :
  let db := [("idea", [("a", [("_id", VStr "a")])]);
             ("note", [("n", [("_id", VStr "n")])])] in
  collection "note"
    (fst (delete_document memory_backing "idea" [("_id", VStr "a")] db))
  = [("n", [("_id", VStr "n")])]
  /\ collection "note"
       (fst (create_document memory_backing "idea" [("title", VStr "X")] 3 "b" db))
     = [("n", [("_id", VStr "n")])].
Proof.
  intros db.
  destruct (collections_independent (host := example_host) "idea" "note" db)
    as [_ Hother].
  destruct Hother as (Hcreate & _ & Hdelete); [discriminate|].
  split; [apply Hdelete|apply Hcreate].
Defined.

Lemma keyed_example :
  keyed_by_id [("a", [("_id", VStr "a"); ("title", VStr "X")])].
Proof.
  intros id doc H. simpl in H.
  destruct (String.eqb_spec id "a") as [->|]; [|discriminate].
  inversion H. reflexivity.
Qed.

Lemma keyed_by_id_kept_witness :
  let db := [("idea", [("a", [("_id", VStr "a"); ("title", VStr "X")])])] in
  keyed_by_id
    (collection "idea"
       (fst (update_document memory_backing "idea" [("_id", VStr "a")]
               [("title", VStr "Y")] 5 db)))
  /\ keyed_by_id
       (collection "idea"
          (fst (create_document memory_backing "idea" [("_id", VStr "mine")] 5 "b" db))).
Proof.
  intros db.
  destruct (keyed_by_id_kept (host := example_host) "idea" db keyed_example)
    as (Hcreate & _ & Hupdate & _).
  split; [apply Hupdate; reflexivity|apply Hcreate].
Defined.

Lemma update_document_rewrites_id_witness :
  let doc := [("_id", VStr "a"); ("title", VStr "X")] in
  let db := [("idea", [("a", doc)])] in
  let db1 := fst (update_document memory_backing "idea" [("_id", VStr "a")]
                    [("_id", VStr "z")] 5 db) in
  exists d,
    snd (get_documents memory_backing "idea" [("_id", VStr "a")] 1 db1) = Ok [d]
    /\ alist_get "_id" d = Some (VStr "z").
Proof.
  intros doc db db1.
  destruct (update_document_rewrites_id (host := example_host) "idea"
              [("_id", VStr "a")] [("_id", VStr "z")] 5 db "a" doc (VStr "z") 1
              eq_refl eq_refl eq_refl ltac:(lia)) as (_ & _ & d & Hread & Hid).
  exists d. split; [exact Hread|exact Hid].
Defined.

Lemma create_appends_witness :
  let db := [("idea", [("a", [("_id", VStr "a")])])] in
  let db1 := fst (create_document memory_backing "idea" [("title", VStr "Y")] 5 "b" db) in
  exists new,
    snd (get_documents memory_backing "idea" [] 100 db1)
    = Ok ([[("_id", VStr "a")]] ++ [new])
    /\ alist_get "_id" new = Some (VStr "b").
Proof.
  intros db db1.
  destruct (create_appends (host := example_host) "idea" [("title", VStr "Y")]
              5 "b" db 100 eq_refl eq_refl eq_refl) as (_ & new & Hread & Hid).
  exists new. split; [exact Hread|exact Hid].
Defined.

Lemma create_update_read_witness :
  let db1 := fst (create_document memory_backing "idea"
                    [("title", VStr "X"); ("maker", VStr "M")] 3 "b" []) in
  let db2 := fst (update_document memory_backing "idea" [("_id", VStr "b")]
                    [("upvotes", VInt 5)] 8 db1) in
  exists doc,
    snd (get_documents memory_backing "idea" [("_id", VStr "b")] 1 db2) = Ok [doc]
    /\ alist_get "upvotes" doc = Some (VInt 5)
    /\ alist_get "title" doc = Some (VStr "X")
    /\ alist_get "created_at" doc = Some (VDateTime 3)
    /\ alist_get "updated_at" doc = Some (VDateTime 8).
Proof.
  intros db1 db2.
  destruct (create_update_read (host := example_host) "idea"
              [("title", VStr "X"); ("maker", VStr "M")] [("upvotes", VInt 5)]
              3 8 "b" [] 1 eq_refl ltac:(lia))
    as (_ & doc & Hread & Hupdated & Hfields & Hdata & Hcreated).
  exists doc. split; [exact Hread|].
  split; [apply (Hfields "upvotes" (VInt 5)); [discriminate|reflexivity]|].
  split; [apply (Hdata "title" (VStr "X"));
          [discriminate|discriminate|reflexivity|reflexivity]|].
  split; [apply Hcreated; reflexivity|exact Hupdated].
Defined.

Lemma upvote_idea_adds_one_witness :
  let doc := [("_id", VStr "a"); ("title", VStr "X"); ("upvotes", VInt 21)] in
  let db := [("idea", [("a", doc)])] in
  exists db' d,
    upvote_idea memory_backing "a" 9 db = (db', Returned d)
    /\ alist_get "upvotes" d = Some (VInt 22)
    /\ stored_field "idea" "a" "title" db' = Some (VStr "X").
Proof.
  intros doc db.
  destruct (upvote_idea_adds_one (host := example_host) "a" 9 db doc 21
              eq_refl eq_refl)
    as (db' & d & Hrun & Hvotes & _ & _ & _ & Hrest & _).
  exists db', d. split; [exact Hrun|]. split; [exact Hvotes|].
  rewrite Hrest; [reflexivity|discriminate|discriminate].
Defined.

Lemma unknown_idea_is_404_witness :
  let db := [("idea", [("a", [("_id", VStr "a")])])] in
  (exists db',
      upvote_idea memory_backing "zz" 9 db = (db', HTTPException 404 "Idea not found")
      /\ same_documents db db')
  /\ exists db',
       add_comment memory_backing "zz" "Noah" "Nice" 9 10 db
       = (db', HTTPException 404 "Idea not found")
       /\ same_documents db db'.
Proof.
  intros db.
  destruct (unknown_idea_is_404 (host := example_host) "zz" db eq_refl)
    as [Hup Hcomment].
  split; [apply Hup|apply Hcomment].
Defined.

Lemma add_comment_appends_witness :
  let first := VDict (comment_model_dump "Liam" "Add shortcuts please" 2) in
  let doc := [("_id", VStr "a"); ("upvotes", VInt 21); ("comments", VList [first])] in
  let db := [("idea", [("a", doc)])] in
  exists db' d,
    add_comment memory_backing "a" "Noah" "Nice" 9 10 db = (db', Returned d)
    /\ alist_get "comments" d
       = Some (VList [first; VDict (comment_model_dump "Noah" "Nice" 9)])
    /\ stored_field "idea" "a" "upvotes" db' = Some (VInt 21).
Proof.
  intros first doc db.
  destruct (add_comment_appends (host := example_host) "a" "Noah" "Nice" 9 10
              db doc [first] eq_refl (or_introl eq_refl))
    as (db' & d & Hrun & Hcomments & _ & _ & Hrest & _).
  exists db', d. split; [exact Hrun|]. split; [exact Hcomments|].
  rewrite Hrest; [reflexivity|discriminate|discriminate].
Defined.

Lemma failed_handler_changes_nothing_witness :
  let doc := [("_id", VStr "a"); ("upvotes", VNone); ("comments", VInt 3)] in
  let db := [("idea", [("a", doc)])] in
  (exists db',
      upvote_idea memory_backing "a" 9 db = (db', Uncaught TypeError)
      /\ same_documents db db')
  /\ exists db',
       add_comment memory_backing "a" "Noah" "Nice" 9 10 db
       = (db', Uncaught TypeError)
       /\ same_documents db db'.
Proof.
  intros doc db.
  destruct (failed_handler_changes_nothing (host := example_host) "a" db doc eq_refl)
    as [Hup Hcomment].
  split; [exact (Hup 9 TypeError eq_refl)|].
  exact (Hcomment "Noah" "Nice" 9 10 TypeError eq_refl).
Defined.

Lemma seed_data_once_witness :
  let r := {| at_noah := 1; at_liam := 2; at_focusfox := 3; at_olivia := 4;
              at_snackscan := 5; at_inkling := 6 |} in
  exists db',
    seed_data memory_backing r (7, "a") (8, "b") (9, "c") []
    = (db', Returned [("status", VStr "seeded"); ("count", VInt 3)])
    /\ alist_keys (collection "idea" db') = ["a"; "b"; "c"]
    /\ stored_field "idea" "a" "title" db' = Some (VStr "FocusFox")
    /\ stored_field "idea" "b" "upvotes" db' = Some (VInt 54)
    /\ stored_field "idea" "c" "updated_at" db' = Some (VDateTime 9).
Proof.
  intros r.
  destruct (seed_data_once (host := example_host) r (7, "a") (8, "b") (9, "c") [])
    as (_ & Hseed & _).
  destruct (Hseed eq_refl) as (db' & Hrun & _ & Hstored).
  exists db'. split; [exact Hrun|].
  unfold stored_field.
  rewrite Hstored by discriminate.
  repeat split; reflexivity.
Defined.

End MoreExamples.
